(** * EODMS order-downloader: the orchestration layer of
      [eodms-orderdownload.py], embedded and verified.

    Python values are modelled as follows.
    - [str] is [string], a character being a code point below 256.
      [upper] and [lower] act on the letters a-z and A-Z, and [strip] on
      the ASCII white space: this is what Python does on ASCII texts, which
      is what the properties below are about. Beyond ASCII Python's
      methods follow Unicode; there the model is exact only for code
      points that have no other case and are no white space, such as the
      ordinal indicators.
    - A [dict] used as a map is a [gmap]; a [list] is a [list].
    - An exception is a value of [exn]; a function that can raise returns
      [exn + A].
    - [sys.exit], the calls of the RAPI client and the exports are events of
      a trace, threaded with the object's fields through a small monad. *)

From Stdlib Require Import String Ascii ZArith List Lia Bool DecimalString.
From Stdlib Require DecimalPos.
From stdpp Require Import base list gmap strings.

Local Open Scope string_scope.
Local Open Scope list_scope.

(** ** Python's string methods *)

Module Py.

(** The letters a-z. Python's [islower] knows more lowercase letters,
    beyond ASCII. *)
Definition is_lower (c : ascii) : bool :=
  let n := nat_of_ascii c in (97 <=? n)%nat && (n <=? 122)%nat.

Definition is_upper (c : ascii) : bool :=
  let n := nat_of_ascii c in (65 <=? n)%nat && (n <=? 90)%nat.

(** White space as [str.strip] sees it, on ASCII: TAB, LF, VT, FF, CR,
    FS, GS, RS, US and the space. *)
Definition is_space (c : ascii) : bool :=
  let n := nat_of_ascii c in
  ((9 <=? n)%nat && (n <=? 13)%nat) || ((28 <=? n)%nat && (n <=? 32)%nat).

Definition upper_char (c : ascii) : ascii :=
  if is_lower c then ascii_of_nat (nat_of_ascii c - 32) else c.

Definition lower_char (c : ascii) : ascii :=
  if is_upper c then ascii_of_nat (nat_of_ascii c + 32) else c.

Fixpoint map_chars (f : ascii -> ascii) (s : string) : string :=
  match s with
  | EmptyString => EmptyString
  | String c s' => String (f c) (map_chars f s')
  end.

(** [s.upper()] and [s.lower()] on ASCII texts: a-z become A-Z and the
    reverse, every other character stays. *)
Definition upper (s : string) : string := map_chars upper_char s.
Definition lower (s : string) : string := map_chars lower_char s.

(** [sub in s] *)
Fixpoint contains (sub s : string) : bool :=
  match s with
  | EmptyString => String.prefix sub s
  | String _ s' => String.prefix sub s || contains sub s'
  end.

(** [s.split(sep)] for a separator that is not empty (Python raises
    [ValueError] on an empty one; every separator of the program is a
    literal that is not empty).  [split_aux sep skip s] gives the piece
    that is being read and the pieces after it; [skip] counts the
    characters of a separator just found that are still to be passed. *)
Fixpoint split_aux (sep : string) (skip : nat) (s : string)
  : string * list string :=
  match s with
  | EmptyString => (EmptyString, [])
  | String c s' =>
      match skip with
      | S k => split_aux sep k s'
      | O =>
          if String.prefix sep s
          then (EmptyString,
                let (p, ps) := split_aux sep (String.length sep - 1) s' in
                p :: ps)
          else let (p, ps) := split_aux sep 0 s' in (String c p, ps)
      end
  end.

Definition split (sep s : string) : list string :=
  let (p, ps) := split_aux sep 0 s in p :: ps.

(** [s.replace(old, new)] for a one-character [old] *)
Fixpoint replace (old : ascii) (new s : string) : string :=
  match s with
  | EmptyString => EmptyString
  | String c s' =>
      if Ascii.eqb c old then new +:+ replace old new s'
      else String c (replace old new s')
  end.

(** [s.lstrip()], [s.rstrip()] and [s.strip()] *)
Fixpoint lstrip (s : string) : string :=
  match s with
  | EmptyString => EmptyString
  | String c s' => if is_space c then lstrip s' else s
  end.

Fixpoint rstrip (s : string) : string :=
  match s with
  | EmptyString => EmptyString
  | String c s' =>
      match rstrip s' with
      | EmptyString => if is_space c then EmptyString else String c EmptyString
      | r => String c r
      end
  end.

Definition strip (s : string) : string := rstrip (lstrip s).

(** The characters of a text all satisfy [P]. *)
Fixpoint all_chars (P : ascii -> bool) (s : string) : bool :=
  match s with
  | EmptyString => true
  | String c s' => P c && all_chars P s'
  end.

End Py.

(** Exceptions the modelled code can raise. *)
Inductive exn :=
| ValueError | AttributeError | KeyError | IndexError | TypeError
| UnboundLocalError.

(** ** [_parse_dates] and [validate_dates] *)

(** A dictionary [{'start': ..., 'end': ...}]. *)
Record DateRange := { start : string; end_ : string }.

(** What [_parse_dates] returns: the empty text or a list of ranges. *)
Inductive dates_value :=
| DatesEmpty
| DatesList (dates : list DateRange).

(** What [validate_dates] returns: its argument or [False]. *)
Inductive validated :=
| Valid (dates : option string)
| Invalid.

Definition time_words : list string := ["hour"; "day"; "week"; "month"; "year"].

(** One side of a range, lines 161-164 and 166-169. *)
Definition normalize_side (side : string) : string :=
  if Py.contains "t" (Py.lower side)
  then Py.replace "t" "_" (Py.lower side)
  else side +:+ "_000000".

(** The body of the loop of line 159: [start, end = rng.split('-')] needs
    exactly two pieces, and both names are rebound. *)
Definition range_step (rng : string) : exn + (string * string) :=
  match Py.split "-" rng with
  | [s; e] => inr (normalize_side s, normalize_side e)
  | _ => inl ValueError
  end.

(** The loop of lines 159-169: the state is the pair bound to [start] and
    [end] by the last iteration ([None] before the first one). *)
Fixpoint ranges_loop (date_ranges : list string) (cur : option (string * string))
  : exn + option (string * string) :=
  match date_ranges with
  | [] => inr cur
  | rng :: rest =>
      match range_step rng with
      | inl e => inl e
      | inr se => ranges_loop rest (Some se)
      end
  end.

Section Dates.

(** [dateparser.parse(text).strftime("%Y%m%d_%H%M%S")], [None] when
    [dateparser.parse] returns [None], and
    [datetime.datetime.now().strftime("%Y%m%d_%H%M%S")]. *)
Variable dateparser_parse : string -> option string.
Variable now : string.

(** [_parse_dates], lines 130-173. *)
Definition _parse_dates (in_dates : option string) : exn + dates_value :=
  match in_dates with
  | None => inr DatesEmpty
  | Some text =>
      if String.eqb text "" then inr DatesEmpty
      else if existsb (fun word => Py.contains word text) time_words then
        match dateparser_parse text with
        | None => inl AttributeError
        | Some s => inr (DatesList [{| start := s; end_ := now |}])
        end
      else
        match ranges_loop (Py.split "," text) None with
        | inl e => inl e
        | inr None => inl UnboundLocalError
        | inr (Some (s, e)) =>
            (* line 171 is outside the loop: one [append] *)
            inr (DatesList ([] ++ [{| start := s; end_ := e |}]))
        end
  end.

(** [validate_dates], lines 1092-1107: any exception gives [False]. *)
Definition validate_dates (dates : option string) : validated :=
  match _parse_dates dates with
  | inr _ => Valid dates
  | inl _ => Invalid
  end.

End Dates.

(** ** [_parse_filters] *)

(** [self.operators], lines 85-88. *)
Definition operators : list string :=
  ["="; "<"; ">"; "<>"; "<="; ">="; " LIKE "; " STARTS WITH "; " ENDS WITH ";
   " CONTAINS "; " CONTAINED BY "; " CROSSES "; " DISJOINT WITH ";
   " INTERSECTS "; " OVERLAPS "; " TOUCHES "; " WITHIN "].

(** [get_filtMap], lines 761-962: the field identifiers of each collection. *)
Definition get_filtMap : gmap string (gmap string string) :=
  list_to_map [
    ("COSMO-SkyMed1",
      list_to_map
        [("ORBIT_DIRECTION", "Absolute Orbit");
         ("PIXEL_SPACING", "Spatial Resolution")]);
    ("DMC",
      list_to_map
        [("CLOUD_COVER", "Cloud Cover");
         ("PIXEL_SPACING", "Spatial Resolution");
         ("INCIDENCE_ANGLE", "Incidence Angle")]);
    ("Gaofen-1",
      list_to_map
        [("CLOUD_COVER", "Cloud Cover");
         ("PIXEL_SPACING", "Spatial Resolution");
         ("INCIDENCE_ANGLE", "Sensor Incidence Angle")]);
    ("GeoEye-1",
      list_to_map
        [("CLOUD_COVER", "Cloud Cover");
         ("PIXEL_SPACING", "Spatial Resolution");
         ("INCIDENCE_ANGLE", "Sensor Incidence Angle");
         ("SENSOR_MODE", "Sensor Mode")]);
    ("IKONOS",
      list_to_map
        [("CLOUD_COVER", "Cloud Cover");
         ("PIXEL_SPACING", "Spatial Resolution");
         ("INCIDENCE_ANGLE", "Sensor Incidence Angle");
         ("SENSOR_MODE", "Sensor Mode")]);
    ("IRS",
      list_to_map
        [("CLOUD_COVER", "Cloud Cover");
         ("PIXEL_SPACING", "Spatial Resolution");
         ("INCIDENCE_ANGLE", "Sensor Incidence Angle");
         ("SENSOR_MODE", "Sensor Mode")]);
    ("NAPL",
      list_to_map
        [("COLOUR", "Sensor Mode");
         ("SCALE", "Scale");
         ("ROLL", "Roll Number");
         ("PHOTO_NUMBER", "Photo Number")]);
    ("PlanetScope",
      list_to_map
        [("CLOUD_COVER", "Cloud Cover");
         ("PIXEL_SPACING", "Spatial Resolution");
         ("INCIDENCE_ANGLE", "Sensor Incidence Angle")]);
    ("QuickBird-2",
      list_to_map
        [("CLOUD_COVER", "Cloud Cover");
         ("PIXEL_SPACING", "Spatial Resolution");
         ("INCIDENCE_ANGLE", "Sensor Incidence Angle");
         ("SENSOR_MODE", "Sensor Mode")]);
    ("RCMImageProducts",
      list_to_map
        [("ORBIT_DIRECTION", "Orbit Direction");
         ("PIXEL_SPACING", "Spatial Resolution");
         ("INCIDENCE_ANGLE", "Incidence Angle");
         ("BEAM_MNEMONIC", "Beam Mnemonic");
         ("BEAM_MODE_QUALIFIER", "Beam Mode Qualifier");
         ("DOWNLINK_SEGMENT_ID", "Downlink Segment ID");
         ("LUT_Applied", "LUT Applied");
         ("OPEN_DATA", "Open Data");
         ("POLARIZATION", "Polarization");
         ("PRODUCT_FORMAT", "Product Format");
         ("PRODUCT_TYPE", "Product Type");
         ("RELATIVE_ORBIT", "Relative Orbit");
         ("WITHIN_ORBIT_TUBE", "Within Orbit Tube");
         ("ORDER_KEY", "Order Key");
         ("SEQUENCE_ID", "Sequence Id");
         ("SPECIAL_HANDLING_REQUIRED", "Special Handling Required")]);
    ("RCMScienceData",
      list_to_map
        [("ORBIT_DIRECTION", "Orbit Direction");
         ("INCIDENCE_ANGLE", "Incidence Angle");
         ("BEAM_MODE", "Beam Mode Type");
         ("BEAM_MNEMONIC", "Beam Mnemonic");
         ("TRANSMIT_POLARIZATION", "Transmit Polarization");
         ("RECEIVE POLARIZATION", "Receive Polarization");
         ("DOWNLINK_SEGMENT_ID", "Downlink Segment ID")]);
    ("Radarsat1",
      list_to_map
        [("ORBIT_DIRECTION", "Orbit Direction");
         ("PIXEL_SPACING", "Spatial Resolution");
         ("INCIDENCE_ANGLE", "Incidence Angle");
         ("BEAM_MNEMONIC", "Position");
         ("ORBIT", "Absolute Orbit")]);
    ("Radarsat1RawProducts",
      list_to_map
        [("ORBIT_DIRECTION", "Orbit Direction");
         ("PIXEL_SPACING", "Spatial Resolution");
         ("INCIDENCE_ANGLE", "Incidence Angle");
         ("DATASET_ID", "Dataset Id");
         ("ARCHIVE_FACILITY", "Reception Facility");
         ("RECEPTION FACILITY", "Reception Facility");
         ("BEAM_MODE", "Sensor Mode");
         ("BEAM_MNEMONIC", "Position");
         ("ABSOLUTE_ORBIT", "Absolute Orbit")]);
    ("Radarsat2",
      list_to_map
        [("ORBIT_DIRECTION", "Orbit Direction");
         ("PIXEL_SPACING", "Spatial Resolution");
         ("INCIDENCE_ANGLE", "Incidence Angle");
         ("SEQUENCE_ID", "Sequence Id");
         ("BEAM_MNEMONIC", "Position");
         ("LOOK_DIRECTION", "Look Direction");
         ("TRANSMIT_POLARIZATION", "Transmit Polarization");
         ("RECEIVE_POLARIZATION", "Receive Polarization");
         ("IMAGE_ID", "Image Id");
         ("RELATIVE_ORBIT", "Relative Orbit");
         ("ORDER_KEY", "Order Key")]);
    ("Radarsat2RawProducts",
      list_to_map
        [("ORBIT_DIRECTION", "Orbit Direction");
         ("PIXEL_SPACING", "Spatial Resolution");
         ("INCIDENCE_ANGLE", "Incidence Angle");
         ("LOOK_ORIENTATION", "Look Orientation");
         ("BEAM_MODE", "Sensor Mode");
         ("BEAM_MNEMONIC", "Position");
         ("TRANSMIT_POLARIZATION", "Transmit Polarization");
         ("RECEIVE_POLARIZATION", "Receive Polarization");
         ("IMAGE_ID", "Image Id")]);
    ("RapidEye",
      list_to_map
        [("CLOUD_COVER", "Cloud Cover");
         ("PIXEL_SPACING", "Spatial Resolution");
         ("INCIDENCE_ANGLE", "Sensor Incidence Angle");
         ("SENSOR_MODE", "Sensor Mode")]);
    ("SGBAirPhotos",
      list_to_map
        [("SCALE", "Scale");
         ("ROLL_NUMBER", "Roll Number");
         ("PHOTO_NUMBER", "Photo Number");
         ("AREA", "Area")]);
    ("SPOT",
      list_to_map
        [("CLOUD_COVER", "Cloud Cover");
         ("PIXEL_SPACING", "Spatial Resolution");
         ("INCIDENCE_ANGLE", "Sensor Incidence Angle")]);
    ("TerraSarX",
      list_to_map
        [("ORBIT_DIRECTION", "Orbit Direction");
         ("PIXEL_SPACING", "Spatial Resolution");
         ("INCIDENCE_ANGLE", "Incidence Angle")]);
    ("VASP",
      list_to_map
        [("VASP_OPTIONS", "Sequence Id")]);
    ("WorldView-1",
      list_to_map
        [("CLOUD_COVER", "Cloud Cover");
         ("PIXEL_SPACING", "Spatial Resolution");
         ("INCIDENCE_ANGLE", "Sensor Incidence Angle");
         ("SENSOR_MODE", "Sensor Mode")]);
    ("WorldView-2",
      list_to_map
        [("CLOUD_COVER", "Cloud Cover");
         ("PIXEL_SPACING", "Spatial Resolution");
         ("INCIDENCE_ANGLE", "Sensor Incidence Angle");
         ("SENSOR_MODE", "Sensor Mode")]);
    ("WorldView-3",
      list_to_map
        [("CLOUD_COVER", "Cloud Cover");
         ("PIXEL_SPACING", "Spatial Resolution");
         ("INCIDENCE_ANGLE", "Sensor Incidence Angle");
         ("SENSOR_MODE", "Sensor Mode")])
  ].

(** What the loop of [_parse_filters] prints and logs. *)
Inductive message :=
| Printed (text : string)
| Warning (text : string).

(** The names the loop of line 193 carries from one entry to the next:
    [coll_id] (rebound at line 208), [out_filters], and the messages. *)
Record filt_state := {
  st_coll_id : option string;
  out_filters : gmap string (string * list string);
  messages : list message
}.

Definition say (m : message) (st : filt_state) : filt_state :=
  {| st_coll_id := st_coll_id st;
     out_filters := out_filters st;
     messages := messages st ++ [m] |}.

(** Lines 201-205: [ops] keeps the operators found in the entry, in the
    order of [self.operators]; the inner loop rebinds [filt_split] and [op]
    for each of them, so the last one stays. *)
Definition detect_operator (filt : string) : option (string * list string) :=
  let ops := List.filter (fun x => Py.contains x filt) operators in
  fold_left (fun _ o => Some (o, Py.split o filt)) ops None.

Definition dquote : ascii := "034"%char.
Definition squote : ascii := "'"%char.

(** The body of the loop of line 193, lines 195-232. *)
Definition filter_step (self_coll_id : string) (st : filt_state) (filt : string)
  : exn + filt_state :=
  let filt := Py.upper filt in
  if negb (existsb (fun x => Py.contains x filt) operators) then
    inr (say (Printed ("Filter '" +:+ filt +:+ "' entered incorrectly.")) st)
  else
    match detect_operator filt with
    | None => inl UnboundLocalError
    | Some (op, filt_split) =>
        let coll_id := default self_coll_id (st_coll_id st) in
        let st := {| st_coll_id := Some coll_id;
                     out_filters := out_filters st;
                     messages := messages st |} in
        match filt_split !! 0%nat with
        | None => inl IndexError
        | Some part0 =>
            let key := Py.strip part0 in
            match get_filtMap !! coll_id with
            | None => inl KeyError
            | Some coll_filts =>
                match coll_filts !! key with
                | None =>
                    inr (say (Warning ("Filter '" +:+ key +:+
                                       "' is not available for Collection '"
                                       +:+ coll_id +:+ "'.")) st)
                | Some field =>
                    match filt_split !! 1%nat with
                    | None => inl IndexError
                    | Some part1 =>
                        let val := Py.strip part1 in
                        let val := Py.replace squote ""
                                     (Py.replace dquote "" val) in
                        if String.eqb val "" then
                          inr (say (Warning ("No value specified for Filter ID '"
                                             +:+ key +:+ "'.")) st)
                        else
                          inr {| st_coll_id := st_coll_id st;
                                 out_filters :=
                                   <[field := (op, Py.split "|" val)]>
                                     (out_filters st);
                                 messages := messages st |}
                    end
                end
            end
        end
    end.

Fixpoint filters_loop (self_coll_id : string) (filters : list string)
  (st : filt_state) : exn + filt_state :=
  match filters with
  | [] => inr st
  | filt :: rest =>
      match filter_step self_coll_id st filt with
      | inl e => inl e
      | inr st' => filters_loop self_coll_id rest st'
      end
  end.

(** [_parse_filters(filters, coll_id)]; [self_coll_id] is [self.coll_id].
    The dictionary returned comes with the messages of the run. *)
Definition _parse_filters (self_coll_id : string) (filters : list string)
  (coll_id : option string)
  : exn + (gmap string (string * list string) * list message) :=
  match filters_loop self_coll_id filters
          {| st_coll_id := coll_id; out_filters := ∅; messages := [] |} with
  | inl e => inl e
  | inr st => inr (out_filters st, messages st)
  end.


(** ** Numbers and slices *)

Module PyNum.

Definition is_digit (c : ascii) : bool :=
  let n := nat_of_ascii c in (48 <=? n)%nat && (n <=? 57)%nat.

(** The decimal digits of [int(text)]: single underscores may stand
    between two digits. *)
Fixpoint digits_value (acc : Z) (after_digit : bool) (s : string) : option Z :=
  match s with
  | EmptyString => if after_digit then Some acc else None
  | String c s' =>
      if is_digit c then
        digits_value (10 * acc + Z.of_nat (nat_of_ascii c - 48)) true s'
      else if Ascii.eqb c "_" then
        if after_digit then digits_value acc false s' else None
      else None
  end.

(** [int(text)]: [None] stands for [ValueError]. *)
Definition int (text : string) : option Z :=
  match Py.strip text with
  | String "+" r => digits_value 0 false r
  | String "-" r => Z.opp <$> digits_value 0 false r
  | r => digits_value 0 false r
  end.

(** [str(n)] *)
Definition str (n : Z) : string := NilZero.string_of_int (Z.to_int n).

(** [range(start, stop, step)], as CPython computes it: the length first,
    then the items [start + i * step]. A step of zero raises. *)
Definition range_len (start stop step : Z) : Z :=
  if (0 <? step)%Z then
    if (start <? stop)%Z then (stop - start - 1) / step + 1 else 0
  else
    if (stop <? start)%Z then (start - stop - 1) / (- step) + 1 else 0.

Definition range (start stop step : Z) : exn + list Z :=
  if (step =? 0)%Z then inl ValueError
  else inr ((fun i : nat => (start + Z.of_nat i * step)%Z)
              <$> seq 0 (Z.to_nat (range_len start stop step))).

(** [l[a:]] and [l[a:b]] for bounds that are not negative. *)
Definition slice_from {A : Type} (l : list A) (a : Z) : list A :=
  drop (Z.to_nat a) l.

Definition slice {A : Type} (l : list A) (a b : Z) : list A :=
  drop (Z.to_nat a) (take (Z.to_nat b) l).

End PyNum.

(** ** Records and the collaborators of the flows *)

(** Modelled from the spec: the [image] module ([Image], [ImageList],
    [OrderList]) is not among the sources. A record has an identifier, a
    collection and metadata; a record set is an ordered sequence of records. *)
Record Image := {
  recordId : string;
  collectionId : string;
  metadata : gmap string string
}.

(** The projection the RAPI client needs: identifier and collection. *)
Definition raw_record : Type := string * string.

Module Images.

(** Modelled from the spec: [ImageList.count()] of the absent [image]
    module, the number of records. *)
Definition count (imgs : list Image) : nat := length imgs.

(** Modelled from the spec: [ImageList.get_raw()] of the absent [image]
    module, the minimal projection (identifier and collection) of every
    record, in order. *)
Definition get_raw (imgs : list Image) : list raw_record :=
  (fun r => (recordId r, collectionId r)) <$> imgs.

(** Modelled from the spec: the scan behind the trim by collection of the
    absent [image] module; [seen] counts the records already kept for each
    collection. *)
Fixpoint trim_scan (maxCount : nat) (colls : list string)
  (seen : gmap string nat) (imgs : list Image) : list Image :=
  match imgs with
  | [] => []
  | r :: rest =>
      let c := collectionId r in
      let k := default 0%nat (seen !! c) in
      if bool_decide (c ∈ colls) && (k <? maxCount)%nat
      then r :: trim_scan maxCount colls (<[c := S k]> seen) rest
      else trim_scan maxCount colls seen rest
  end.

(** Modelled from the spec: [ImageList.trim(maxCount)] and
    [ImageList.trim(maxCount, collections)] of the absent [image] module,
    which keep only the first [maxCount] records overall, or the first
    [maxCount] of each named collection, in the original relative order.
    The spec gives no meaning to a count below zero; no record is kept
    then. *)
Definition trim (maxCount : Z) (collections : option (list string))
  (imgs : list Image) : list Image :=
  match collections with
  | None => take (Z.to_nat maxCount) imgs
  | Some colls => trim_scan (Z.to_nat maxCount) colls ∅ imgs
  end.

End Images.

(** What [parse_max] binds to [max_images] and to [max_items]: [None], the
    empty text, or an integer. *)
Inductive max_value :=
| MaxNone
| MaxEmpty
| MaxInt (n : Z).

(** The value of [params['collections']]: one name or a list of names. *)
Inductive coll_param :=
| CollOne (c : string)
| CollList (l : list string).

(** The value of [params['dates']]: a list already parsed, or a text. *)
Inductive dates_param :=
| DatesParsed (l : list DateRange)
| DatesText (t : option string).

Record params := {
  p_collections : coll_param;
  p_dates : dates_param;
  p_input : string;
  p_filters : option (gmap string (list string));
  p_maximum : option string;
  p_output : option string;
  p_priority : option string
}.

(** The collaborators of the orchestration layer: clock, file system, user,
    [dateparser], the RAPI client, and the [OrderList] of the absent [image]
    module. A call is a function of its arguments. *)
Class Collaborators := {
  (* datetime.datetime.now().strftime("%Y%m%d_%H%M%S"), os.path *)
  now : string;
  path_exists : string -> bool;
  abspath : string -> string;
  path_join : string -> string -> string;
  (* input(prompt) *)
  input : string -> string;
  (* dateparser.parse(text).strftime("%Y%m%d_%H%M%S") *)
  dateparser_parse : string -> option string;
  (* query_entries, lines 964-1026: the records the client finds for the
     collections, filters, AOI, dates and cap, ingested by the absent
     image module *)
  query_entries :
    list string -> option (gmap string (list string)) -> string ->
    dates_value -> max_value -> list Image;
  (* _get_prevRes, lines 368-386: the rows of a previous results file *)
  _get_prevRes : string -> list Image;
  (* eodms_rapi.order, get_ordersByRecords, download *)
  order_res : Type;
  order_items : Type;
  download_items : Type;
  rapi_order : list raw_record -> option string -> order_res;
  rapi_get_ordersByRecords : list raw_record -> order_res;
  rapi_download : order_items -> string -> download_items;
  (* image.OrderList and ImageList.update_downloads *)
  OrderList : Type;
  new_OrderList : list Image -> OrderList;
  ingest_results : OrderList -> order_res -> OrderList;
  count_items : OrderList -> nat;
  orders_get_raw : OrderList -> order_items;
  update_downloads : list Image -> download_items -> list Image
}.

(** The fields of [Eodms_OrderDownload] the flows read and write. A record
    set is an object on the heap: [cur_res] holds a reference to it. *)
Record Eodms := {
  silent : bool;
  download_path : string;
  results_path : string;
  cur_res : option nat;
  output : option string;
  fn_str : option string
}.

(** [__init__], lines 65-128, with the defaults of its keyword arguments. *)
Definition init_eod : Eodms :=
  {| silent := false;
     download_path := "downloads";
     results_path := "results";
     cur_res := None;
     output := None;
     fn_str := None |}.

Definition set_silent (b : bool) (e : Eodms) : Eodms :=
  {| silent := b; download_path := download_path e;
     results_path := results_path e; cur_res := cur_res e;
     output := output e; fn_str := fn_str e |}.

Definition set_cur_res (r : option nat) (e : Eodms) : Eodms :=
  {| silent := silent e; download_path := download_path e;
     results_path := results_path e; cur_res := r;
     output := output e; fn_str := fn_str e |}.

Definition set_output (o : option string) (e : Eodms) : Eodms :=
  {| silent := silent e; download_path := download_path e;
     results_path := results_path e; cur_res := cur_res e;
     output := o; fn_str := fn_str e |}.

Definition set_fn_str (s : string) (e : Eodms) : Eodms :=
  {| silent := silent e; download_path := download_path e;
     results_path := results_path e; cur_res := cur_res e;
     output := output e; fn_str := Some s |}.

(** How a run ends: it returns, it leaves through [sys.exit], or it raises. *)
Inductive outcome (A : Type) :=
| Done (a : A)
| Exited (code : Z)
| Raised (e : exn).

Arguments Done {A} a.
Arguments Exited {A} code.
Arguments Raised {A} e.

(** ** The flows *)

Section Flows.

Context `{Collaborators}.

(** What a run does to the outside, in order. The console presentation
    ([print], [print_footer], [_print_results], [log_parameters], the time
    stamps sent to the logger and the line breaks that open a prompt) is
    left out. *)
Inductive event :=
| EvSupport (err_str : option string)
| EvMsg (text : string)
| EvLog (level text : string)
| EvInput (prompt : string)
| EvOrder (recs : list raw_record) (priority : option string)
| EvGetOrders (recs : list raw_record)
| EvDownload (items : order_items) (dest : string)
| EvMkdir (path : string)
| EvGeoExport (imgs : list Image) (out : option string)
| EvCsvExport (res_fn : string) (imgs : list Image).

Record state := {
  self : Eodms;
  heap : list (list Image);
  trace : list event
}.

Definition M (A : Type) : Type := state -> outcome A * state.

#[export] Instance M_ret : MRet M := λ A a s, (Done a, s).

#[export] Instance M_bind : MBind M := λ A B f m s,
  match m s with
  | (Done a, s') => f a s'
  | (Exited c, s') => (Exited c, s')
  | (Raised e, s') => (Raised e, s')
  end.

Definition emit (e : event) : M unit := λ s,
  (Done tt, {| self := self s; heap := heap s; trace := trace s ++ [e] |}).

Definition get_self : M Eodms := λ s, (Done (self s), s).

Definition modify_self (f : Eodms -> Eodms) : M unit := λ s,
  (Done tt, {| self := f (self s); heap := heap s; trace := trace s |}).

Definition sys_exit {A : Type} (code : Z) : M A := λ s, (Exited code, s).

Definition raise {A : Type} (e : exn) : M A := λ s, (Raised e, s).

Definition lift {A : Type} (r : exn + A) : M A :=
  match r with inl e => raise e | inr a => mret a end.

(** A new record set on the heap, its content, and its update in place. *)
Definition alloc (imgs : list Image) : M nat := λ s,
  (Done (length (heap s)),
   {| self := self s; heap := heap s ++ [imgs]; trace := trace s |}).

Definition deref (loc : nat) : M (list Image) := λ s,
  (Done (default [] (heap s !! loc)), s).

Definition update (loc : nat) (f : list Image -> list Image) : M unit := λ s,
  (Done tt,
   {| self := self s;
      heap := <[loc := f (default [] (heap s !! loc))]> (heap s);
      trace := trace s |}).

(** [print_support], lines 741-759. *)
Definition print_support (err_str : option string) : M unit :=
  emit (EvSupport err_str).

(** [export_results], lines 485-500. *)
Definition export_results : M unit :=
  e ← get_self;
  match cur_res e with
  | None => mret tt
  | Some loc =>
      stamp ← lift (match fn_str e with
                    | None => inl AttributeError
                    | Some s => inr s
                    end);
      let res_fn := path_join (results_path e) (stamp +:+ "_Results.csv") in
      imgs ← deref loc;
      emit (EvCsvExport res_fn imgs);;
      emit (EvMsg ("Results exported to '" +:+ res_fn +:+ "'."))
  end.

(** [geo.Geo().export_results(query_imgs, self.output)] *)
Definition geo_export (loc : nat) : M unit :=
  e ← get_self;
  imgs ← deref loc;
  emit (EvGeoExport imgs (output e)).

Definition aoi_extensions : list string :=
  [".gml"; ".kml"; ".json"; ".geojson"; ".shp"].

(** [validate_file], lines 1157-1190: [None] stands for [False]. *)
Definition validate_file (in_fn : string) (aoi : bool) : M (option string) :=
  let abs_path := abspath in_fn in
  let missing := negb (path_exists abs_path) in
  if aoi && negb (existsb (fun s => Py.contains s in_fn) aoi_extensions) then
    let err_msg := "The AOI file is not a valid file. Please make sure the file is either a GML, KML, GeoJSON or Shapefile." in
    print_support (Some err_msg);;
    emit (EvLog "error" err_msg);;
    mret None
  else if aoi && missing then
    let err_msg := "The AOI file does not exist." in
    print_support (Some err_msg);;
    emit (EvLog "error" err_msg);;
    mret None
  else if missing then mret None
  else mret (Some abs_path).

(** One side of [parse_max]: [if m: m = int(m)]. *)
Definition to_max (m : option string) : exn + max_value :=
  match m with
  | None => inr MaxNone
  | Some text =>
      if String.eqb text "" then inr MaxEmpty
      else match PyNum.int text with
           | None => inl ValueError
           | Some n => inr (MaxInt n)
           end
  end.

(** [parse_max], lines 661-688. *)
Definition parse_max (maximum : option string) : exn + (max_value * max_value) :=
  match
    match maximum with
    | None => inr (None, None)
    | Some text =>
        if Py.contains ":" text then
          match Py.split ":" text with
          | [a; b] => inr (Some a, Some b)
          | _ => inl ValueError
          end
        else inr (Some text, None)
    end
  with
  | inl e => inl e
  | inr (max_images, max_items) =>
      match to_max max_images with
      | inl e => inl e
      | inr mi =>
          match to_max max_items with
          | inl e => inl e
          | inr mt => inr (mi, mt)
          end
      end
  end.

Definition call_order (recs : list raw_record) (priority : option string)
  : M order_res :=
  emit (EvOrder recs priority);;
  mret (rapi_order recs priority).

(** The body of the loop of line 1343, lines 1345-1348. *)
Definition sub_recs (json_res : list raw_record) (max_items idx : Z)
  : list raw_record :=
  if (Z.of_nat (length json_res) <? idx + max_items)%Z
  then PyNum.slice_from json_res idx
  else PyNum.slice json_res idx (max_items + idx).

(** The loop of lines 1343-1351 over the indices of the range. *)
Fixpoint order_loop (json_res : list raw_record) (priority : option string)
  (max_items : Z) (idxs : list Z) (orders : OrderList) : M OrderList :=
  match idxs with
  | [] => mret orders
  | idx :: rest =>
      res ← call_order (sub_recs json_res max_items idx) priority;
      order_loop json_res priority max_items rest (ingest_results orders res)
  end.

(** Lines 1337-1351: one order for everything, or one per chunk. *)
Definition send_orders (json_res : list raw_record) (priority : option string)
  (max_items : max_value) (orders : OrderList) : M OrderList :=
  match max_items with
  | MaxNone | MaxInt 0 =>
      res ← call_order json_res priority;
      mret (ingest_results orders res)
  | MaxEmpty => raise TypeError
  | MaxInt k =>
      idxs ← lift (PyNum.range 0 (Z.of_nat (length json_res)) k);
      order_loop json_res priority k idxs orders
  end.

(** Lines 1301-1324: the question to the user, or the trim. *)
Definition confirm_or_trim (collections : list string) (max_images : max_value)
  (query_imgs : nat) : M unit :=
  match max_images with
  | MaxNone | MaxEmpty =>
      e ← get_self;
      if negb (silent e) then
        imgs ← deref query_imgs;
        let prompt := PyNum.str (Z.of_nat (Images.count imgs)) +:+
            " images found intersecting your AOI. Proceed with ordering? (y/n): " in
        emit (EvInput prompt);;
        if Py.contains "n" (Py.lower (input prompt)) then
          export_results;;
          print_support None;;
          emit (EvLog "info" "Process stopped by user.");;
          sys_exit 0
        else mret tt
      else mret tt
  | MaxInt n =>
      if (length collections =? 1)%nat then
        emit (EvMsg ("Proceeding to order and download the first " +:+
                     PyNum.str n +:+ " images."));;
        update query_imgs (Images.trim n None)
      else
        emit (EvMsg ("Proceeding to order and download the first " +:+
                     PyNum.str n +:+ " images from each collection."));;
        update query_imgs (Images.trim n (Some collections))
  end.

(** Lines 1371-1373: the download folder. *)
Definition make_download_folder : M unit :=
  e ← get_self;
  if negb (path_exists (download_path e))
  then emit (EvMkdir (download_path e))
  else mret tt.

(** The download stage all flows end with (lines 1368-1389, 1578-1599,
    1651-1670); [record_cur_res] tells whether the flow rebinds
    [self.cur_res] before the export. *)
Definition download_stage (query_imgs : nat) (orders : OrderList)
  (record_cur_res : bool) : M unit :=
  let items := orders_get_raw orders in
  make_download_folder;;
  e ← get_self;
  emit (EvDownload items (download_path e));;
  update query_imgs
    (fun imgs => update_downloads imgs (rapi_download items (download_path e)));;
  geo_export query_imgs;;
  (if record_cur_res then modify_self (set_cur_res (Some query_imgs))
   else mret tt);;
  export_results.

(** Lines 1353-1362: the check of the orders that were placed. *)
Definition check_orders (query_imgs : nat) (orders : OrderList) : M unit :=
  modify_self (set_cur_res (Some query_imgs));;
  if (count_items orders =? 0)%nat then
    export_results;;
    let err_msg := "No orders were submitted successfully." in
    print_support (Some err_msg);;
    emit (EvLog "error" err_msg);;
    sys_exit 1
  else mret tt.

Definition list_of_coll (c : coll_param) : list string :=
  match c with CollOne c => [c] | CollList l => l end.

Definition parse_dates_param (d : dates_param) : exn + dates_value :=
  match d with
  | DatesParsed l => inr (DatesList l)
  | DatesText t => _parse_dates dateparser_parse now t
  end.

(** The search stage of [search_orderDownload], lines 1237-1324: the
    record set found, trimmed or confirmed, and the cap on the order size. *)
Definition search_images (p : params) : M (nat * max_value) :=
  modify_self (set_output (p_output p));;
  aoi_check ← validate_file (p_input p) true;
  (match aoi_check with
   | Some (String _ _) => mret tt
   | _ =>
       print_support None;;
       emit (EvLog "error" "The provided input file is not a valid AOI file. Exiting process.");;
       sys_exit 1
   end);;
  modify_self (set_fn_str now);;
  '(max_images, max_items) ← lift (parse_max (p_maximum p));
  let collections := list_of_coll (p_collections p) in
  dates ← lift (parse_dates_param (p_dates p));
  query_imgs ← alloc (query_entries collections (p_filters p) (p_input p)
                        dates max_images);
  found ← deref query_imgs;
  (if (Images.count found =? 0)%nat then
     emit (EvMsg "Sorry, no results found for given AOI.");;
     emit (EvMsg "Exiting process.");;
     print_support None;;
     emit (EvLog "warning" "Sorry, no results found for given AOI.");;
     sys_exit 1
   else mret tt);;
  modify_self (set_cur_res (Some query_imgs));;
  confirm_or_trim collections max_images query_imgs;;
  mret (query_imgs, max_items).

(** The order stage of [search_orderDownload], lines 1330-1351. *)
Definition order_images (priority : option string) (max_items : max_value)
  (query_imgs : nat) : M OrderList :=
  imgs ← deref query_imgs;
  let json_res := Images.get_raw imgs in
  send_orders json_res priority max_items (new_OrderList imgs).

(** [search_orderDownload], lines 1229-1394. *)
Definition search_orderDownload (p : params) : M unit :=
  '(query_imgs, max_items) ← search_images p;
  orders ← order_images (p_priority p) max_items query_imgs;
  check_orders query_imgs orders;;
  download_stage query_imgs orders true.

(** [retrieve_orders], lines 566-619. *)
Definition retrieve_orders (query_imgs : nat) : M OrderList :=
  imgs ← deref query_imgs;
  let json_res := Images.get_raw imgs in
  emit (EvGetOrders json_res);;
  let orders := ingest_results (new_OrderList imgs)
                  (rapi_get_ordersByRecords json_res) in
  e ← get_self;
  orders ←
    (if (count_items orders =? 0)%nat then
       if silent e then
         geo_export query_imgs;;
         export_results;;
         print_support None;;
         emit (EvLog "info" "No previous orders could be found.");;
         sys_exit 0
       else
         let msg := "No existing orders could be found for the given AOI. Would you like to order the images? (y/n): " in
         emit (EvInput msg);;
         if Py.contains "y" (Py.lower (input msg)) then
           res ← call_order json_res None;
           mret (ingest_results orders res)
         else
           geo_export query_imgs;;
           export_results;;
           print_support None;;
           emit (EvLog "info" "Process ended by user.");;
           sys_exit 0
     else mret orders);
  modify_self (set_cur_res (Some query_imgs));;
  mret orders.

(** [download_only], lines 1606-1675. *)
Definition download_only (p : params) : M unit :=
  let csv_fn := p_input p in
  modify_self (set_output (p_output p));;
  (if negb (Py.contains ".csv" csv_fn) then
     let msg := "The provided input file is not a CSV file. Exiting process." in
     print_support (Some msg);;
     emit (EvLog "error" msg);;
     sys_exit 1
   else mret tt);;
  modify_self (set_fn_str now);;
  query_imgs ← alloc (_get_prevRes csv_fn);
  orders ← retrieve_orders query_imgs;
  download_stage query_imgs orders false.

(** [download_aoi], lines 1496-1604. *)
Definition download_aoi (p : params) : M unit :=
  modify_self (set_output (p_output p));;
  aoi_check ← validate_file (p_input p) true;
  (match aoi_check with
   | Some (String _ _) => mret tt
   | _ =>
       print_support None;;
       emit (EvLog "error" "The provided input file is not a valid AOI file. Exiting process.");;
       sys_exit 1
   end);;
  modify_self (set_fn_str now);;
  _ ← lift (parse_max (p_maximum p));
  let collections := list_of_coll (p_collections p) in
  dates ← lift (parse_dates_param (p_dates p));
  query_imgs ← alloc (query_entries collections (p_filters p) (p_input p)
                        dates MaxNone);
  found ← deref query_imgs;
  (if (Images.count found =? 0)%nat then
     emit (EvMsg "Sorry, no results found for given AOI.");;
     emit (EvMsg "Exiting process.");;
     print_support None;;
     emit (EvLog "warning" "Sorry, no results found for given AOI.");;
     sys_exit 1
   else mret tt);;
  modify_self (set_cur_res (Some query_imgs));;
  orders ← retrieve_orders query_imgs;
  download_stage query_imgs orders true.

(** The handlers of [main], lines 2749-2766, for an object [eod] that
    exists: what runs when the flow is interrupted or raises. *)
Definition on_KeyboardInterrupt : M unit :=
  print_support None;;
  export_results;;
  emit (EvLog "info" "Process ended by user.");;
  sys_exit 1.

Definition on_Exception (trc_back : string) : M unit :=
  print_support (Some trc_back);;
  export_results;;
  emit (EvLog "error" trc_back).

(** The state [main] starts a flow from: a fresh object, nothing on the
    heap, nothing done. *)
Definition init_state (is_silent : bool) : state :=
  {| self := set_silent is_silent init_eod; heap := []; trace := [] |}.

(** A property of the object that a run keeps, when it returns. *)
Definition keeps (P : Eodms -> Prop) {A : Type} (m : M A) : Prop :=
  ∀ s a s', P (self s) -> m s = (Done a, s') -> P (self s').

Definition is_csv_export (e : event) : bool :=
  match e with EvCsvExport _ _ => true | _ => false end.

Definition is_order (e : event) : bool :=
  match e with EvOrder _ _ => true | _ => false end.

End Flows.

(** ** Notions the statements use *)

(** The binding an entry adds to [out_filters] when the loop of
    [_parse_filters] does not skip it: lines 195-232 read as a function of
    the entry and of the collection. *)
Definition entry_binding (coll_id : string) (filt : string)
  : option (string * (string * list string)) :=
  let filt := Py.upper filt in
  '(op, filt_split) ← detect_operator filt;
  part0 ← filt_split !! 0%nat;
  coll_filts ← get_filtMap !! coll_id;
  field ← coll_filts !! Py.strip part0;
  part1 ← filt_split !! 1%nat;
  let val := Py.replace squote "" (Py.replace dquote "" (Py.strip part1)) in
  if String.eqb val "" then None else Some (field, (op, Py.split "|" val)).

(** The spec's words for the detection of the operator, "longest-match
    scan over the fixed operator vocabulary": at the first position of the
    text where an operator starts, the longest operator that starts there. *)
Definition longer (a b : string) : string :=
  if (String.length a <? String.length b)%nat then b else a.

Definition longest_operator_at (s : string) : option string :=
  match List.filter (fun o => String.prefix o s) operators with
  | [] => None
  | o :: os => Some (fold_left longer os o)
  end.

Fixpoint spec_longest_match_scan (s : string) : option string :=
  match longest_operator_at s with
  | Some o => Some o
  | None =>
      match s with
      | EmptyString => None
      | String _ s' => spec_longest_match_scan s'
      end
  end.




(** Scripted collaborators for the end-to-end scenarios: the search finds
    [found], the previous results file holds [previous], the lookup of
    existing orders finds none, the client places every order it is sent
    when [accept] holds and none otherwise, and the user types [answer]. *)
Definition scripted (found previous : list Image) (accept : bool)
  (answer : string) : Collaborators :=
  {| now := "20210105_054540";
     path_exists := fun _ => true;
     abspath := fun p => p;
     path_join := fun a b => a +:+ "/" +:+ b;
     input := fun _ => answer;
     dateparser_parse := fun _ => None;
     query_entries := fun _ _ _ _ _ => found;
     _get_prevRes := fun _ => previous;
     order_res := list raw_record;
     order_items := list raw_record;
     download_items := list raw_record;
     rapi_order := fun recs _ => if accept then recs else [];
     rapi_get_ordersByRecords := fun _ => [];
     rapi_download := fun items _ => items;
     OrderList := list raw_record;
     new_OrderList := fun _ => [];
     ingest_results := fun o r => o ++ r;
     count_items := fun o => length o;
     orders_get_raw := fun o => o;
     update_downloads := fun imgs _ => imgs |}.

Definition img (rid coll : string) : Image :=
  {| recordId := rid; collectionId := coll; metadata := ∅ |}.

Definition scenario_params (input_fn : string) (colls : list string)
  (maximum : option string) : params :=
  {| p_collections := CollList colls;
     p_dates := DatesText (Some "20200501-20210105T054540");
     p_input := input_fn;
     p_filters := None;
     p_maximum := maximum;
     p_output := None;
     p_priority := Some "Medium" |}.

(** The operators of one character and the others, in the order of
    [operators]. *)
Definition single_ops : list string := ["="; "<"; ">"].

Definition multi_ops : list string :=
  ["<>"; "<="; ">="; " LIKE "; " STARTS WITH "; " ENDS WITH ";
   " CONTAINS "; " CONTAINED BY "; " CROSSES "; " DISJOINT WITH ";
   " INTERSECTS "; " OVERLAPS "; " TOUCHES "; " WITHIN "].

(** [out_filters[field] = binding], one binding after the other. *)
Definition store_all (out : gmap string (string * list string))
  (bindings : list (string * (string * list string)))
  : gmap string (string * list string) :=
  foldl (fun m b => <[b.1 := b.2]> m) out bindings.

(** The end-to-end scenarios: the full flow and the download-only flow,
    run by [main] on a fresh object in silent mode. *)
Definition three_records : list Image :=
  [img "1" "A"; img "2" "A"; img "3" "B"].

Definition five_records : list Image :=
  [img "1" "A"; img "2" "A"; img "3" "A"; img "4" "A"; img "5" "A"].

Definition full_flow (found : list Image) (accept : bool)
  (colls : list string) (maximum : option string) :=
  @search_orderDownload (scripted found [] accept "")
    (scenario_params "aoi.geojson" colls maximum)
    (@init_state (scripted found [] accept "") true).

Definition download_only_flow (previous : list Image) :=
  @download_only (scripted [] previous false "")
    (scenario_params "20210101_120000_Results.csv" [] None)
    (@init_state (scripted [] previous false "") true).

(** * More of the program *)

(** ** [sort_fields] *)

(** One turn of the loop of line 655. *)
Definition add_field (out_fields : list string) (f : string) : list string :=
  if bool_decide (f ∈ out_fields) then out_fields else out_fields ++ [f].

(** [sort_fields], lines 637-659. [out_fields] and [field_order] are one
    list (line 653 binds a second name, it makes no copy), so the test of
    line 656 sees the fields that the loop has appended. *)
Definition sort_fields (fields : list string) : list string :=
  let field_order := ["recordId"; "collectionId"] in
  let field_order :=
    if bool_decide ("orderId" ∈ fields) then field_order ++ ["orderId"]
    else field_order in
  let field_order :=
    if bool_decide ("itemId" ∈ fields) then field_order ++ ["itemId"]
    else field_order in
  fold_left add_field fields field_order.

(** ** [convert_date] *)

Module PyStr.

(** [s[:n]] and [s[n:]] for [n] that is not negative. *)
Fixpoint take (n : nat) (s : string) : string :=
  match n, s with
  | S k, String c s' => String c (take k s')
  | _, _ => EmptyString
  end.

Fixpoint drop (n : nat) (s : string) : string :=
  match n, s with
  | S k, String _ s' => drop k s'
  | _, _ => s
  end.

(** The number of times a character occurs. *)
Fixpoint count (c : ascii) (s : string) : nat :=
  match s with
  | EmptyString => 0
  | String d s' => (if Ascii.eqb d c then 1 else 0) + count c s'
  end.

(** [sep.join(l)] *)
Fixpoint join (sep : string) (l : list string) : string :=
  match l with
  | [] => EmptyString
  | [x] => x
  | x :: rest => x +:+ sep +:+ join sep rest
  end.

End PyStr.

(** [convert_date], lines 443-469. *)
Definition convert_date (in_date : string) : exn + string :=
  if Py.contains "t" (Py.lower in_date) then
    match Py.split "t" (Py.lower in_date) with
    | [date; tme] =>
        let year := PyStr.take 4 date in
        let mth := PyStr.take 2 (PyStr.drop 4 date) in
        let day := PyStr.drop 6 date in
        let hour := PyStr.take 2 tme in
        let minute := PyStr.take 2 (PyStr.drop 2 tme) in
        let sec := PyStr.drop 4 tme in
        inr (year +:+ "-" +:+ mth +:+ "-" +:+ day +:+ "T" +:+
             hour +:+ ":" +:+ minute +:+ ":" +:+ sec +:+ "Z")
    | _ => inl ValueError
    end
  else
    let year := PyStr.take 4 in_date in
    let mth := PyStr.take 2 (PyStr.drop 4 in_date) in
    let day := PyStr.drop 6 in_date in
    inr (year +:+ "-" +:+ mth +:+ "-" +:+ day +:+ "T00:00:00Z").

(** ** [validate_int] *)

(** What [int()] is applied to: a text or an integer. *)
Inductive int_src :=
| SrcStr (s : string)
| SrcInt (n : Z).

Definition int_of (v : int_src) : option Z :=
  match v with
  | SrcStr s => PyNum.int s
  | SrcInt n => Some n
  end.

(** The argument of [validate_int]: a text, an integer or a list. *)
Inductive int_arg :=
| ArgStr (s : string)
| ArgInt (n : Z)
| ArgList (l : list int_src).

(** What [validate_int] returns: [None], [False], an integer or a list. *)
Inductive int_result :=
| IntNone
| IntFalse
| IntVal (n : Z)
| IntList (l : list Z).

(** [any(int(v) > limit for v in val)], line 1130: the generator stops at
    the first value above the limit; [None] stands for the [ValueError] of
    an [int(v)] reached before. *)
Fixpoint any_above (limit : Z) (val : list int_src) : option bool :=
  match val with
  | [] => Some false
  | v :: rest =>
      match int_of v with
      | None => None
      | Some n => if (limit <? n)%Z then Some true else any_above limit rest
      end
  end.

(** [[int(v) for v in val]], line 1136. *)
Fixpoint ints_of (val : list int_src) : option (list Z) :=
  match val with
  | [] => Some []
  | v :: rest =>
      match int_of v, ints_of rest with
      | Some n, Some ns => Some (n :: ns)
      | _, _ => None
      end
  end.

Section MoreFlows.

Context `{Collaborators}.

Definition warn_false (err_msg : string) : M int_result :=
  emit (EvMsg err_msg);;
  emit (EvLog "warning" err_msg);;
  mret IntFalse.

(** Lines 1140-1147: an integer against the limit. *)
Definition check_limit (n : Z) (limit : option Z) : M int_result :=
  match limit with
  | Some l =>
      if (l <? n)%Z then warn_false "WARNING: The values entered are invalid."
      else mret (IntVal n)
  | None => mret (IntVal n)
  end.

(** [validate_int], lines 1109-1155. A [ValueError] is caught at line 1151;
    the [TypeError] of [int(val)] on a list (line 1138) is not. *)
Definition validate_int (val : int_arg) (limit : option Z) : M int_result :=
  match val with
  | ArgStr s =>
      if String.eqb s "" then mret IntNone
      else match PyNum.int s with
           | None => warn_false "WARNING: Not a valid entry."
           | Some n => check_limit n limit
           end
  | ArgInt n => check_limit n limit
  | ArgList l =>
      match limit with
      | Some lim =>
          match any_above lim l with
          | None => warn_false "WARNING: Not a valid entry."
          | Some true =>
              warn_false "WARNING: One of the values entered is invalid."
          | Some false =>
              match ints_of l with
              | None => warn_false "WARNING: Not a valid entry."
              | Some ns => mret (IntList ns)
              end
          end
      | None => raise TypeError
      end
  end.

(** [search_only], lines 1677-1762. *)
Definition search_only (p : params) : M unit :=
  modify_self (set_output (p_output p));;
  aoi_check ← validate_file (p_input p) true;
  (match aoi_check with
   | Some (String _ _) => mret tt
   | _ =>
       print_support None;;
       emit (EvLog "error" "The provided input file is not a valid AOI file. Exiting process.");;
       sys_exit 1
   end);;
  modify_self (set_fn_str now);;
  '(max_images, max_items) ← lift (parse_max (p_maximum p));
  let collections := list_of_coll (p_collections p) in
  dates ← lift (parse_dates_param (p_dates p));
  query_imgs ← alloc (query_entries collections (p_filters p) (p_input p)
                        dates max_images);
  found ← deref query_imgs;
  (if (Images.count found =? 0)%nat then
     emit (EvMsg "Sorry, no results found for given AOI.");;
     emit (EvMsg "Exiting process.");;
     print_support None;;
     emit (EvLog "warning" "Sorry, no results found for given AOI.");;
     sys_exit 1
   else mret tt);;
  modify_self (set_cur_res (Some query_imgs));;
  geo_export query_imgs;;
  export_results;;
  print_support None;;
  sys_exit 0.

(** [order_csv], lines 1396-1494; [get_eodmsRes] stands for
    [_get_eodmsRes], lines 236-366, whose records come from the client. *)
Definition order_csv (get_eodmsRes : string -> list Image) (p : params)
  : M unit :=
  let csv_fn := p_input p in
  modify_self (set_output (p_output p));;
  (if negb (Py.contains ".csv" csv_fn) then
     let err_msg := "The provided input file is not a CSV file. Exiting process." in
     print_support (Some err_msg);;
     emit (EvLog "error" err_msg);;
     sys_exit 1
   else mret tt);;
  modify_self (set_fn_str now);;
  _ ← lift (parse_max (p_maximum p));
  query_imgs ← alloc (get_eodmsRes csv_fn);
  modify_self (set_cur_res (Some query_imgs));;
  imgs ← deref query_imgs;
  let json_res := Images.get_raw imgs in
  order_res ← call_order json_res (p_priority p);
  let orders := ingest_results (new_OrderList imgs) order_res in
  check_orders query_imgs orders;;
  download_stage query_imgs orders true.

(** A property of the state that a run keeps, however it ends. *)
Definition preserves (I : state -> Prop) {A : Type} (m : M A) : Prop :=
  ∀ s o s', I s -> m s = (o, s') -> I s'.

(** A run that does not return: it leaves through [sys.exit] or it raises. *)
Definition never_returns {A : Type} (m : M A) : Prop :=
  ∀ s a s', m s ≠ (Done a, s').

Definition is_input (e : event) : bool :=
  match e with EvInput _ => true | _ => false end.

Definition is_download (e : event) : bool :=
  match e with EvDownload _ _ => true | _ => false end.

Definition is_lookup (e : event) : bool :=
  match e with EvGetOrders _ => true | _ => false end.

End MoreFlows.

Section Invariants.

Context `{Collaborators}.

(** The state of a run that started with the trace [base]: the object
    satisfies [PS], and every event added since satisfies [PE]. *)
Definition since (base : list event) (PS : Eodms -> Prop)
  (PE : event -> Prop) (s : state) : Prop :=
  PS (self s) ∧ ∃ added, trace s = base ++ added ∧ Forall PE added.

End Invariants.

(** [params] with another value of ['maximum']. *)
Definition with_maximum (maximum : option string) (p : params) : params :=
  {| p_collections := p_collections p;
     p_dates := p_dates p;
     p_input := p_input p;
     p_filters := p_filters p;
     p_maximum := maximum;
     p_output := p_output p;
     p_priority := p_priority p |}.

(** The state of an object that is not silent after a search that found
    [found]: the record set is the first of the heap, and [cur_res] and
    [fn_str] are bound. *)
Definition searched_state `{Collaborators} (found : list Image) : state :=
  {| self := set_cur_res (Some 0%nat)
               (set_fn_str "20210105_054540" init_eod);
     heap := [found];
     trace := [] |}.

(** ** [query_entries] and the lookups of a collection *)

(** What the name [filters] of [query_entries] is bound to in the course
    of its loop: the dictionary of the caller (the entries of each
    collection), [None], a dictionary [_parse_filters] returned, or the
    dictionary [{'Price': ('=', True)}] of lines 1009-1011. *)
Inductive filters_var :=
| FromCaller (f : gmap string (list string))
| NoFilters
| FromParser (f : gmap string (string * list string))
| PriceOnly.

(** What a session finds around it: the collections of the account as
    [eodms_rapi.get_collections()] gives them (identifier, title and
    aliases, in the order of the dictionary), the records a search of the
    client finds, and whether the GDAL package can be imported. *)
Class Session := {
  get_collections : list (string * (string * list string));
  rapi_record : Type;
  rapi_search :
    option string -> filters_var -> string -> dates_value -> max_value ->
    list rapi_record;
  GDAL_INCLUDED : bool
}.

(** A call of [eodms_rapi.search]: the collection, the filters, the AOI of
    [feats], the dates and [maxResults]. *)
Record search_call := {
  sc_coll_id : option string;
  sc_filters : filters_var;
  sc_aoi : string;
  sc_dates : dates_value;
  sc_max : max_value
}.

Module Rapi.

(** [if filters:] *)
Definition truthy (filters : filters_var) : bool :=
  match filters with
  | FromCaller f => negb (bool_decide (f = ∅))
  | FromParser f => negb (bool_decide (f = ∅))
  | PriceOnly => true
  | NoFilters => false
  end.

(** [_parse_filters] on a pair [(op, values)], the value a dictionary of
    the parser holds: the loop of line 193 reads [op] as an entry; the
    second item is no text, and its [filt.upper()] raises. *)
Definition parse_pair (self_coll_id op : string) : exn :=
  match filter_step self_coll_id
          {| st_coll_id := None; out_filters := ∅; messages := [] |} op with
  | inl e => e
  | inr _ => AttributeError
  end.

(** Lines 998-1007: what [filters] is rebound to for the collection. *)
Definition coll_filters (coll_id : option string) (filters : filters_var)
  : exn + filters_var :=
  if truthy filters then
    match coll_id with
    | None => inr NoFilters
    | Some c =>
        match filters with
        | FromCaller f =>
            match f !! c with
            | Some coll_filts =>
                match _parse_filters c coll_filts None with
                | inl e => inl e
                | inr (out, _) => inr (FromParser out)
                end
            | None => inr NoFilters
            end
        | FromParser f =>
            match f !! c with
            | Some (op, _) => inl (parse_pair c op)
            | None => inr NoFilters
            end
        | PriceOnly =>
            if String.eqb c "Price" then inl (parse_pair c "=")
            else inr NoFilters
        | NoFilters => inr NoFilters
        end
    end
  else inr NoFilters.

Section Lookups.

Context `{Session}.

(** [get_fullCollId], lines 549-564: [None] when the loop ends without a
    [return]. *)
Definition get_fullCollId (coll_id : string) : option string :=
  fst <$> List.find
            (fun kv => Py.contains coll_id kv.1 || Py.contains coll_id kv.2.1)
            get_collections.

(** [get_collIdByName], lines 529-547, for a title that is a text. *)
Definition get_collIdByName (in_title : string) : option string :=
  match List.find (fun kv => Py.contains in_title kv.2.1) get_collections with
  | Some kv => Some kv.1
  | None => get_fullCollId in_title
  end.

(** [validate_collection], lines 1068-1090. *)
Definition validate_collection (coll : string) : bool :=
  let colls := get_collections in
  let aliases := (fun kv => kv.2.2) <$> colls in
  let coll_vals := (fst <$> colls) ++ ((fun kv => kv.2.1) <$> colls) in
  let coll_vals := fold_left (fun acc a => acc ++ a) aliases coll_vals in
  bool_decide (Py.lower coll ∈ Py.lower <$> coll_vals).

(** The names the loop of line 992 carries: [filters], [all_res], and the
    searches sent so far. *)
Record query_state := {
  q_filters : filters_var;
  all_res : list rapi_record;
  calls : list search_call
}.

(** The loop of lines 992-1020. An exception leaves the searches already
    sent. *)
Fixpoint query_loop (aoi : string) (dates : dates_value)
  (max_images : max_value) (collections : list string) (st : query_state)
  : (exn + list rapi_record) * list search_call :=
  match collections with
  | [] => (inr (all_res st), calls st)
  | coll :: rest =>
      let coll_id := get_fullCollId coll in
      match coll_filters coll_id (q_filters st) with
      | inl e => (inl e, calls st)
      | inr filters =>
          let filters :=
            if bool_decide (coll_id = Some "NAPL") then PriceOnly
            else filters in
          let call := {| sc_coll_id := coll_id; sc_filters := filters;
                         sc_aoi := aoi; sc_dates := dates;
                         sc_max := max_images |} in
          query_loop aoi dates max_images rest
            {| q_filters := filters;
               all_res := all_res st ++
                          rapi_search coll_id filters aoi dates max_images;
               calls := calls st ++ [call] |}
      end
  end.

(** [query_entries], lines 964-1026: the records of all the searches, which
    the absent [image] module ingests, and the searches sent. The messages
    of [_parse_filters] are left out. *)
Definition query_entries (collections : list string)
  (filters : option (gmap string (list string))) (aoi : string)
  (dates : dates_value) (max_images : max_value)
  : (exn + list rapi_record) * list search_call :=
  query_loop aoi dates max_images collections
    {| q_filters := match filters with
                    | Some f => FromCaller f
                    | None => NoFilters
                    end;
       all_res := [];
       calls := [] |}.

(** The records the client finds for a call. *)
Definition search_of (c : search_call) : list rapi_record :=
  rapi_search (sc_coll_id c) (sc_filters c) (sc_aoi c) (sc_dates c) (sc_max c).

End Lookups.

(** The filters a later search can carry. *)
Definition unfiltered (filters : filters_var) : Prop :=
  filters = NoFilters ∨ filters = PriceOnly.

End Rapi.

(** ** The prompter *)

Module PyList.

(** [l[i]] for an integer [i]: a negative index counts from the end. *)
Definition index {A : Type} (l : list A) (i : Z) : exn + A :=
  let n := Z.of_nat (length l) in
  let j := if (i <? 0)%Z then (i + n)%Z else i in
  if (j <? 0)%Z then inl IndexError
  else match l !! Z.to_nat j with
       | Some x => inr x
       | None => inl IndexError
       end.

(** [filter(None, l)] for a list of texts and [None]: the texts that are
    not empty. *)
Definition filter_none (l : list (option string)) : list string :=
  omap (fun x => match x with
                 | Some (String _ _ as s) => Some s
                 | _ => None
                 end) l.

(** [mapM] for functions that can raise: the first exception wins. *)
Fixpoint map_exn {A B : Type} (f : A -> exn + B) (l : list A)
  : exn + list B :=
  match l with
  | [] => inr []
  | x :: rest =>
      match f x with
      | inl e => inl e
      | inr y =>
          match map_exn f rest with
          | inl e => inl e
          | inr ys => inr (y :: ys)
          end
      end
  end.

End PyList.

Module PyText.

Definition newline : string := String "010"%char EmptyString.

(** [s.isdigit()], on ASCII. *)
Definition isdigit (s : string) : bool :=
  negb (String.eqb s "") && Py.all_chars PyNum.is_digit s.

(** [s.strip(c)] for one character [c]. *)
Fixpoint lstrip_char (c : ascii) (s : string) : string :=
  match s with
  | EmptyString => EmptyString
  | String d s' => if Ascii.eqb d c then lstrip_char c s' else s
  end.

Fixpoint rstrip_char (c : ascii) (s : string) : string :=
  match s with
  | EmptyString => EmptyString
  | String d s' =>
      match rstrip_char c s' with
      | EmptyString => if Ascii.eqb d c then EmptyString else String d EmptyString
      | r => String d r
      end
  end.

Definition strip_char (c : ascii) (s : string) : string :=
  rstrip_char c (lstrip_char c s).

End PyText.

(** [not r] for a value [validate_int] returned. *)
Definition falsy (r : int_result) : bool :=
  match r with
  | IntNone | IntFalse | IntVal 0 | IntList [] => true
  | _ => false
  end.

(** [str(r)] for a value [validate_int] returned. *)
Definition str_of (r : int_result) : string :=
  match r with
  | IntNone => "None"
  | IntFalse => "False"
  | IntVal n => PyNum.str n
  | IntList l => "[" +:+ PyStr.join ", " (PyNum.str <$> l) +:+ "]"
  end.

(** The keys of [self.choices], lines 1788-1796, in the order of the
    dictionary. *)
Definition choices : list string :=
  ["full"; "order_csv"; "download_only"; "search_only"].

(** The question of [ask_process], lines 2214-2218. *)
Definition process_prompt : string :=
  "What would you like to do?" +:+ PyText.newline +:+
  PyStr.join PyText.newline
    ["1: (full) Search, order & download images using an AOI";
     "2: (order_csv) Order & download images using EODMS UI search results (CSV file)";
     "3: (download_only) Download existing orders using a CSV file from a previous order/download process (files found under "
       +:+ String dquote "results" +:+ String dquote " folder)";
     "4: (search_only) Run only a search based on an AOI and input parameters"]
  +:+ PyText.newline +:+ "Please choose the type of process [1]: ".

(** The values of the command line, [None] for an option that was not
    given. *)
Record cli_args := {
  a_collections : option string;
  a_dates : option string;
  a_input : option string;
  a_filters : option string;
  a_priority : option string;
  a_maximum : option string;
  a_process : option string;
  a_output : option string
}.

(** [self.params] when [prompt] calls the flow: a key that was not set
    reads as [None]. The collections are the text of the command line or
    the list [ask_collection] returned; a key of the dictionary of filters
    can be [None]. *)
Record asked_params := {
  k_process : string;
  k_input : option string;
  k_collections : option coll_param;
  k_filters : option (gmap (option string) (list string));
  k_dates : option string;
  k_output : option string;
  k_maximum : option string;
  k_priority : option string
}.

(** One turn of the comprehension of lines 2002-2004. *)
Definition strip_collection (f : string) : exn + string :=
  if Py.contains "." f then
    match Py.split "." f !! 1%nat with
    | Some x => inr x
    | None => inl IndexError
    end
  else inr f.

(** One turn of the comprehension of line 1908: [None] for an entry the
    condition [i.isdigit()] leaves out. *)
Definition pick_collection (coll_lst : list string) (i : string)
  : exn + option string :=
  if PyText.isdigit i then
    match PyNum.int i with
    | None => inl ValueError
    | Some n =>
        match PyList.index coll_lst (n - 1) with
        | inl e => inl e
        | inr c => inr (Some c)
        end
    end
  else inr None.

Definition priorities : list string := ["low"; "medium"; "high"; "urgent"].

Section Prompter.

Context `{Collaborators} `{Session}.

(** [input(prompt)]: the user's answer to the question, by the number of
    questions asked before it. *)
Definition ask (answer : nat -> string -> string) (prompt : string)
  : M string := λ s,
  (Done (answer (length (List.filter is_input (trace s))) prompt),
   {| self := self s; heap := heap s; trace := trace s ++ [EvInput prompt] |}).

Variable answer : nat -> string -> string.

(** [print_support(err_msg)], [logger.error(err_msg)], [sys.exit(1)]. *)
Definition fail_with {A : Type} (err_msg : string) : M A :=
  print_support (Some err_msg);;
  emit (EvLog "error" err_msg);;
  sys_exit 1.

(** [get_input], lines 2292-2320, for an entry that is no password. *)
Definition get_input (msg : string) (err_msg : option string)
  (required : bool) : M string :=
  in_val ← ask answer (msg +:+ ": ");
  if required && String.eqb in_val "" then
    print_support err_msg;;
    emit (EvLog "error" (default "None" err_msg));;
    sys_exit 1
  else mret in_val.

(** [validate_filters], lines 1192-1227: [None] stands for [False]. *)
Definition validate_filters (filt_items coll_id : string)
  : M (option string) :=
  if negb (existsb (fun x => Py.contains x (Py.upper filt_items)) operators)
  then
    let err_msg := "Filter(s) entered incorrectly. Make sure each filter is in the format of <filter_id><operator><value>[|<value>] and each filter is separated by a comma." in
    print_support (Some err_msg);;
    emit (EvLog "error" err_msg);;
    mret None
  else
    coll_filts ← lift (match get_filtMap !! coll_id with
                       | Some m => inr m
                       | None => inl KeyError
                       end);
    match List.find
            (fun f => negb (existsb (fun x => Py.contains x (Py.upper f))
                              (map_to_list coll_filts).*1))
            (Py.split "," filt_items) with
    | Some f =>
        let err_msg := "Filter '" +:+ f +:+
                       "' is not available for collection '" +:+ coll_id +:+
                       "'." in
        print_support (Some err_msg);;
        emit (EvLog "error" err_msg);;
        mret None
    | None => mret (Some filt_items)
    end.

(** [ask_aoi], lines 1798-1855. *)
Definition ask_aoi (input_fn : option string) : M string :=
  input_fn ← match input_fn with
             | Some (String _ _ as fn) => mret fn
             | _ =>
                 e ← get_self;
                 (if silent e
                  then fail_with "No AOI file specified. Exiting process."
                  else mret tt);;
                 get_input
                   "Enter the full path name of a GML, KML, Shapefile or GeoJSON containing an AOI to restrict the search to a specific location"
                   (Some "No AOI specified. Please enter a valid GML, KML, Shapefile or GeoJSON file")
                   true
             end;
  (if Py.contains ".shp" input_fn && negb GDAL_INCLUDED
   then fail_with "Cannot open a Shapefile without GDAL. Please install the GDAL Python package if you'd like to use a Shapefile for your AOI."
   else mret tt);;
  let input_fn := Py.strip input_fn in
  let input_fn := PyText.strip_char squote input_fn in
  let input_fn := PyText.strip_char dquote input_fn in
  checked ← validate_file input_fn true;
  match checked with
  | Some (String _ _ as fn) => mret fn
  | _ => sys_exit 1
  end.

(** The loop of lines 1914-1920. *)
Fixpoint check_collections (coll : list string) : M unit :=
  match coll with
  | [] => mret tt
  | c :: rest =>
      if Rapi.validate_collection c then check_collections rest
      else fail_with ("Collection '" +:+ c +:+ "' is not valid.")
  end.

(** Lines 1871-1908 of [ask_collection]: the collections picked by
    number. *)
Definition pick_collections (coll_lst : list string) : M (list string) :=
  e ← get_self;
  (if silent e
   then fail_with "No collection specified. Exiting process."
   else mret tt);;
  in_coll ← get_input
    "Enter the number of a collection from the list above (for multiple collections, enter each number separated with a comma)"
    (Some "At least one collection must be specified.") true;
  let coll_vals := Py.split "," in_coll in
  check ← validate_int (ArgList (SrcStr <$> coll_vals))
            (Some (Z.of_nat (length coll_lst)));
  (if falsy check
   then fail_with "A valid Collection must be specified. Exiting process."
   else mret tt);;
  picked ← lift (PyList.map_exn (pick_collection coll_lst) coll_vals);
  mret (omap id picked).

(** [ask_collection], lines 1857-1922. *)
Definition ask_collection (coll : option string) (coll_lst : list string)
  : M (list string) :=
  coll ← match coll with
         | None => pick_collections coll_lst
         | Some coll => mret (Py.split "," coll)
         end;
  check_collections coll;;
  mret coll.

(** [ask_dates], lines 1924-1956. *)
Definition ask_dates (dates : option string) : M (option string) :=
  dates ← match dates with
          | None =>
              e ← get_self;
              if negb (silent e) then
                text ← get_input
                  "Enter a date range (ex: 20200525-20200630) or a previous time-frame (24 hours) (leave blank to search all years)"
                  None false;
                mret (Some text)
              else mret None
          | Some _ => mret dates
          end;
  match dates with
  | Some (String _ _) =>
      match validate_dates dateparser_parse now dates with
      | Valid (Some (String _ _)) => mret dates
      | _ => fail_with "The dates entered are invalid. "
      end
  | _ => mret dates
  end.

(** The loop of lines 1973-2005: the questions, one for each collection
    that has filters. *)
Fixpoint ask_filter_loop (collections : list string)
  (filt_dict : gmap (option string) (list string))
  : M (gmap (option string) (list string)) :=
  match collections with
  | [] => mret filt_dict
  | coll :: rest =>
      match Rapi.get_collIdByName coll with
      | Some coll_id =>
          if bool_decide (is_Some (get_filtMap !! coll_id)) then
            filt_items ← ask answer
              ("Enter the filters you would like to apply to the query (in the format of <filter_id>=<value>|<value>|...; separate each filter property with a comma):"
               +:+ PyText.newline);
            if String.eqb filt_items "" then
              ask_filter_loop rest (<[Some coll_id := []]> filt_dict)
            else
              checked ← validate_filters filt_items coll_id;
              match checked with
              | Some (String _ _ as filt_items) =>
                  filt_items ← lift (PyList.map_exn strip_collection
                                       (Py.split "," filt_items));
                  ask_filter_loop rest (<[Some coll_id := filt_items]> filt_dict)
              | _ => sys_exit 1
              end
          else ask_filter_loop rest filt_dict
      | None => ask_filter_loop rest filt_dict
      end
  end.

(** The body of the loop of line 2021, lines 2022-2044. *)
Definition given_filter (coll f : string)
  (filt_dict : gmap (option string) (list string))
  : M (gmap (option string) (list string)) :=
  if String.eqb f "" then mret filt_dict
  else if Py.contains "." f then
    '(coll_id, filt_items) ← lift (match Py.split "." f with
                                   | [a; b] => inr (a, b)
                                   | _ => inl ValueError
                                   end);
    checked ← validate_filters filt_items coll_id;
    match checked with
    | Some (String _ _ as filt_items) =>
        let coll_filters := default [] (filt_dict !! Some coll_id) in
        mret (<[Some coll_id :=
                  coll_filters ++
                  [Py.replace squote "" (Py.replace dquote "" filt_items)]]>
                filt_dict)
    | _ => sys_exit 1
    end
  else
    let coll_id := Rapi.get_collIdByName coll in
    let coll_filters := default [] (filt_dict !! coll_id) in
    mret (<[coll_id := coll_filters ++ [f]]> filt_dict).

Fixpoint given_filters (coll : string) (filt_lst : list string)
  (filt_dict : gmap (option string) (list string))
  : M (gmap (option string) (list string)) :=
  match filt_lst with
  | [] => mret filt_dict
  | f :: rest =>
      filt_dict ← given_filter coll f filt_dict;
      given_filters coll rest filt_dict
  end.

(** The loop of lines 2018-2044. *)
Fixpoint given_filters_loop (filters : string) (collections : list string)
  (filt_dict : gmap (option string) (list string))
  : M (gmap (option string) (list string)) :=
  match collections with
  | [] => mret filt_dict
  | coll :: rest =>
      filt_dict ← given_filters coll (Py.split "," filters) filt_dict;
      given_filters_loop filters rest filt_dict
  end.

(** [ask_filter], lines 1958-2048; [collections] is
    [self.params['collections']]. *)
Definition ask_filter (filters : option string) (collections : list string)
  : M (gmap (option string) (list string)) :=
  match filters with
  | None =>
      e ← get_self;
      if negb (silent e) then ask_filter_loop collections ∅ else mret ∅
  | Some filters => given_filters_loop filters collections ∅
  end.

(** [ask_inputFile], lines 2050-2080. *)
Definition ask_inputFile (input_fn : option string) (msg : string)
  : M string :=
  input_fn ← match input_fn with
             | Some (String _ _ as fn) => mret fn
             | _ =>
                 e ← get_self;
                 (if silent e
                  then fail_with "No CSV file specified. Exiting process."
                  else mret tt);;
                 get_input msg
                   (Some "No CSV specified. Please enter a valid CSV file")
                   true
             end;
  if negb (path_exists input_fn)
  then fail_with "Not a valid CSV file. Please enter a valid CSV file."
  else mret input_fn.

(** Lines 2099-2113 and 2119-2133: one of the two numbers of
    [ask_maximum]. *)
Definition ask_number (msg : string) (limit : option Z) (warning : string)
  : M (option string) :=
  text ← get_input msg None false;
  if String.eqb text "" then mret None
  else
    n ← validate_int (ArgStr text) limit;
    if falsy n then emit (EvMsg warning);; mret None
    else mret (Some (str_of n)).

(** [ask_maximum], lines 2082-2151; [process] is [self.process]. *)
Definition ask_maximum (maximum : option string) (process : string)
  : M (option string) :=
  match maximum with
  | Some (String _ _ as text) =>
      if String.eqb process "order_csv" then
        '(total_records, order_limit) ←
          lift (if Py.contains ":" text then
                  match Py.split ":" text with
                  | [a; b] => inr (Some a, Some b)
                  | _ => inl ValueError
                  end
                else inr (None, Some text));
        mret (Some (PyStr.join ":"
                      (PyList.filter_none [total_records; order_limit])))
      else mret maximum
  | _ =>
      e ← get_self;
      if negb (silent e) then
        total_records ←
          (if negb (String.eqb process "order_csv") then
             ask_number
               "Enter the total number of images you'd like to order (leave blank for no limit)"
               None
               "WARNING: Total number of images value not valid. Excluding it."
           else mret None);
        order_limit ←
          ask_number
            "If you'd like a limit of images per order, enter a value (EODMS sets a maximum limit of 100)"
            (Some 100%Z)
            "WARNING: Order limit value not valid. Excluding it.";
        mret (Some (PyStr.join ":"
                      (PyList.filter_none [total_records; order_limit])))
      else mret maximum
  end.

(** [ask_output], lines 2153-2172. *)
Definition ask_output (output : option string) : M (option string) :=
  match output with
  | None =>
      e ← get_self;
      if negb (silent e) then
        text ← get_input
          "Enter the path of the output geospatial file (can also be GeoJSON, KML, GML or Shapefile) (default is no output file)"
          None false;
        mret (Some text)
      else mret None
  | Some _ => mret output
  end.

(** [ask_priority], lines 2174-2199. The function has no [return]: the
    priority it settles on is dropped, and the caller gets [None]. *)
Definition ask_priority (priority : option string) : M (option string) :=
  priority ← match priority with
             | None =>
                 e ← get_self;
                 if negb (silent e) then
                   text ← get_input
                     "Enter the priority level for the order ('Low', 'Medium', 'High', 'Urgent') [Medium]"
                     None false;
                   mret (Some text)
                 else mret None
             | Some _ => mret priority
             end;
  match priority with
  | Some (String _ _ as p) =>
      if bool_decide (Py.lower p ∈ priorities) then mret None
      else
        emit (EvMsg "WARNING: Not a valid 'priority' entry. Setting priority to 'Medium'.");;
        mret None
  | _ => mret None
  end.

(** [ask_process], lines 2201-2241. *)
Definition ask_process : M string :=
  e ← get_self;
  if silent e then mret "full"
  else
    process ← ask answer process_prompt;
    if String.eqb process "" then mret "full"
    else
      process ← validate_int (ArgStr process) None;
      (if falsy process
       then fail_with "Invalid value entered for the 'process' parameter."
       else mret tt);;
      match process with
      | IntVal n =>
          if (Z.of_nat (length choices) <? n)%Z
          then fail_with "Invalid value entered for the 'process' parameter."
          else lift (PyList.index choices (n - 1))
      | _ => raise TypeError
      end.

(** The questions of [prompt], lines 2474-2609: the process, then the
    questions of its branch, up to the call of the flow, which gets the
    parameters returned. [print_syntax], which prints and logs the command
    line of the run, is left out. *)
Definition ask_params (args : cli_args) (coll_lst : list string)
  : M asked_params :=
  process ← match a_process args with
            | Some (String _ _ as process) => mret process
            | _ => ask_process
            end;
  if String.eqb process "full" then
    emit (EvLog "info" "Searching, ordering and downloading images using an AOI.");;
    input_fn ← ask_aoi (a_input args);
    coll ← ask_collection (a_collections args) coll_lst;
    filt_dict ← ask_filter (a_filters args) coll;
    dates ← ask_dates (a_dates args);
    output ← ask_output (a_output args);
    maximum ← ask_maximum (a_maximum args) process;
    priority ← ask_priority (a_priority args);
    mret {| k_process := process; k_input := Some input_fn;
            k_collections := Some (CollList coll);
            k_filters := Some filt_dict; k_dates := dates;
            k_output := output; k_maximum := maximum;
            k_priority := priority |}
  else if String.eqb process "order_csv" then
    emit (EvLog "info" "Ordering and downloading images using results from a CSV file.");;
    input_fn ← ask_inputFile (a_input args)
                 "Enter the full path of the CSV file exported from the EODMS UI website";
    output ← ask_output (a_output args);
    maximum ← ask_maximum (a_maximum args) process;
    priority ← ask_priority (a_priority args);
    mret {| k_process := process; k_input := Some input_fn;
            k_collections := CollOne <$> a_collections args;
            k_filters := None; k_dates := a_dates args;
            k_output := output; k_maximum := maximum;
            k_priority := priority |}
  else if String.eqb process "download_aoi" || String.eqb process "search_only"
  then
    emit (EvLog "info"
            (if String.eqb process "download_aoi"
             then "Downloading existing orders using an AOI."
             else "Searching for images using an AOI."));;
    input_fn ← ask_aoi (a_input args);
    coll ← ask_collection (a_collections args) coll_lst;
    filt_dict ← ask_filter (a_filters args) coll;
    dates ← ask_dates (a_dates args);
    output ← ask_output (a_output args);
    mret {| k_process := process; k_input := Some input_fn;
            k_collections := Some (CollList coll);
            k_filters := Some filt_dict; k_dates := dates;
            k_output := output; k_maximum := a_maximum args;
            k_priority := None |}
  else if String.eqb process "download_only" then
    emit (EvLog "info" "Downloading images using results from a CSV file from a previous session.");;
    input_fn ← ask_inputFile (a_input args)
                 "Enter the full path of the CSV Results file from a previous session";
    output ← ask_output (a_output args);
    mret {| k_process := process; k_input := Some input_fn;
            k_collections := CollOne <$> a_collections args;
            k_filters := None; k_dates := a_dates args;
            k_output := output; k_maximum := a_maximum args;
            k_priority := None |}
  else
    print_support (Some "That is not a valid process type.");;
    emit (EvLog "error" "An invalid parameter was entered during the prompt.");;
    sys_exit 1.

End Prompter.

Section Results.

Context `{Collaborators}.

(** A property of what a run returns, when it returns. *)
Definition returns {A : Type} (P : A -> Prop) (m : M A) : Prop :=
  ∀ s a s', m s = (Done a, s') -> P a.

End Results.

(** A text that holds no [c]. *)
Definition lacks (c : ascii) (s : string) : bool :=
  Py.all_chars (fun d => negb (Ascii.eqb d c)) s.

(** A dictionary of filters none of whose entries holds a point. *)
Definition lack_point (d : gmap (option string) (list string)) : Prop :=
  map_Forall (fun _ fs => Forall (fun f => lacks "." f = true) fs) d.

(** ** [export_records] *)




(** ** The scenarios of the prompter *)

(** A session with two collections and the GDAL package missing; a search
    finds one record, named after its collection. *)
Definition two_collections : Session :=
  {| get_collections :=
       [("RCMImageProducts", ("RCM Image Products", ["RCM"]));
        ("Radarsat1", ("RADARSAT-1 Open Data Products", ["R1"; "RS1"]))];
     rapi_record := string;
     rapi_search := fun coll_id _ _ _ _ => [default "None" coll_id];
     GDAL_INCLUDED := false |}.

(** A user who types the lines of [script], one for each question. *)
Definition typed (script : list string) : nat -> string -> string :=
  fun n _ => nth n script "".

(** A command line that names the process, the AOI, one collection and a
    priority. *)
Definition full_args (filters : option string) : cli_args :=
  {| a_collections := Some "RCMImageProducts";
     a_dates := None;
     a_input := Some "aoi.geojson";
     a_filters := filters;
     a_priority := Some "High";
     a_maximum := None;
     a_process := Some "full";
     a_output := None |}.

(** The process of a silent run: the one of the command line, or [full]
    (lines 2478-2481 and 2209-2210). *)
Definition silent_process (args : cli_args) : string :=
  match a_process args with
  | Some (String c p) => String c p
  | _ => "full"
  end.

Section Endings.

Context `{Collaborators}.

(** A run that returns or leaves with status 1: it raises nothing. *)
Definition ends_well {A : Type} (m : M A) : Prop :=
  ∀ s o s', m s = (o, s') -> o = Exited 1 ∨ ∃ a, o = Done a.

End Endings.

(** * Properties *)

(** ** Texts *)

Local Arguments String.prefix : simpl never.
#[local] Set Warnings "-clear-no-such-hyp".

Lemma split_aux_absent sep s :
  Py.contains sep s = false -> Py.split_aux sep 0 s = (s, []).
Proof.
  induction s as [|c s IH]; simpl; [done|].
  intros [Hp Hc]%orb_false_iff.
  rewrite Hp, (IH Hc). done.
Qed.

Lemma split_absent sep s :
  Py.contains sep s = false -> Py.split sep s = [s].
Proof. intros Hs. unfold Py.split. by rewrite split_aux_absent. Qed.

Lemma split_aux_present sep s :
  sep ≠ "" -> Py.contains sep s = true ->
  ∃ p q ps, Py.split_aux sep 0 s = (p, q :: ps).
Proof.
  intros Hsep. induction s as [|c s IH]; simpl.
  - destruct sep; [done|discriminate].
  - destruct (String.prefix sep (String c s)) eqn:Hp; simpl.
    + intros _. destruct (Py.split_aux sep (_ - 1) s) as [p ps]. eauto.
    + intros Hc. destruct (IH Hc) as (p & q & ps & ->). eauto.
Qed.

Lemma split_present sep s :
  sep ≠ "" -> Py.contains sep s = true ->
  ∃ p q ps, Py.split sep s = p :: q :: ps.
Proof.
  intros Hsep Hc. destruct (split_aux_present _ _ Hsep Hc) as (p & q & ps & Hs).
  unfold Py.split. rewrite Hs. eauto.
Qed.







Lemma all_chars_replace_keeps P old s :
  Py.all_chars P s = true -> Py.all_chars P (Py.replace old "" s) = true.
Proof.
  induction s as [|c s IH]; simpl; [done|].
  intros [Hc Hs]%andb_true_iff. destruct (Ascii.eqb c old); simpl.
  - by apply IH.
  - by rewrite Hc, IH.
Qed.




(** ** Dates *)

Lemma range_step_error rng e : range_step rng = inl e -> e = ValueError.
Proof.
  unfold range_step.
  destruct (Py.split "-" rng) as [|s [|e' [|x l]]]; congruence.
Qed.

Lemma range_step_no_separator rng :
  Py.contains "-" rng = false -> range_step rng = inl ValueError.
Proof. intros Hs. unfold range_step. by rewrite (split_absent _ _ Hs). Qed.

Lemma ranges_loop_error rng date_ranges cur :
  rng ∈ date_ranges ->
  range_step rng = inl ValueError ->
  ranges_loop date_ranges cur = inl ValueError.
Proof.
  intros Hin Hbad. revert cur.
  induction Hin as [rng l|rng x l Hin IH]; intros cur; simpl.
  - by rewrite Hbad.
  - destruct (range_step x) as [e|se] eqn:Hx; [|apply IH, Hbad].
    by rewrite (range_step_error _ _ Hx).
Qed.

Lemma ranges_loop_last date_ranges cur se :
  ranges_loop date_ranges cur = inr (Some se) ->
  match last date_ranges with
  | Some rng => range_step rng = inr se
  | None => cur = Some se
  end.
Proof.
  revert cur. induction date_ranges as [|x l IH]; intros cur; simpl.
  - congruence.
  - destruct (range_step x) as [e|se'] eqn:Hx; [done|].
    intros Hl. specialize (IH _ Hl). rewrite last_cons.
    destruct (last l); [exact IH|congruence].
Qed.

(** Whatever the text, a list that [_parse_dates] returns holds one range:
    the loop of line 159 rebinds [start] and [end] for every range of the
    text, and line 171 appends once, after the loop. *)
Lemma parse_dates_one_range dp now text l :
  _parse_dates dp now text = inr (DatesList l) -> length l = 1%nat.
Proof.
  unfold _parse_dates. destruct text as [text|]; [|done].
  destruct (String.eqb text ""); [done|].
  destruct (existsb _ time_words).
  - destruct (dp text); [|done]. intros [= <-]. done.
  - destruct (ranges_loop _ _) as [e|[[s e]|]]; try done.
    intros [= <-]. done.
Qed.

(** In the branch of the explicit ranges the one range returned is the last
    range of the text. *)
Lemma parse_dates_last_range dp now text l :
  text ≠ "" ->
  existsb (fun word => Py.contains word text) time_words = false ->
  _parse_dates dp now (Some text) = inr (DatesList l) ->
  ∃ rng s e, last (Py.split "," text) = Some rng ∧
             range_step rng = inr (s, e) ∧
             l = [{| start := s; end_ := e |}].
Proof.
  intros Hne%String.eqb_neq Hw. unfold _parse_dates. rewrite Hne, Hw.
  destruct (ranges_loop _ _) as [e|[[s e]|]] eqn:Hl; try done.
  intros [= <-]. apply ranges_loop_last in Hl.
  destruct (last _) as [rng|]; [|done]. by exists rng, s, e.
Qed.

(** C1 (the code keeps one range where the claim promises one per input
    range). The text of one range of the spec parses as the spec says; a
    text of two well-formed ranges gives a list that holds the second range
    only. *)
Theorem parse_dates_keeps_only_last_range dp now :
  _parse_dates dp now (Some "20200501-20210105T054540")
  = inr (DatesList [{| start := "20200501_000000";
                       end_ := "20210105_054540" |}])
  ∧ _parse_dates dp now (Some "20200101-20200201,20200301-20200401")
    = inr (DatesList [{| start := "20200301_000000";
                         end_ := "20200401_000000" |}]).
Proof. split; reflexivity. Qed.

(** C8, as amended: a text that is not empty and names no relative time,
    one of whose ranges has no [-], is refused: [validate_dates] returns
    [False]. *)
Theorem validate_dates_rejects_missing_separator dp now text rng :
  text ≠ "" ->
  existsb (fun word => Py.contains word text) time_words = false ->
  rng ∈ Py.split "," text ->
  Py.contains "-" rng = false ->
  validate_dates dp now (Some text) = Invalid.
Proof.
  intros Hne%String.eqb_neq Hw Hin Hsep.
  unfold validate_dates, _parse_dates. rewrite Hne, Hw.
  by rewrite (ranges_loop_error rng _ None Hin (range_step_no_separator _ Hsep)).
Qed.

Lemma validate_dates_rejects_missing_separator_witness :
  validate_dates (fun _ => None) "20210105_054540"
    (Some "20200501-20200601,20200701") = Invalid.
Proof.
  apply (validate_dates_rejects_missing_separator _ _ _ "20200701").
  - discriminate.
  - reflexivity.
  - vm_compute. apply list_elem_of_In. simpl. tauto.
  - reflexivity.
Defined.

(** C8, as stated, fails: the range [20200101-] has an empty end, and
    [validate_dates] returns the text, with the end read as ["_000000"]. *)
Lemma validate_dates_accepts_empty_side :
  _parse_dates (fun _ => None) "20210105_054540" (Some "20200101-")
  = inr (DatesList [{| start := "20200101_000000"; end_ := "_000000" |}])
  ∧ validate_dates (fun _ => None) "20210105_054540" (Some "20200101-")
    = Valid (Some "20200101-")
  ∧ validate_dates (fun _ => None) "20210105_054540" (Some "20200101-")
    ≠ Invalid.
Proof. repeat split; try reflexivity. discriminate. Qed.

(** ** Filters *)

Lemma fold_left_last {A B : Type} (g : A -> B) (l : list A) (acc : option B) :
  fold_left (fun _ o => Some (g o)) l acc
  = match last l with Some o => Some (g o) | None => acc end.
Proof.
  revert acc. induction l as [|x l IH]; intros acc; simpl; [done|].
  rewrite IH, last_cons. by destruct (last l).
Qed.

Lemma detect_operator_last filt :
  detect_operator filt
  = (fun o => (o, Py.split o filt))
      <$> last (List.filter (fun x => Py.contains x filt) operators).
Proof.
  unfold detect_operator. rewrite fold_left_last. by destruct (last _).
Qed.

Lemma filter_nil_Forall {A : Type} (P : A -> bool) (l : list A) :
  List.filter P l = [] -> Forall (fun o => P o = false) l.
Proof.
  induction l as [|a l IH]; simpl; [constructor|].
  destruct (P a) eqn:Ha; [done|]. intros Hl. constructor; auto.
Qed.

Lemma last_filter_split {A : Type} (P : A -> bool) (l : list A) (x : A) :
  last (List.filter P l) = Some x ->
  ∃ before after, l = before ++ x :: after ∧
                  Forall (fun o => P o = false) after.
Proof.
  induction l as [|a l IH]; simpl; [done|].
  destruct (P a) eqn:Ha.
  - rewrite last_cons. destruct (last (List.filter P l)) as [y|] eqn:Hl.
    + intros [= ->]. destruct (IH eq_refl) as (pre & post & -> & Hpost).
      by exists (a :: pre), post.
    + intros [= ->]. apply last_None, filter_nil_Forall in Hl.
      by exists [], l.
  - intros Hl. destruct (IH Hl) as (pre & post & -> & Hpost).
    by exists (a :: pre), post.
Qed.

Lemma last_filter_elem {A : Type} (P : A -> bool) (l : list A) (x : A) :
  last (List.filter P l) = Some x -> x ∈ l ∧ P x = true.
Proof.
  intros Hl%last_Some_elem_of%list_elem_of_In%List.filter_In.
  by rewrite list_elem_of_In.
Qed.

Lemma existsb_last_filter {A : Type} (P : A -> bool) (l : list A) :
  existsb P l = true -> ∃ x, last (List.filter P l) = Some x.
Proof.
  intros (x & Hin & Hx)%existsb_exists.
  destruct (last (List.filter P l)) as [y|] eqn:Hl; [eauto|].
  apply last_None in Hl.
  assert (In x (List.filter P l)) as Hf by (by apply List.filter_In).
  rewrite Hl in Hf. destruct Hf.
Qed.

Lemma operators_split : operators = single_ops ++ multi_ops.
Proof. reflexivity. Qed.

Lemma operators_not_empty : Forall (fun o => o ≠ "") operators.
Proof. repeat constructor; discriminate. Qed.

Lemma multi_ops_facts :
  Forall (fun o => o ∈ operators ∧ (2 <= String.length o)%nat ∧ o ∉ single_ops)
    multi_ops.
Proof.
  repeat constructor; try (simpl; lia);
    try (apply list_elem_of_In; simpl; tauto);
    intros Hin%list_elem_of_In; simpl in Hin;
    repeat (destruct Hin as [Hin|Hin]; [discriminate|]); done.
Qed.

Lemma long_operator_is_multi m :
  m ∈ operators -> (2 <= String.length m)%nat -> m ∈ multi_ops.
Proof.
  rewrite operators_split, elem_of_app. intros [Hs|Hm] Hlen; [|done].
  apply list_elem_of_In in Hs. simpl in Hs.
  repeat (destruct Hs as [<-|Hs]; [simpl in Hlen; lia|]). done.
Qed.

(** C7, as amended: the entry is split on the last operator, in the order
    of [self.operators], that occurs in it. Every operator of more than
    one character stands after the three of one character, so an entry in
    which such an operator [m] occurs is split on an operator of more than
    one character, never on ["="], ["<"] or [">"]; and it is split on [m]
    itself when no other operator of more than one character occurs. *)
Theorem detect_operator_prefers_long filt m :
  m ∈ operators ->
  (2 <= String.length m)%nat ->
  Py.contains m filt = true ->
  ∃ op,
    detect_operator filt = Some (op, Py.split op filt) ∧
    op ∈ operators ∧
    (2 <= String.length op)%nat ∧
    (op ∉ single_ops) ∧
    Py.contains op filt = true ∧
    (∃ before after,
        operators = before ++ op :: after ∧
        Forall (fun o => Py.contains o filt = false) after) ∧
    ((∀ o, o ∈ operators -> (2 <= String.length o)%nat ->
           Py.contains o filt = true -> o = m) ->
     op = m).
Proof.
  intros Hm Hlen Hc.
  pose proof (long_operator_is_multi _ Hm Hlen) as Hmm.
  set (P := fun x => Py.contains x filt).
  assert (∃ op, (last (List.filter P operators) = Some op) ∧ op ∈ multi_ops)
    as (op & Hlast & Hop).
  { rewrite operators_split, List.filter_app.
    assert (In m (List.filter P multi_ops)) as Hin
      by (apply List.filter_In; split; [by apply list_elem_of_In|done]).
    destruct (last (List.filter P multi_ops)) as [op|] eqn:Hl.
    - exists op. split; [by apply last_app_Some; left|].
      by apply last_filter_elem in Hl as [? _].
    - apply last_None in Hl. rewrite Hl in Hin. destruct Hin. }
  pose proof (proj1 (Forall_forall _ _) multi_ops_facts op Hop)
    as (Hin & Hlen' & Hns).
  destruct (last_filter_elem _ _ _ Hlast) as [_ HP].
  exists op. rewrite detect_operator_last. fold P. rewrite Hlast.
  repeat split; try done.
  - by apply last_filter_split.
  - intros Honly. by apply Honly.
Qed.

Lemma detect_operator_prefers_long_witness :
  ∃ op,
    detect_operator "INCIDENCE_ANGLE<=45.0"
    = Some (op, Py.split op "INCIDENCE_ANGLE<=45.0") ∧
    op ∈ operators ∧
    (2 <= String.length op)%nat ∧
    (op ∉ single_ops) ∧
    Py.contains op "INCIDENCE_ANGLE<=45.0" = true ∧
    (∃ before after,
        operators = before ++ op :: after ∧
        Forall (fun o => Py.contains o "INCIDENCE_ANGLE<=45.0" = false) after) ∧
    ((∀ o, o ∈ operators -> (2 <= String.length o)%nat ->
           Py.contains o "INCIDENCE_ANGLE<=45.0" = true -> o = "<=") ->
     op = "<=").
Proof.
  apply (detect_operator_prefers_long "INCIDENCE_ANGLE<=45.0" "<=").
  - apply list_elem_of_In. simpl. tauto.
  - simpl. lia.
  - reflexivity.
Defined.

(** C7, as stated, fails: in [ORDER_KEY<>'A<=B'] the operator ["<>"]
    occurs with its first character ["<"], and a longest-match scan of the
    text finds ["<>"]; the entry is split on ["<="], which leaves a key
    that no collection has. *)
Lemma detect_operator_not_longest_match :
  "<>" ∈ operators ∧ "<" ∈ operators ∧
  Py.contains "<>" (Py.upper "ORDER_KEY<>'A<=B'") = true ∧
  Py.contains "<" (Py.upper "ORDER_KEY<>'A<=B'") = true ∧
  spec_longest_match_scan (Py.upper "ORDER_KEY<>'A<=B'") = Some "<>" ∧
  detect_operator (Py.upper "ORDER_KEY<>'A<=B'")
  = Some ("<=", ["ORDER_KEY<>'A"; "B'"]) ∧
  fst <$> detect_operator (Py.upper "ORDER_KEY<>'A<=B'") ≠ Some "<>" ∧
  entry_binding "Radarsat2" "ORDER_KEY<>'A<=B'" = None ∧
  entry_binding "Radarsat2" "ORDER_KEY<>'AB'"
  = Some ("Order Key", ("<>", ["AB"])).
Proof.
  repeat split; try reflexivity;
    try (apply list_elem_of_In; simpl; tauto).
  vm_compute. discriminate.
Qed.

Local Opaque get_filtMap operators.

Lemma detect_operator_none filt :
  existsb (fun x => Py.contains x filt) operators = false ->
  detect_operator filt = None.
Proof.
  intros He. rewrite detect_operator_last.
  destruct (last _) as [op|] eqn:Hl; [|done].
  apply last_filter_elem in Hl as [Hin HP].
  assert (existsb (fun x => Py.contains x filt) operators = true) as Ht
    by (apply existsb_exists; exists op; by rewrite <- list_elem_of_In).
  congruence.
Qed.

Lemma detect_operator_some filt :
  existsb (fun x => Py.contains x filt) operators = true ->
  ∃ op part0 part1 rest,
    detect_operator filt = Some (op, part0 :: part1 :: rest).
Proof.
  intros [op Hl]%existsb_last_filter.
  rewrite detect_operator_last, Hl. simpl.
  apply last_filter_elem in Hl as [Hin HP].
  pose proof (proj1 (Forall_forall _ _) operators_not_empty op Hin) as Hne.
  destruct (split_present op filt Hne HP) as (p & q & ps & ->). eauto.
Qed.

(** One turn of the loop of [_parse_filters], for a collection that
    [get_filtMap] knows: the turn does not raise; it stores the binding of
    the entry and says nothing, or it leaves [out_filters] as it is and
    says one thing. *)
Lemma filter_step_binding c st filt :
  is_Some (get_filtMap !! default c (st_coll_id st)) ->
  ∃ st',
    filter_step c st filt = inr st' ∧
    default c (st_coll_id st') = default c (st_coll_id st) ∧
    match entry_binding (default c (st_coll_id st)) filt with
    | Some b =>
        out_filters st' = <[b.1 := b.2]> (out_filters st) ∧
        messages st' = messages st
    | None =>
        out_filters st' = out_filters st ∧
        ∃ m, messages st' = messages st ++ [m]
    end.
Proof.
  intros [cf Hcf]. unfold filter_step, entry_binding.
  destruct (existsb _ operators) eqn:He; simpl.
  - destruct (detect_operator_some _ He) as (op & p0 & p1 & rest & ->).
    simpl. rewrite Hcf. simpl.
    destruct (cf !! Py.strip p0) as [field|]; simpl.
    + destruct (String.eqb _ ""); simpl; eexists; (split; [done|]);
        simpl; eauto.
    + eexists; (split; [done|]); simpl; eauto.
  - rewrite (detect_operator_none _ He). simpl.
    eexists; (split; [done|]); simpl; eauto.
Qed.

Lemma omap_cons_eq {A B : Type} (f : A -> option B) (x : A) (l : list A) :
  omap f (x :: l)
  = match f x with Some y => y :: omap f l | None => omap f l end.
Proof. reflexivity. Qed.

Lemma filters_loop_bindings c filters st :
  is_Some (get_filtMap !! default c (st_coll_id st)) ->
  ∃ st',
    filters_loop c filters st = inr st' ∧
    out_filters st'
    = store_all (out_filters st)
        (omap (entry_binding (default c (st_coll_id st))) filters) ∧
    (length (messages st')
     + length (omap (entry_binding (default c (st_coll_id st))) filters)
     = length (messages st) + length filters)%nat.
Proof.
  revert st. induction filters as [|filt filters IH]; intros st Hc.
  - exists st. split; [done|]. split; [done|]. simpl. lia.
  - cbn [filters_loop]. rewrite !omap_cons_eq.
    destruct (filter_step_binding c st filt Hc) as (st1 & -> & Hcc & Hb).
    rewrite <- Hcc in Hc. destruct (IH st1 Hc) as (st' & -> & Hout & Hlen).
    exists st'. split; [done|]. rewrite Hcc in Hout, Hlen.
    destruct (entry_binding _ filt) as [b|].
    + destruct Hb as [Hb1 Hb2]. rewrite Hout, Hb1, <- Hb2.
      split; [done|]. simpl. lia.
    + destruct Hb as [Hb1 [m Hb2]]. rewrite Hout, Hb1.
      split; [done|]. rewrite Hb2, length_app in Hlen. simpl in *. lia.
Qed.

Lemma dom_store_all out bindings :
  dom (store_all out bindings) = list_to_set bindings.*1 ∪ dom out.
Proof.
  revert out. induction bindings as [|b bs IH]; intros out; simpl.
  - set_solver.
  - unfold store_all in *. simpl. rewrite IH, dom_insert_L. set_solver.
Qed.


Lemma size_list_to_set_le (l : list string) :
  size (list_to_set l : gset string) <= length l.
Proof.
  induction l as [|x l IH].
  - rewrite list_to_set_nil, size_empty. simpl. lia.
  - rewrite list_to_set_cons, size_union_alt, size_singleton. simpl.
    assert (size (list_to_set l ∖ {[x]} : gset string)
            <= size (list_to_set l : gset string))
      by (apply subseteq_size, subseteq_difference_l; reflexivity).
    lia.
Qed.

(** C6, as amended: for a collection that [get_filtMap] knows,
    [_parse_filters] returns; the fields of the mapping are the fields of
    the entries that were not skipped, so there are at most as many fields
    as such entries, and exactly as many when no two of them translate to
    the same field; every skipped entry leaves one message, and the entries
    after it are still processed. *)
Theorem parse_filters_field_count self_coll_id filters coll_id :
  is_Some (get_filtMap !! default self_coll_id coll_id) ->
  ∃ out msgs,
    _parse_filters self_coll_id filters coll_id = inr (out, msgs) ∧
    let valid := omap (entry_binding (default self_coll_id coll_id)) filters in
    out = store_all ∅ valid ∧
    dom out = list_to_set valid.*1 ∧
    size out <= length valid ∧
    (NoDup valid.*1 -> size out = length valid) ∧
    (length msgs + length valid = length filters)%nat.
Proof.
  intros Hc. unfold _parse_filters.
  destruct (filters_loop_bindings self_coll_id filters
              {| st_coll_id := coll_id; out_filters := ∅; messages := [] |} Hc)
    as (st' & -> & Hout & Hlen).
  simpl in *. exists (out_filters st'), (messages st').
  split; [done|]. split; [done|].
  assert (dom (out_filters st')
          = list_to_set (omap (entry_binding (default self_coll_id coll_id))
                           filters).*1) as Hdom
    by (rewrite Hout, dom_store_all, dom_empty_L; set_solver).
  split; [done|]. rewrite <- size_dom, Hdom.
  repeat split.
  - etrans; [apply size_list_to_set_le|]. by rewrite length_fmap.
  - intros Hnd. by rewrite size_list_to_set, length_fmap.
  - lia.
Qed.

Lemma parse_filters_field_count_witness :
  ∃ out msgs,
    _parse_filters "Radarsat1"
      ["incidence_angle>=20"; "beam_mnemonic='s1'|'s2'"; "colour=red"] None
    = inr (out, msgs) ∧
    let valid := omap (entry_binding (default "Radarsat1" None))
                   ["incidence_angle>=20"; "beam_mnemonic='s1'|'s2'";
                    "colour=red"] in
    out = store_all ∅ valid ∧
    dom out = list_to_set valid.*1 ∧
    size out <= length valid ∧
    (NoDup valid.*1 -> size out = length valid) ∧
    (length msgs + length valid = 3)%nat.
Proof.
  apply (parse_filters_field_count "Radarsat1"
           ["incidence_angle>=20"; "beam_mnemonic='s1'|'s2'"; "colour=red"]
           None).
  refine (bool_decide_unpack _ _). vm_compute. exact I.
Defined.

(** C6, as stated, fails: both entries have a recognized operator and a
    field that Radarsat1 knows, with a value; neither is skipped, and the
    mapping returned has one field, bound by the second entry. *)
Lemma parse_filters_field_count_below_entries :
  ∃ out,
    _parse_filters "Radarsat1" ["INCIDENCE_ANGLE>20"; "INCIDENCE_ANGLE<40"] None
    = inr (out, []) ∧
    omap (entry_binding "Radarsat1") ["INCIDENCE_ANGLE>20"; "INCIDENCE_ANGLE<40"]
    = [("Incidence Angle", (">", ["20"])); ("Incidence Angle", ("<", ["40"]))] ∧
    map_to_list out = [("Incidence Angle", ("<", ["40"]))] ∧
    size out = 1%nat ∧
    size out ≠ length ["INCIDENCE_ANGLE>20"; "INCIDENCE_ANGLE<40"].
Proof.
  exists {["Incidence Angle" := ("<", ["40"])]}.
  split; [vm_compute; reflexivity|].
  split; [vm_compute; reflexivity|].
  split; [vm_compute; reflexivity|].
  split; [vm_compute; reflexivity|].
  vm_compute. discriminate.
Qed.







Local Transparent get_filtMap operators.

(** ** Runs of the flows *)

Section Runs.

Context `{Collaborators}.

Lemma state_eta s : {| self := self s; heap := heap s; trace := trace s |} = s.
Proof. by destruct s. Qed.

Lemma run_bind {A B : Type} (m : M A) (f : A -> M B) s :
  (m ≫= f) s
  = match m s with
    | (Done a, s') => f a s'
    | (Exited c, s') => (Exited c, s')
    | (Raised e, s') => (Raised e, s')
    end.
Proof. reflexivity. Qed.

(** Symbolic execution of the operations of the monad. *)
Ltac run :=
  cbv [mbind M_bind mret M_ret emit deref lift get_self modify_self raise
       sys_exit update alloc print_support negb];
  cbn [self heap trace].

Lemma export_results_none s :
  cur_res (self s) = None -> export_results s = (Done tt, s).
Proof. intros Hc. unfold export_results. run. by rewrite Hc. Qed.

Lemma export_results_some s loc stamp :
  cur_res (self s) = Some loc ->
  fn_str (self s) = Some stamp ->
  export_results s
  = (Done tt,
     {| self := self s; heap := heap s;
        trace := trace s ++
          [EvCsvExport
             (path_join (results_path (self s)) (stamp +:+ "_Results.csv"))
             (default [] (heap s !! loc));
           EvMsg ("Results exported to '" +:+
                  path_join (results_path (self s)) (stamp +:+ "_Results.csv")
                  +:+ "'.")] |}).
Proof.
  intros Hc Hf. unfold export_results. run. rewrite Hc, Hf.
  by rewrite <- app_assoc.
Qed.

(** C10: while [cur_res] is [None], [export_results] returns at once: no
    file, no message, the object and the record sets as they were. The
    handlers of [main] for an interrupt and for an error then end the run
    with their own messages only: no results CSV is written. *)
Theorem export_results_without_results s trc_back :
  cur_res (self s) = None ->
  export_results s = (Done tt, s) ∧
  on_KeyboardInterrupt s
  = (Exited 1,
     {| self := self s; heap := heap s;
        trace := trace s ++ [EvSupport None;
                             EvLog "info" "Process ended by user."] |}) ∧
  on_Exception trc_back s
  = (Done tt,
     {| self := self s; heap := heap s;
        trace := trace s ++ [EvSupport (Some trc_back);
                             EvLog "error" trc_back] |}).
Proof.
  intros Hc. split; [by apply export_results_none|].
  unfold on_KeyboardInterrupt, on_Exception, export_results.
  split; run; rewrite Hc; run; by rewrite <- app_assoc.
Qed.

(** *** The order stage *)

Lemma order_loop_run json_res priority k idxs orders s :
  order_loop json_res priority k idxs orders s
  = (Done (foldl (fun o c => ingest_results o (rapi_order c priority)) orders
             (sub_recs json_res k <$> idxs)),
     {| self := self s; heap := heap s;
        trace := trace s ++
          ((fun c => EvOrder c priority) <$> (sub_recs json_res k <$> idxs)) |}).
Proof.
  revert orders s. induction idxs as [|idx rest IH]; intros orders s.
  - cbn. run. by rewrite app_nil_r, state_eta.
  - cbn [order_loop]. unfold call_order. run. rewrite IH. cbn.
    by rewrite <- app_assoc.
Qed.

Lemma sub_recs_take_drop (json_res : list raw_record) (k : Z) (i : nat) :
  (0 < k)%Z ->
  sub_recs json_res k (0 + Z.of_nat i * k)
  = take (Z.to_nat k) (drop (i * Z.to_nat k) json_res).
Proof.
  intros Hk. unfold sub_recs, PyNum.slice_from, PyNum.slice.
  replace (Z.to_nat (0 + Z.of_nat i * k)) with (i * Z.to_nat k)%nat by nia.
  destruct (Z.ltb_spec (Z.of_nat (length json_res)) (0 + Z.of_nat i * k + k)).
  - symmetry. apply take_ge. rewrite length_drop. nia.
  - rewrite take_drop_commute. f_equal. f_equal. nia.
Qed.

Lemma concat_chunks {A : Type} (l : list A) (kn n : nat) :
  concat ((fun i => take kn (drop (i * kn) l)) <$> seq 0 n) = take (n * kn) l.
Proof.
  induction n as [|n IH]; [done|].
  rewrite seq_S, fmap_app, concat_app, IH. simpl.
  rewrite app_nil_r, take_take_drop. f_equal. lia.
Qed.

Lemma range_len_bounds (len k : Z) :
  (0 <= len)%Z -> (0 < k)%Z ->
  let n := PyNum.range_len 0 len k in
  (0 <= n)%Z ∧ (len <= n * k)%Z ∧ ((n - 1) * k < len ∨ (n = 0 ∧ len = 0))%Z ∧
  n = ((len + k - 1) / k)%Z.
Proof.
  intros Hlen Hk. unfold PyNum.range_len.
  destruct (Z.ltb_spec 0 k); [|lia].
  destruct (Z.ltb_spec 0 len).
  - pose proof (Z.mul_div_le (len - 0 - 1) k Hk).
    pose proof (Z.mul_succ_div_gt (len - 0 - 1) k Hk).
    pose proof (Z.div_pos (len - 0 - 1) k).
    replace (len + k - 1)%Z with (len - 0 - 1 + 1 * k)%Z by lia.
    rewrite Z.div_add by lia. repeat split; nia.
  - assert (len = 0)%Z as -> by lia.
    rewrite Z.div_small by lia. repeat split; lia.
Qed.

(** C3: with a cap [k >= 1] on the items of an order, the order stage
    sends one order per chunk, in order; the chunks put end to end give the
    records back, every chunk but the last has [k] records, no chunk is
    empty or longer than [k], and there are [ceil (n / k)] of them. Each
    response is ingested in turn. *)
Theorem send_orders_batches json_res priority k orders s :
  (1 <= k)%Z ->
  ∃ chunks,
    send_orders json_res priority (MaxInt k) orders s
    = (Done (foldl (fun o c => ingest_results o (rapi_order c priority))
               orders chunks),
       {| self := self s; heap := heap s;
          trace := trace s ++ ((fun c => EvOrder c priority) <$> chunks) |}) ∧
    concat chunks = json_res ∧
    (∀ i c, chunks !! i = Some c -> S i < length chunks ->
            length c = Z.to_nat k) ∧
    Forall (fun c => 1 <= length c <= Z.to_nat k) chunks ∧
    Z.of_nat (length chunks)
    = ((Z.of_nat (length json_res) + k - 1) / k)%Z.
Proof.
  intros Hk.
  set (len := Z.of_nat (length json_res)).
  set (n := Z.to_nat (PyNum.range_len 0 len k)).
  set (kn := Z.to_nat k).
  destruct (range_len_bounds len k) as (Hn0 & Hup & Hlow & Hceil); [lia..|].
  exists ((fun i => take kn (drop (i * kn) json_res)) <$> seq 0 n).
  assert (sub_recs json_res k
            <$> ((fun i : nat => (0 + Z.of_nat i * k)%Z) <$> seq 0 n)
          = (fun i => take kn (drop (i * kn) json_res)) <$> seq 0 n) as Hchunks.
  { rewrite <- list_fmap_compose. apply list_fmap_ext. intros i x _. simpl.
    apply sub_recs_take_drop. lia. }
  split; [|split; [|split; [|split]]].
  - destruct k as [|p|p]; try lia. unfold send_orders, PyNum.range.
    run. fold len. fold n. change (Z.pos p =? 0)%Z with false. run.
    by rewrite order_loop_run, Hchunks.
  - rewrite concat_chunks. apply take_ge. subst n kn len. nia.
  - intros i c Hi Hlt. rewrite length_fmap, length_seq in Hlt.
    rewrite list_lookup_fmap, lookup_seq_lt in Hi by lia.
    injection Hi as <-. rewrite length_take, length_drop. subst n kn len. nia.
  - apply Forall_forall. intros c (i & -> & Hi)%list_elem_of_fmap.
    apply elem_of_seq in Hi. rewrite length_take, length_drop.
    subst n kn len. nia.
  - rewrite length_fmap, length_seq. subst n. lia.
Qed.

(** *** What a run keeps *)

Lemma bind_Done_inv {A B : Type} (m : M A) (f : A -> M B) s b s' :
  (m ≫= f) s = (Done b, s') ->
  ∃ a s1, m s = (Done a, s1) ∧ f a s1 = (Done b, s').
Proof.
  rewrite run_bind. destruct (m s) as [[a|c|e] s1]; [eauto|done|done].
Qed.

Lemma keeps_run P {A : Type} (m : M A) s a s' :
  keeps P m -> P (self s) -> m s = (Done a, s') -> P (self s').
Proof. intros Hk. apply Hk. Qed.

Lemma keeps_bind P {A B : Type} (m : M A) (f : A -> M B) :
  keeps P m -> (∀ a, keeps P (f a)) -> keeps P (m ≫= f).
Proof.
  intros Hm Hf s b s' HP (a & s1 & H1 & H2)%bind_Done_inv.
  eapply Hf; [|exact H2]. eapply Hm; [exact HP|exact H1].
Qed.

Lemma keeps_mret P {A : Type} (a : A) : keeps P (mret a).
Proof. intros s b s' HP [= _ <-]. done. Qed.

Lemma keeps_emit P e : keeps P (emit e).
Proof. intros s b s' HP [= _ <-]. done. Qed.

Lemma keeps_deref P loc : keeps P (deref loc).
Proof. intros s b s' HP [= _ <-]. done. Qed.

Lemma keeps_alloc P imgs : keeps P (alloc imgs).
Proof. intros s b s' HP [= _ <-]. done. Qed.

Lemma keeps_update P loc f : keeps P (update loc f).
Proof. intros s b s' HP [= _ <-]. done. Qed.

Lemma keeps_get_self P : keeps P get_self.
Proof. intros s b s' HP [= _ <-]. done. Qed.

Lemma keeps_sys_exit P {A : Type} code : keeps P (@sys_exit _ A code).
Proof. intros s b s' HP [=]. Qed.

Lemma keeps_raise P {A : Type} e : keeps P (@raise _ A e).
Proof. intros s b s' HP [=]. Qed.

Lemma keeps_lift P {A : Type} (r : exn + A) : keeps P (lift r).
Proof. destruct r; [apply keeps_raise|apply keeps_mret]. Qed.

Lemma keeps_modify_self (P : Eodms -> Prop) f :
  (∀ e, P e -> P (f e)) -> keeps P (modify_self f).
Proof. intros Hf s b s' HP [= _ <-]. by apply Hf. Qed.

Ltac keeps_step :=
  first
    [ apply keeps_bind; [|intros ?]
    | apply keeps_mret | apply keeps_emit | apply keeps_deref
    | apply keeps_alloc | apply keeps_update | apply keeps_get_self
    | apply keeps_sys_exit | apply keeps_raise | apply keeps_lift
    | apply keeps_modify_self; intros ? ?; assumption
    | match goal with
      | |- keeps _ (match ?x with _ => _ end) => destruct x
      end ].

Lemma keeps_export_results P : keeps P export_results.
Proof. unfold export_results. repeat keeps_step. Qed.

Lemma keeps_order_loop P json_res priority k idxs orders :
  keeps P (order_loop json_res priority k idxs orders).
Proof.
  intros s a s' HP. rewrite order_loop_run. by intros [= _ <-].
Qed.

Lemma keeps_confirm_or_trim stamp collections max_images query_imgs :
  keeps (fun e => fn_str e = Some stamp)
    (confirm_or_trim collections max_images query_imgs).
Proof.
  unfold confirm_or_trim, print_support.
  repeat first [apply keeps_export_results | keeps_step].
Qed.

(** When the search stage returns, the stamp of the results file is set. *)
Lemma search_images_fn_str p s r s0 :
  search_images p s = (Done r, s0) -> fn_str (self s0) = Some now.
Proof.
  unfold search_images.
  intros (? & s1 & _ & Hrun)%bind_Done_inv.
  apply bind_Done_inv in Hrun as (? & s2 & _ & Hrun).
  apply bind_Done_inv in Hrun as (? & s3 & _ & Hrun).
  apply bind_Done_inv in Hrun as (? & s4 & [= _ <-] & Hrun).
  refine (keeps_run (fun e => fn_str e = Some now) _ _ _ _ _ _ Hrun);
    [|done].
  unfold print_support.
  repeat first [apply keeps_confirm_or_trim | keeps_step].
Qed.

(** The order stage only adds to the trace. *)
Lemma order_images_state priority max_items query_imgs s orders s1 :
  order_images priority max_items query_imgs s = (Done orders, s1) ->
  self s1 = self s ∧ heap s1 = heap s.
Proof.
  unfold order_images, send_orders, call_order, PyNum.range.
  destruct max_items as [| |[|k|k]]; run; try by intros [= _ <-].
  - change (Z.pos k =? 0)%Z with false. run. rewrite order_loop_run.
    by intros [= _ <-].
  - change (Z.neg k =? 0)%Z with false. run. rewrite order_loop_run.
    by intros [= _ <-].
Qed.

(** *** The check of the orders *)

(** C4: in the full flow, once the search stage and the order stage have
    returned, an order set without items ends the run: the record set is
    written to the results CSV, then the error is reported, then the
    process leaves with status 1. An order set with items takes the run
    into the download stage, which it completes. *)
Theorem no_orders_is_fatal_after_export p s query_imgs max_items s0 orders s1 :
  search_images p s = (Done (query_imgs, max_items), s0) ->
  order_images (p_priority p) max_items query_imgs s0 = (Done orders, s1) ->
  let res_fn := path_join (results_path (self s1)) (now +:+ "_Results.csv") in
  let dest := download_path (self s1) in
  (count_items orders = 0%nat ->
   search_orderDownload p s
   = (Exited 1,
      {| self := set_cur_res (Some query_imgs) (self s1);
         heap := heap s1;
         trace := trace s1 ++
           [EvCsvExport res_fn (default [] (heap s1 !! query_imgs));
            EvMsg ("Results exported to '" +:+ res_fn +:+ "'.");
            EvSupport (Some "No orders were submitted successfully.");
            EvLog "error" "No orders were submitted successfully."] |})) ∧
  (count_items orders ≠ 0%nat ->
   ∃ heap2 imgs2,
     search_orderDownload p s
     = (Done tt,
        {| self := set_cur_res (Some query_imgs) (self s1);
           heap := heap2;
           trace := trace s1 ++
             (if path_exists dest then [] else [EvMkdir dest]) ++
             [EvDownload (orders_get_raw orders) dest;
              EvGeoExport imgs2 (output (self s1));
              EvCsvExport res_fn imgs2;
              EvMsg ("Results exported to '" +:+ res_fn +:+ "'.")] |})).
Proof.
  intros Hsearch Horder res_fn dest.
  pose proof (search_images_fn_str _ _ _ _ Hsearch) as Hstamp.
  destruct (order_images_state _ _ _ _ _ _ Horder) as [Hself Hheap].
  rewrite <- Hself in Hstamp.
  unfold search_orderDownload. rewrite run_bind, Hsearch. cbn beta iota.
  rewrite run_bind, Horder. cbn beta iota.
  unfold check_orders, download_stage, make_download_folder, geo_export.
  split.
  - intros ->. run. cbn [Nat.eqb].
    rewrite (export_results_some _ query_imgs now) by done.
    run. subst res_fn. by rewrite <- !app_assoc.
  - intros Hn%Nat.eqb_neq. run. rewrite Hn. run.
    change (download_path (set_cur_res (Some query_imgs) (self s1))) with dest.
    destruct (path_exists dest); run;
      (rewrite (export_results_some _ query_imgs now);
         [|reflexivity|exact Hstamp]);
      eexists _, _; run; subst res_fn dest; cbn; by rewrite <- !app_assoc.
Qed.

(** *** The lookup of existing orders *)

(** C5 (the code calls the export, which writes nothing): the download-only
    flow in silent mode, on an object whose [cur_res] is still [None] (as
    on the fresh object of [main]), when the lookup finds no order. The run
    leaves with status 0 and places no order; the polygons are exported,
    but [cur_res] is bound at line 617 only, after the branch, so the call
    of [export_results] returns at once: the results CSV is not written. *)
Theorem download_only_silent_exports_no_csv p s :
  silent (self s) = true ->
  cur_res (self s) = None ->
  Py.contains ".csv" (p_input p) = true ->
  count_items
    (ingest_results (new_OrderList (_get_prevRes (p_input p)))
       (rapi_get_ordersByRecords (Images.get_raw (_get_prevRes (p_input p)))))
  = 0%nat ->
  download_only p s
  = (Exited 0,
     {| self := set_fn_str now (set_output (p_output p) (self s));
        heap := heap s ++ [_get_prevRes (p_input p)];
        trace := trace s ++
          [EvGetOrders (Images.get_raw (_get_prevRes (p_input p)));
           EvGeoExport (_get_prevRes (p_input p)) (p_output p);
           EvSupport None;
           EvLog "info" "No previous orders could be found."] |}).
Proof.
  intros Hsilent Hcur Hcsv Hnone.
  unfold download_only, retrieve_orders, geo_export, export_results.
  run. rewrite Hcsv. run.
  rewrite (list_lookup_middle (heap s) [] _ (length (heap s)) eq_refl).
  cbn -[Images.get_raw]. rewrite Hnone, Hsilent.
  change (0 =? 0)%nat with true. run.
  cbn [set_fn_str set_output cur_res output]. rewrite Hcur. run.
  rewrite (list_lookup_middle (heap s) [] _ (length (heap s)) eq_refl).
  cbn [default from_option id]. by rewrite <- !app_assoc.
Qed.

(** The same branch of [retrieve_orders] once [cur_res] is bound, as in
    [download_aoi] (line 1562): the results CSV is written before the exit. *)
Lemma retrieve_orders_silent_exports_recorded s query_imgs stamp :
  silent (self s) = true ->
  cur_res (self s) = Some query_imgs ->
  fn_str (self s) = Some stamp ->
  count_items
    (ingest_results (new_OrderList (default [] (heap s !! query_imgs)))
       (rapi_get_ordersByRecords
          (Images.get_raw (default [] (heap s !! query_imgs)))))
  = 0%nat ->
  let res_fn := path_join (results_path (self s)) (stamp +:+ "_Results.csv") in
  retrieve_orders query_imgs s
  = (Exited 0,
     {| self := self s; heap := heap s;
        trace := trace s ++
          [EvGetOrders (Images.get_raw (default [] (heap s !! query_imgs)));
           EvGeoExport (default [] (heap s !! query_imgs)) (output (self s));
           EvCsvExport res_fn (default [] (heap s !! query_imgs));
           EvMsg ("Results exported to '" +:+ res_fn +:+ "'.");
           EvSupport None;
           EvLog "info" "No previous orders could be found."] |}).
Proof.
  intros Hsilent Hcur Hstamp Hnone res_fn.
  unfold retrieve_orders, geo_export. run. rewrite Hnone, Hsilent.
  change (0 =? 0)%nat with true. run.
  rewrite (export_results_some _ query_imgs stamp) by done.
  run. subst res_fn. by rewrite <- !app_assoc.
Qed.

End Runs.

(** ** The trim *)

Lemma trim_scan_sublist n colls seen imgs :
  Images.trim_scan n colls seen imgs `sublist_of` imgs.
Proof.
  revert seen. induction imgs as [|r rest IH]; intros seen; simpl.
  - constructor.
  - destruct (_ && _); [apply sublist_skip|apply sublist_cons]; apply IH.
Qed.

Lemma trim_scan_named n colls seen imgs r :
  r ∈ Images.trim_scan n colls seen imgs -> collectionId r ∈ colls.
Proof.
  revert seen. induction imgs as [|x rest IH]; intros seen; simpl.
  - by intros ?%elem_of_nil.
  - destruct (bool_decide (collectionId x ∈ colls)) eqn:Hin; simpl.
    + destruct (_ <? _)%nat; [|by apply IH].
      intros [->|Hr]%elem_of_cons; [|by eapply IH].
      by apply bool_decide_eq_true in Hin.
    + by apply IH.
Qed.

Lemma trim_scan_by_collection n colls seen imgs c :
  c ∈ colls ->
  filter (fun r => collectionId r = c) (Images.trim_scan n colls seen imgs)
  = take (n - default 0%nat (seen !! c))
      (filter (fun r => collectionId r = c) imgs).
Proof.
  intros Hc. revert seen. induction imgs as [|r rest IH]; intros seen; simpl.
  - by rewrite filter_nil, take_nil.
  - destruct (decide (collectionId r = c)) as [Heq|Hne].
    + rewrite (filter_cons_True _ r rest) by done. rewrite Heq.
      rewrite bool_decide_eq_true_2 by done. simpl.
      destruct (Nat.ltb_spec (default 0%nat (seen !! c)) n) as [Hlt|Hge].
      * rewrite filter_cons_True by done. rewrite IH, lookup_insert_eq. simpl.
        replace (n - default 0%nat (seen !! c))%nat
          with (S (n - S (default 0%nat (seen !! c)))) by lia.
        done.
      * rewrite IH. replace (n - default 0%nat (seen !! c))%nat with 0%nat by lia.
        done.
    + rewrite (filter_cons_False _ r rest) by done.
      destruct (_ && _).
      * rewrite filter_cons_False by done.
        by rewrite IH, lookup_insert_ne.
      * by rewrite IH.
Qed.

Section Trim.

Context `{Collaborators}.

(** C2, as amended: with a cap [n], the full flow trims the record set in
    place, in the original order: to its first [n] records when one
    collection was asked for, and otherwise to the first [n] records of
    each collection asked for. *)
Theorem trim_stage_per_collection collections n query_imgs s imgs :
  heap s !! query_imgs = Some imgs ->
  ∃ kept msg,
    confirm_or_trim collections (MaxInt (Z.of_nat n)) query_imgs s
    = (Done tt,
       {| self := self s;
          heap := <[query_imgs := kept]> (heap s);
          trace := trace s ++ [EvMsg msg] |}) ∧
    kept `sublist_of` imgs ∧
    (length collections = 1%nat -> kept = take n imgs) ∧
    (length collections ≠ 1%nat ->
     (∀ c, c ∈ collections ->
           filter (fun r => collectionId r = c) kept
           = take n (filter (fun r => collectionId r = c) imgs)) ∧
     (∀ r, r ∈ kept -> collectionId r ∈ collections)).
Proof.
  intros Himgs. unfold confirm_or_trim.
  destruct (Nat.eqb_spec (length collections) 1) as [Hone|Hmany].
  - exists (take n imgs). eexists. split; [|split; [|split]].
    + cbv [mbind M_bind emit update]. cbn [self heap trace].
      rewrite Himgs. unfold Images.trim. by rewrite Nat2Z.id.
    + apply sublist_take.
    + done.
    + done.
  - exists (Images.trim_scan n collections ∅ imgs). eexists.
    split; [|split; [|split]].
    + cbv [mbind M_bind emit update]. cbn [self heap trace].
      rewrite Himgs. unfold Images.trim. by rewrite Nat2Z.id.
    + apply trim_scan_sublist.
    + done.
    + intros _. split.
      * intros c Hc. rewrite trim_scan_by_collection by done.
        rewrite lookup_empty. simpl. by rewrite Nat.sub_0_r.
      * intros r. apply trim_scan_named.
Qed.

End Trim.

(** ** The scenarios *)

(** C2, as stated, fails: three records over the collections A and B, with
    the cap ["2"]. Both collections were asked for, so the trim keeps two
    records of each: the three records stay, and the order holds all three. *)
Lemma full_flow_trims_each_collection :
  (full_flow three_records true ["A"; "B"] (Some "2")).1 = Done tt ∧
  heap (full_flow three_records true ["A"; "B"] (Some "2")).2
  = [three_records] ∧
  heap (full_flow three_records true ["A"; "B"] (Some "2")).2
  ≠ [take 2 three_records] ∧
  List.filter is_order
    (trace (full_flow three_records true ["A"; "B"] (Some "2")).2)
  = [EvOrder [("1", "A"); ("2", "A"); ("3", "B")] (Some "Medium")].
Proof.
  split; [vm_compute; reflexivity|].
  split; [vm_compute; reflexivity|].
  split; [vm_compute; discriminate|].
  vm_compute; reflexivity.
Qed.

Lemma trim_stage_per_collection_witness :
  ∃ kept msg,
    @confirm_or_trim (scripted three_records [] true "") ["A"; "B"]
      (MaxInt (Z.of_nat 1)) 0%nat
      {| self := init_eod; heap := [three_records]; trace := [] |}
    = (Done tt,
       {| self := init_eod;
          heap := <[0%nat := kept]> [three_records];
          trace := [] ++ [EvMsg msg] |}) ∧
    kept `sublist_of` three_records ∧
    (length ["A"; "B"] = 1%nat -> kept = take 1 three_records) ∧
    (length ["A"; "B"] ≠ 1%nat ->
     (∀ c, c ∈ ["A"; "B"] ->
           filter (fun r => collectionId r = c) kept
           = take 1 (filter (fun r => collectionId r = c) three_records)) ∧
     (∀ r, r ∈ kept -> collectionId r ∈ ["A"; "B"])).
Proof.
  apply (@trim_stage_per_collection (scripted three_records [] true "")
           ["A"; "B"] 1%nat 0%nat
           {| self := init_eod; heap := [three_records]; trace := [] |}
           three_records).
  reflexivity.
Defined.

(** The scenario of five records with two items per order: three orders,
    of two, two and one record. *)
Lemma five_records_three_orders :
  List.filter is_order (trace (full_flow five_records true ["A"] (Some "5:2")).2)
  = [EvOrder [("1", "A"); ("2", "A")] (Some "Medium");
     EvOrder [("3", "A"); ("4", "A")] (Some "Medium");
     EvOrder [("5", "A")] (Some "Medium")].
Proof. vm_compute. reflexivity. Qed.

Lemma send_orders_batches_witness :
  ∃ chunks,
    @send_orders (scripted five_records [] true "")
      (Images.get_raw five_records) (Some "Medium") (MaxInt 2) []
      (@init_state (scripted five_records [] true "") true)
    = (Done (foldl (fun o c => o ++ c) [] chunks),
       {| self := set_silent true init_eod; heap := [];
          trace := [] ++ ((fun c => EvOrder c (Some "Medium")) <$> chunks) |}) ∧
    concat chunks = Images.get_raw five_records ∧
    (∀ i c, chunks !! i = Some c -> S i < length chunks ->
            length c = Z.to_nat 2) ∧
    Forall (fun c => 1 <= length c <= Z.to_nat 2) chunks ∧
    Z.of_nat (length chunks)
    = ((Z.of_nat (length (Images.get_raw five_records)) + 2 - 1) / 2)%Z.
Proof.
  apply (@send_orders_batches (scripted five_records [] true "")
           (Images.get_raw five_records) (Some "Medium") 2 []
           (@init_state (scripted five_records [] true "") true)).
  lia.
Defined.

(** The scenario of a client that accepts no order: the results are
    written, then the run leaves with status 1. *)
Lemma no_orders_is_fatal_after_export_witness :
  full_flow three_records false ["A"] None
  = (Exited 1,
     {| self := set_cur_res (Some 0%nat)
                  (set_fn_str "20210105_054540" (set_silent true init_eod));
        heap := [three_records];
        trace :=
          [EvOrder (Images.get_raw three_records) (Some "Medium");
           EvCsvExport "results/20210105_054540_Results.csv" three_records;
           EvMsg "Results exported to 'results/20210105_054540_Results.csv'.";
           EvSupport (Some "No orders were submitted successfully.");
           EvLog "error" "No orders were submitted successfully."] |}).
Proof.
  pose (e := set_cur_res (Some 0%nat)
               (set_fn_str "20210105_054540" (set_silent true init_eod))).
  refine (proj1 (@no_orders_is_fatal_after_export
                   (scripted three_records [] false "")
                   (scenario_params "aoi.geojson" ["A"] None)
                   (@init_state (scripted three_records [] false "") true)
                   0%nat MaxNone
                   {| self := e; heap := [three_records]; trace := [] |}
                   []
                   {| self := e; heap := [three_records];
                      trace := [EvOrder (Images.get_raw three_records)
                                  (Some "Medium")] |}
                   _ _) _).
  - vm_compute. reflexivity.
  - vm_compute. reflexivity.
  - reflexivity.
Defined.

Lemma download_only_silent_exports_no_csv_witness :
  download_only_flow three_records
  = (Exited 0,
     {| self := set_fn_str "20210105_054540"
                  (set_output None (set_silent true init_eod));
        heap := [] ++ [three_records];
        trace := [] ++
          [EvGetOrders (Images.get_raw three_records);
           EvGeoExport three_records None;
           EvSupport None;
           EvLog "info" "No previous orders could be found."] |}).
Proof.
  apply (@download_only_silent_exports_no_csv
           (scripted [] three_records false "")
           (scenario_params "20210101_120000_Results.csv" [] None)
           (@init_state (scripted [] three_records false "") true)).
  - reflexivity.
  - reflexivity.
  - reflexivity.
  - reflexivity.
Defined.

Lemma export_results_without_results_witness :
  @export_results (scripted [] [] false "") (init_state false)
  = (Done tt, init_state false) ∧
  @on_KeyboardInterrupt (scripted [] [] false "") (init_state false)
  = (Exited 1,
     {| self := init_eod; heap := [];
        trace := [] ++ [EvSupport None;
                        EvLog "info" "Process ended by user."] |}) ∧
  @on_Exception (scripted [] [] false "") "ValueError" (init_state false)
  = (Done tt,
     {| self := init_eod; heap := [];
        trace := [] ++ [EvSupport (Some "ValueError");
                        EvLog "error" "ValueError"] |}).
Proof.
  apply (@export_results_without_results (scripted [] [] false "")
           (init_state false) "ValueError").
  reflexivity.
Defined.

(** An early error of the full flow: the cap ["abc"] makes [parse_max]
    raise before the search; [cur_res] is still [None], and the handler of
    [main] writes no results CSV. *)
Lemma early_error_leaves_no_csv :
  (full_flow three_records true ["A"] (Some "abc")).1 = Raised ValueError ∧
  cur_res (self (full_flow three_records true ["A"] (Some "abc")).2) = None ∧
  List.filter is_csv_export
    (trace (@on_Exception (scripted three_records [] true "") "ValueError"
              (full_flow three_records true ["A"] (Some "abc")).2).2)
  = [].
Proof. repeat split; vm_compute; reflexivity. Qed.

(** * More properties *)

(** ** The order of the columns *)

Lemma add_fields_NoDup fields acc :
  NoDup acc -> NoDup (fold_left add_field fields acc).
Proof.
  revert acc. induction fields as [|f fields IH]; intros acc Hacc; simpl.
  - done.
  - apply IH. unfold add_field. case_bool_decide; [done|].
    apply NoDup_app. split; [done|]. split.
    + intros x Hx ->%list_elem_of_singleton. done.
    + apply NoDup_singleton.
Qed.

Lemma add_fields_elem fields acc x :
  x ∈ fold_left add_field fields acc <-> x ∈ acc ∨ x ∈ fields.
Proof.
  revert acc. induction fields as [|f fields IH]; intros acc; simpl.
  - rewrite elem_of_nil. tauto.
  - rewrite IH, elem_of_cons. unfold add_field. case_bool_decide.
    + split; [tauto|]. intros [?|[->|?]]; tauto.
    + rewrite elem_of_app, list_elem_of_singleton. tauto.
Qed.

Lemma add_fields_prefix fields acc :
  acc `prefix_of` fold_left add_field fields acc.
Proof.
  revert acc. induction fields as [|f fields IH]; intros acc; simpl.
  - done.
  - etrans; [|apply IH]. unfold add_field. case_bool_decide; [done|].
    by apply prefix_app_r.
Qed.

Lemma add_fields_known fields acc :
  (∀ x, x ∈ fields -> x ∈ acc) -> fold_left add_field fields acc = acc.
Proof.
  induction fields as [|f fields IH]; intros Hall; simpl; [done|].
  unfold add_field. rewrite bool_decide_eq_true_2 by (apply Hall; left).
  apply IH. intros x Hx. apply Hall. by right.
Qed.

Lemma add_fields_new fields acc :
  NoDup (acc ++ fields) -> fold_left add_field fields acc = acc ++ fields.
Proof.
  revert acc. induction fields as [|f fields IH]; intros acc Hnd; simpl.
  - by rewrite app_nil_r.
  - unfold add_field. rewrite bool_decide_eq_false_2.
    + rewrite IH; rewrite <- app_assoc; done.
    + apply NoDup_app in Hnd as (_ & Hdisj & _). intros Hin.
      apply (Hdisj f Hin). by left.
Qed.

Lemma sort_fields_NoDup fields : NoDup (sort_fields fields).
Proof.
  unfold sort_fields. apply add_fields_NoDup.
  repeat case_bool_decide; simpl;
    refine (bool_decide_unpack _ _); vm_compute; exact I.
Qed.

Lemma sort_fields_elem fields x :
  x ∈ sort_fields fields <->
  x = "recordId" ∨ x = "collectionId" ∨ x ∈ fields.
Proof.
  unfold sort_fields. rewrite add_fields_elem.
  repeat case_bool_decide; simpl;
    rewrite ?elem_of_cons, ?elem_of_nil; naive_solver.
Qed.

(** The columns [sort_fields] returns: no column twice, whatever the
    input repeats; [recordId] and [collectionId] first, also when the input
    lacks them; and beside these two, exactly the columns of the input. *)
Theorem sort_fields_columns fields :
  NoDup (sort_fields fields) ∧
  ["recordId"; "collectionId"] `prefix_of` sort_fields fields ∧
  (∀ x, x ∈ sort_fields fields <->
        x = "recordId" ∨ x = "collectionId" ∨ x ∈ fields).
Proof.
  split; [apply sort_fields_NoDup|]. split; [|apply sort_fields_elem].
  unfold sort_fields. etrans; [|apply add_fields_prefix].
  repeat case_bool_decide; simpl; by eexists.
Qed.

(** Sorting the columns a second time changes nothing. *)
Theorem sort_fields_idempotent fields :
  sort_fields (sort_fields fields) = sort_fields fields.
Proof.
  pose proof (sort_fields_NoDup fields) as Hnd.
  pose proof (sort_fields_elem fields) as Hin.
  assert (∀ name, name ≠ "recordId" -> name ≠ "collectionId" ->
            bool_decide (name ∈ sort_fields fields)
            = bool_decide (name ∈ fields)) as Hsame.
  { intros name H1 H2. apply bool_decide_ext. rewrite Hin. tauto. }
  unfold sort_fields at 1. rewrite !Hsame by discriminate.
  unfold sort_fields in *.
  set (base := if bool_decide ("itemId" ∈ fields) then _ else _) in *.
  destruct (add_fields_prefix fields base) as [rest Hrest].
  rewrite Hrest at 1. rewrite fold_left_app.
  rewrite (add_fields_known base base) by done.
  rewrite Hrest in Hnd. by rewrite add_fields_new.
Qed.

(** ** Validation of numbers and files *)

Lemma any_above_false limit val :
  any_above limit val = Some false ->
  ∃ ns, ints_of val = Some ns ∧ Forall (fun n => (n <= limit)%Z) ns ∧
        length ns = length val.
Proof.
  induction val as [|v rest IH]; simpl.
  - intros _. exists []. by repeat split.
  - destruct (int_of v) as [n|]; [|done].
    destruct (Z.ltb_spec limit n) as [Hgt|Hle]; [done|].
    intros (ns & -> & Hall & Hlen)%IH. exists (n :: ns).
    repeat split; [by constructor|simpl; lia].
Qed.

(** Symbolic execution of the operations of the monad. *)
Ltac exec :=
  cbv [mbind M_bind mret M_ret emit deref lift get_self modify_self raise
       sys_exit update alloc print_support negb];
  cbn [self heap trace].

Section Validation.

Context `{Collaborators}.

Lemma validate_int_returns val limit s :
  ∃ r s',
    validate_int val (Some limit) s = (Done r, s') ∧
    self s' = self s ∧ heap s' = heap s ∧
    match r with
    | IntVal n => (n <= limit)%Z ∧ s' = s
    | IntList ns =>
        Forall (fun n => (n <= limit)%Z) ns ∧ s' = s ∧
        ∃ l, val = ArgList l ∧ ints_of l = Some ns ∧ length ns = length l
    | IntNone => val = ArgStr "" ∧ s' = s
    | IntFalse =>
        ∃ msg, trace s' = trace s ++ [EvMsg msg; EvLog "warning" msg]
    end.
Proof.
  assert (∀ msg, ∃ r s',
            warn_false msg s = (Done r, s') ∧ self s' = self s ∧
            heap s' = heap s ∧ r = IntFalse ∧
            trace s' = trace s ++ [EvMsg msg; EvLog "warning" msg]) as Hwarn.
  { intros msg. eexists _, _. unfold warn_false. exec.
    repeat split. by rewrite <- app_assoc. }
  assert (∀ n, ∃ r s',
            check_limit n (Some limit) s = (Done r, s') ∧ self s' = self s ∧
            heap s' = heap s ∧
            match r with
            | IntVal m => (m <= limit)%Z ∧ s' = s
            | IntFalse =>
                ∃ msg, trace s' = trace s ++ [EvMsg msg; EvLog "warning" msg]
            | _ => False
            end) as Hcheck.
  { intros n. unfold check_limit.
    destruct (Z.ltb_spec limit n) as [Hgt|Hle].
    - destruct (Hwarn "WARNING: The values entered are invalid.")
        as (r & s' & -> & ? & ? & -> & ?). eexists _, _. eauto 10.
    - eexists _, _. repeat split; done. }
  destruct val as [text|n|l]; unfold validate_int.
  - destruct (String.eqb_spec text "") as [->|Hne].
    + eexists _, _. repeat split; done.
    + destruct (PyNum.int text) as [n|].
      * destruct (Hcheck n) as (r & s' & -> & ? & ? & Hr).
        exists r, s'. repeat split; try done.
        destruct r; try done; tauto.
      * destruct (Hwarn "WARNING: Not a valid entry.")
          as (r & s' & -> & ? & ? & -> & ?). eexists _, _. eauto 10.
  - destruct (Hcheck n) as (r & s' & -> & ? & ? & Hr).
    exists r, s'. repeat split; try done. destruct r; try done; tauto.
  - destruct (any_above limit l) as [[|]|] eqn:Hany.
    + destruct (Hwarn "WARNING: One of the values entered is invalid.")
        as (r & s' & -> & ? & ? & -> & ?). eexists _, _. eauto 10.
    + destruct (any_above_false _ _ Hany) as (ns & Hints & Hall & Hlen).
      rewrite Hints. eexists _, _. repeat split; eauto.
    + destruct (Hwarn "WARNING: Not a valid entry.")
        as (r & s' & -> & ? & ? & -> & ?). eexists _, _. eauto 10.
Qed.

Lemma any_above_within limit l ns :
  ints_of l = Some ns -> Forall (fun n => (n <= limit)%Z) ns ->
  any_above limit l = Some false.
Proof.
  revert ns. induction l as [|v rest IH]; intros ns; simpl; [done|].
  destruct (int_of v) as [n|]; [|done].
  destruct (ints_of rest) as [ns'|]; [|done].
  intros [= <-] [Hn Hrest]%Forall_cons.
  destruct (Z.ltb_spec limit n) as [?|_]; [lia|]. by apply (IH ns').
Qed.

(** [validate_int] with a limit. The call returns (it neither raises nor
    exits), and what it returns is settled by the limit alone: a number,
    given as such or as a text that [int] reads, is returned as it is when
    it is at most the limit, zero and the negative numbers too, for there
    is no lower bound; a list all of whose values [int] reads and are at
    most the limit is returned as the list of its numbers. No number above
    the limit is returned, [None] stands for the empty text only, and
    [False] comes with one warning, printed and logged. *)
Theorem validate_int_within_limit val limit s :
  ∃ r s',
    validate_int val (Some limit) s = (Done r, s') ∧
    self s' = self s ∧ heap s' = heap s ∧
    match r with
    | IntVal n => (n <= limit)%Z ∧ s' = s
    | IntList ns =>
        Forall (fun n => (n <= limit)%Z) ns ∧ s' = s ∧
        ∃ l, val = ArgList l ∧ ints_of l = Some ns ∧ length ns = length l
    | IntNone => val = ArgStr "" ∧ s' = s
    | IntFalse =>
        ∃ msg, trace s' = trace s ++ [EvMsg msg; EvLog "warning" msg]
    end ∧
    (∀ n, val = ArgInt n ∨
          (∃ text, val = ArgStr text ∧ text ≠ "" ∧ PyNum.int text = Some n) ->
          (n <= limit)%Z -> r = IntVal n) ∧
    (∀ l ns, val = ArgList l -> ints_of l = Some ns ->
             Forall (fun n => (n <= limit)%Z) ns -> r = IntList ns).
Proof.
  destruct (validate_int_returns val limit s)
    as (r & s' & Hrun & Hself & Hheap & Hr).
  exists r, s'. do 4 (split; [done|]). split.
  - intros n Hval Hle.
    assert ((limit <? n)%Z = false) as Hlt by lia.
    assert (validate_int val (Some limit) s = (Done (IntVal n), s)) as Hacc.
    { destruct Hval as [->|(text & -> & Hne%String.eqb_neq & Hint)];
        unfold validate_int, check_limit.
      - by rewrite Hlt.
      - by rewrite Hne, Hint, Hlt. }
    rewrite Hacc in Hrun. by injection Hrun as <- _.
  - intros l ns -> Hints Hall. unfold validate_int in Hrun.
    rewrite (any_above_within _ _ _ Hints Hall), Hints in Hrun.
    by injection Hrun as <- _.
Qed.

(** [validate_file] returns a path exactly when the file exists and, for
    an AOI, its name holds one of the five extensions somewhere; the path
    is the absolute one, and nothing is printed or logged then. *)
Theorem validate_file_accepts in_fn aoi s :
  ∃ r s',
    validate_file in_fn aoi s = (Done r, s') ∧
    (r = Some (abspath in_fn) ∨ r = None) ∧
    (r = Some (abspath in_fn) <->
     path_exists (abspath in_fn) = true ∧
     (aoi = true ->
      ∃ ext, ext ∈ aoi_extensions ∧ Py.contains ext in_fn = true)) ∧
    (r = Some (abspath in_fn) -> s' = s).
Proof.
  assert (existsb (fun ext => Py.contains ext in_fn) aoi_extensions = true <->
          ∃ ext, ext ∈ aoi_extensions ∧ Py.contains ext in_fn = true) as Hiff.
  { rewrite existsb_exists. by setoid_rewrite list_elem_of_In. }
  unfold validate_file, print_support.
  destruct (existsb _ aoi_extensions) eqn:Hext;
    destruct (path_exists (abspath in_fn)) eqn:Hp; destruct aoi;
    cbn [andb negb]; exec; eexists _, _; (split; [reflexivity|]);
    naive_solver.
Qed.

(** A cap on the items of an order that is below zero: the range of line
    1343 is empty, no order is sent, and the order set stays as it was. *)
Theorem send_orders_negative_cap json_res priority k orders s :
  (k < 0)%Z ->
  send_orders json_res priority (MaxInt k) orders s = (Done orders, s).
Proof.
  intros Hk. destruct k as [|p|p]; try lia.
  unfold send_orders, PyNum.range, PyNum.range_len.
  change (Z.neg p =? 0)%Z with false. change (0 <? Z.neg p)%Z with false.
  destruct (Z.ltb_spec (Z.of_nat (length json_res)) 0); [lia|].
  reflexivity.
Qed.

End Validation.

Lemma send_orders_negative_cap_witness :
  @send_orders (scripted five_records [] true "")
    (Images.get_raw five_records) (Some "Medium") (MaxInt (-2)) []
    (@init_state (scripted five_records [] true "") true)
  = (Done [], @init_state (scripted five_records [] true "") true).
Proof.
  apply (@send_orders_negative_cap (scripted five_records [] true "")).
  lia.
Defined.

(** ** What the flows never do *)

Section Never.

Context `{Collaborators}.

Lemma pres_bind I {A B : Type} (m : M A) (f : A -> M B) :
  preserves I m -> (∀ a, preserves I (f a)) -> preserves I (m ≫= f).
Proof.
  intros Hm Hf s o s' HI. rewrite run_bind.
  destruct (m s) as [[a|c|e] s1] eqn:E.
  - intros Hrun. eapply Hf; [|exact Hrun]. eapply Hm; eauto.
  - intros [= <- <-]. eapply Hm; eauto.
  - intros [= <- <-]. eapply Hm; eauto.
Qed.

Lemma pres_mret I {A : Type} (a : A) : preserves I (mret a).
Proof. by intros s o s' HI [= _ <-]. Qed.

Lemma pres_get_self I : preserves I get_self.
Proof. by intros s o s' HI [= _ <-]. Qed.

Lemma pres_deref I loc : preserves I (deref loc).
Proof. by intros s o s' HI [= _ <-]. Qed.

Lemma pres_raise I {A : Type} e : preserves I (@raise _ A e).
Proof. by intros s o s' HI [= _ <-]. Qed.

Lemma pres_sys_exit I {A : Type} code : preserves I (@sys_exit _ A code).
Proof. by intros s o s' HI [= _ <-]. Qed.

Lemma pres_lift I {A : Type} (r : exn + A) : preserves I (lift r).
Proof. destruct r; [apply pres_raise|apply pres_mret]. Qed.

Lemma pres_emit base PS (PE : event -> Prop) e :
  PE e -> preserves (since base PS PE) (emit e).
Proof.
  intros He s o s' [HS (added & Htr & Hall)] [= _ <-]. split; [done|].
  exists (added ++ [e]). cbn. rewrite Htr, app_assoc. split; [done|].
  apply Forall_app. split; [done|]. by constructor.
Qed.

Lemma pres_modify_self base (PS : Eodms -> Prop) PE f :
  (∀ e, PS e -> PS (f e)) -> preserves (since base PS PE) (modify_self f).
Proof. intros Hf s o s' [HS Htr] [= _ <-]. split; [by apply Hf|done]. Qed.

Lemma pres_alloc base PS PE imgs : preserves (since base PS PE) (alloc imgs).
Proof. by intros s o s' [HS Htr] [= _ <-]. Qed.

Lemma pres_update base PS PE loc f :
  preserves (since base PS PE) (update loc f).
Proof. by intros s o s' [HS Htr] [= _ <-]. Qed.

Lemma pres_get_self_bind base (PS : Eodms -> Prop) PE {B : Type}
  (f : Eodms -> M B) :
  (∀ e, PS e -> preserves (since base PS PE) (f e)) ->
  preserves (since base PS PE) (get_self ≫= f).
Proof.
  intros Hf s o s' HI. rewrite run_bind. cbn. apply Hf; [apply HI|done].
Qed.

Lemma pres_order_loop base PS (PE : event -> Prop)
  json_res priority k idxs orders :
  (∀ recs, PE (EvOrder recs priority)) ->
  preserves (since base PS PE) (order_loop json_res priority k idxs orders).
Proof.
  intros HPE s o s' [HS (added & Htr & Hall)]. rewrite order_loop_run.
  intros [= _ <-]. split; [done|]. eexists. cbn. rewrite Htr, <- app_assoc.
  split; [done|]. apply Forall_app. split; [done|].
  apply Forall_fmap, Forall_forall. intros c _. apply HPE.
Qed.

Ltac pres_step :=
  first
    [ apply pres_get_self_bind;
      let e := fresh "e" in
      let He := fresh "He" in
      intros e He; cbv beta in He; try (rewrite He; cbn [negb])
    | apply pres_bind; [|intros ?]
    | apply pres_mret | apply pres_get_self | apply pres_deref
    | apply pres_raise | apply pres_sys_exit | apply pres_lift
    | apply pres_alloc | apply pres_update
    | apply pres_emit; reflexivity
    | apply pres_emit; cbv beta; tauto
    | apply pres_modify_self; intros ? ?; assumption
    | apply pres_modify_self; intros ? ?; exact I
    | apply pres_order_loop; intros ?; reflexivity
    | match goal with
      | |- preserves _ (match ?x with _ => _ end) => destruct x
      end ].

Ltac unfold_flows :=
  unfold search_orderDownload, search_images, order_images, send_orders,
    call_order, check_orders, download_stage, make_download_folder,
    download_only, download_aoi, retrieve_orders, search_only,
    confirm_or_trim, validate_file, export_results, geo_export,
    print_support.

Lemma pres_from {A : Type} (m : M A) PS (PE : event -> Prop) s o s' :
  preserves (since (trace s) PS PE) m ->
  PS (self s) ->
  m s = (o, s') ->
  PS (self s') ∧ ∃ added, trace s' = trace s ++ added ∧ Forall PE added.
Proof.
  intros Hm HS Hrun. eapply Hm; [|exact Hrun].
  split; [done|]. exists []. by rewrite app_nil_r.
Qed.

(** In silent mode no flow asks the user anything: however the full flow,
    the download-only flow and the flow of the existing orders of an AOI
    end, they add no [input] to the trace, and the object stays silent. *)
Theorem silent_flows_never_prompt p s o s' :
  silent (self s) = true ->
  search_orderDownload p s = (o, s') ∨ download_only p s = (o, s') ∨
  download_aoi p s = (o, s') ->
  silent (self s') = true ∧
  ∃ added, trace s' = trace s ++ added ∧
           Forall (fun ev => is_input ev = false) added.
Proof.
  intros Hsilent Hrun.
  set (PS := fun e : Eodms => silent e = true).
  set (PE := fun ev : event => is_input ev = false).
  destruct Hrun as [Hrun|[Hrun|Hrun]];
    refine (pres_from _ PS PE _ _ _ _ Hsilent Hrun);
    unfold_flows; subst PS PE; repeat pres_step.
Qed.

Lemma never_returns_bind {A B : Type} (m : M A) (f : A -> M B) :
  (∀ a, never_returns (f a)) -> never_returns (m ≫= f).
Proof.
  intros Hf s b s'. rewrite run_bind.
  destruct (m s) as [[a|c|e] s1]; [apply Hf|done|done].
Qed.

Lemma never_returns_sys_exit {A : Type} code : never_returns (@sys_exit _ A code).
Proof. by intros s a s'. Qed.

(** The search-only flow searches and reports, and that is all: it never
    returns to its caller (it ends in [sys.exit], or it raises), and it
    sends no order, looks up no order and downloads nothing. *)
Theorem search_only_only_searches p s o s' :
  search_only p s = (o, s') ->
  (∀ a, o ≠ Done a) ∧
  ∃ added, trace s' = trace s ++ added ∧
           Forall (fun ev => is_order ev = false ∧ is_lookup ev = false ∧
                             is_download ev = false) added.
Proof.
  intros Hrun. split.
  - intros a ->. revert Hrun. unfold search_only.
    repeat first
      [ apply never_returns_sys_exit
      | apply never_returns_bind; intros ?
      | match goal with
        | |- never_returns (match ?x with _ => _ end) => destruct x
        end ].
  - refine (proj2 (pres_from _ (fun _ => True) _ _ _ _ _ I Hrun)).
    unfold_flows. repeat pres_step.
Qed.

(** The flow of a CSV of the EODMS UI makes no use of ['maximum'], once it
    parses: whatever the cap on the images and on the items of an order,
    the run is the same, and the records of the CSV go into one order, the
    only one of the run. *)
Theorem order_csv_one_order get_eodmsRes p maximum caps caps' s :
  Py.contains ".csv" (p_input p) = true ->
  parse_max (p_maximum p) = inr caps ->
  parse_max maximum = inr caps' ->
  order_csv get_eodmsRes (with_maximum maximum p) s
  = order_csv get_eodmsRes p s ∧
  ∃ added,
    trace (order_csv get_eodmsRes p s).2
    = trace s ++
      EvOrder (Images.get_raw (get_eodmsRes (p_input p))) (p_priority p)
      :: added ∧
    Forall (fun ev => is_order ev = false) added.
Proof.
  intros Hcsv Hcaps Hcaps'. split.
  - unfold order_csv. cbn [with_maximum p_maximum p_input p_output p_priority].
    rewrite Hcaps, Hcaps'. reflexivity.
  - unfold order_csv, call_order. exec. rewrite Hcsv, Hcaps. exec.
    rewrite (list_lookup_middle (heap s) [] _ (length (heap s)) eq_refl).
    cbn [default from_option id].
    match goal with
    | |- context [check_orders ?q ?ords ?s1] =>
        change (∃ added,
          trace ((check_orders q ords ≫= fun _ => download_stage q ords true)
                   s1).2
          = trace s ++
            EvOrder (Images.get_raw (get_eodmsRes (p_input p))) (p_priority p)
            :: added ∧
          Forall (fun ev => is_order ev = false) added);
        destruct ((check_orders q ords ≫= fun _ => download_stage q ords true)
                    s1) as [out s2] eqn:Hrest
    end.
    apply (pres_from _ (fun _ => True) (fun ev => is_order ev = false))
      in Hrest as [_ (added & Htr & Hall)]; [| |exact I].
    + exists added. cbn in *. rewrite Htr, <- app_assoc. done.
    + unfold_flows. repeat pres_step.
Qed.

End Never.

(** ** The forks of the flows *)

Section Forks.

Context `{Collaborators}.

(** No record found is fatal in every flow that searches: the full flow,
    the flow of the existing orders of an AOI and the search-only flow all
    leave with status 1 after the same four messages; nothing is ordered,
    looked up, downloaded or exported ([cur_res] is not bound yet). *)
Theorem no_results_is_fatal p s caps dates ch rest :
  existsb (fun ext => Py.contains ext (p_input p)) aoi_extensions = true ->
  path_exists (abspath (p_input p)) = true ->
  abspath (p_input p) = String ch rest ->
  parse_max (p_maximum p) = inr caps ->
  parse_dates_param (p_dates p) = inr dates ->
  (∀ cap, query_entries (list_of_coll (p_collections p)) (p_filters p)
            (p_input p) dates cap = []) ->
  let s' :=
    {| self := set_fn_str now (set_output (p_output p) (self s));
       heap := heap s ++ [[]];
       trace := trace s ++
         [EvMsg "Sorry, no results found for given AOI.";
          EvMsg "Exiting process.";
          EvSupport None;
          EvLog "warning" "Sorry, no results found for given AOI."] |} in
  search_orderDownload p s = (Exited 1, s') ∧
  download_aoi p s = (Exited 1, s') ∧
  search_only p s = (Exited 1, s').
Proof.
  intros Hext Hexists Habs Hcaps Hdates Hnone s'.
  unfold search_orderDownload, search_images, download_aoi, search_only,
    validate_file.
  rewrite Hext, Hexists. cbn [andb negb]. exec. rewrite Habs, Hcaps, Hdates.
  destruct caps as [max_images max_items]. exec. rewrite !Hnone.
  rewrite (list_lookup_middle (heap s) [] _ (length (heap s)) eq_refl).
  cbn [default from_option id Images.count length Nat.eqb]. exec.
  subst s'. rewrite <- !app_assoc. done.
Qed.

(** The flow of the existing orders of an AOI, in silent mode, when the
    search finds records and the lookup finds no order: [cur_res] was bound
    after the search (line 1562), so the results CSV is written before the
    run leaves with status 0; no order is placed. *)
Theorem download_aoi_silent_exports_csv p s caps dates ch rest :
  silent (self s) = true ->
  existsb (fun ext => Py.contains ext (p_input p)) aoi_extensions = true ->
  path_exists (abspath (p_input p)) = true ->
  abspath (p_input p) = String ch rest ->
  parse_max (p_maximum p) = inr caps ->
  parse_dates_param (p_dates p) = inr dates ->
  let found := query_entries (list_of_coll (p_collections p)) (p_filters p)
                 (p_input p) dates MaxNone in
  let res_fn := path_join (results_path (self s)) (now +:+ "_Results.csv") in
  found ≠ [] ->
  count_items
    (ingest_results (new_OrderList found)
       (rapi_get_ordersByRecords (Images.get_raw found))) = 0%nat ->
  download_aoi p s
  = (Exited 0,
     {| self := set_cur_res (Some (length (heap s)))
                  (set_fn_str now (set_output (p_output p) (self s)));
        heap := heap s ++ [found];
        trace := trace s ++
          [EvGetOrders (Images.get_raw found);
           EvGeoExport found (p_output p);
           EvCsvExport res_fn found;
           EvMsg ("Results exported to '" +:+ res_fn +:+ "'.");
           EvSupport None;
           EvLog "info" "No previous orders could be found."] |}).
Proof.
  intros Hsilent Hext Hexists Habs Hcaps Hdates found res_fn Hfound Hnone.
  assert ((Images.count found =? 0)%nat = false) as Hcount
    by (destruct found; [done|reflexivity]).
  unfold download_aoi, validate_file, retrieve_orders, geo_export,
    export_results.
  rewrite Hext, Hexists. cbn [andb negb]. exec. rewrite Habs, Hcaps, Hdates.
  exec. fold found.
  rewrite !(list_lookup_middle (heap s) [] _ (length (heap s)) eq_refl).
  cbn [default from_option id]. rewrite Hcount. exec.
  rewrite !(list_lookup_middle (heap s) [] _ (length (heap s)) eq_refl).
  cbn [default from_option id]. rewrite Hnone. change (0 =? 0)%nat with true.
  cbn [set_cur_res set_fn_str set_output silent cur_res fn_str results_path
       output].
  rewrite Hsilent.
  do 3 (exec;
        cbn [set_cur_res set_fn_str set_output silent cur_res fn_str
             results_path output default from_option id];
        rewrite ?(list_lookup_middle (heap s) [] _ (length (heap s)) eq_refl)).
  subst res_fn. cbn [default from_option id]. by rewrite <- !app_assoc.
Qed.

(** The question of the full flow (lines 1301-1313), asked when no cap on
    the images was given and the object is not silent: an answer that
    holds an ["n"] or an ["N"] anywhere ends the run with status 0, after
    the records found were written to the results CSV; any other answer,
    the empty one too, lets the run go on, with the record set untouched. *)
Theorem confirm_fork collections max_images query_imgs stamp s :
  silent (self s) = false ->
  max_images = MaxNone ∨ max_images = MaxEmpty ->
  cur_res (self s) = Some query_imgs ->
  fn_str (self s) = Some stamp ->
  let found := default [] (heap s !! query_imgs) in
  let prompt := PyNum.str (Z.of_nat (Images.count found)) +:+
      " images found intersecting your AOI. Proceed with ordering? (y/n): " in
  let res_fn := path_join (results_path (self s)) (stamp +:+ "_Results.csv") in
  confirm_or_trim collections max_images query_imgs s
  = if Py.contains "n" (Py.lower (input prompt)) then
      (Exited 0,
       {| self := self s; heap := heap s;
          trace := trace s ++
            [EvInput prompt;
             EvCsvExport res_fn found;
             EvMsg ("Results exported to '" +:+ res_fn +:+ "'.");
             EvSupport None;
             EvLog "info" "Process stopped by user."] |})
    else
      (Done tt,
       {| self := self s; heap := heap s;
          trace := trace s ++ [EvInput prompt] |}).
Proof.
  intros Hsilent Hmax Hcur Hstamp found prompt res_fn.
  unfold confirm_or_trim, export_results.
  destruct Hmax as [-> | ->]; exec; rewrite Hsilent; exec;
    fold found; fold prompt;
    (destruct (Py.contains "n" (Py.lower (input prompt))); exec;
     [rewrite Hcur, Hstamp; exec; subst res_fn; by rewrite <- !app_assoc
     |done]).
Qed.

(** The fork of [retrieve_orders] (lines 586-614). Orders that exist are
    returned as they are: nothing is asked, ordered or exported. With no
    order and an object that is not silent the user is asked: an answer
    that holds a ["y"] or a ["Y"] places one order for all the records,
    without a priority, and its response is ingested after the empty
    response of the lookup; any other answer exports the polygons, then
    the results when [cur_res] is bound, and ends the run with status 0.
    When the function returns, [cur_res] is bound to the record set. *)
Theorem retrieve_orders_fork query_imgs stamp s :
  silent (self s) = false ->
  fn_str (self s) = Some stamp ->
  let imgs := default [] (heap s !! query_imgs) in
  let json_res := Images.get_raw imgs in
  let orders := ingest_results (new_OrderList imgs)
                  (rapi_get_ordersByRecords json_res) in
  let msg := "No existing orders could be found for the given AOI. Would you like to order the images? (y/n): " in
  let res_fn := path_join (results_path (self s)) (stamp +:+ "_Results.csv") in
  let bound tr :=
    {| self := set_cur_res (Some query_imgs) (self s); heap := heap s;
       trace := trace s ++ tr |} in
  retrieve_orders query_imgs s
  = if (count_items orders =? 0)%nat then
      if Py.contains "y" (Py.lower (input msg)) then
        (Done (ingest_results orders (rapi_order json_res None)),
         bound [EvGetOrders json_res; EvInput msg; EvOrder json_res None])
      else
        (Exited 0,
         {| self := self s; heap := heap s;
            trace := trace s ++
              [EvGetOrders json_res; EvInput msg;
               EvGeoExport imgs (output (self s))] ++
              match cur_res (self s) with
              | Some loc =>
                  [EvCsvExport res_fn (default [] (heap s !! loc));
                   EvMsg ("Results exported to '" +:+ res_fn +:+ "'.")]
              | None => []
              end ++
              [EvSupport None; EvLog "info" "Process ended by user."] |})
    else (Done orders, bound [EvGetOrders json_res]).
Proof.
  intros Hsilent Hstamp imgs json_res orders msg res_fn bound.
  unfold retrieve_orders, geo_export, call_order, export_results. exec.
  fold imgs. fold json_res. fold orders.
  destruct (count_items orders =? 0)%nat; [|by exec].
  rewrite Hsilent. exec. fold msg.
  destruct (Py.contains "y" (Py.lower (input msg))); exec.
  - subst bound. cbn. by rewrite <- !app_assoc.
  - destruct (cur_res (self s)) as [loc|]; exec.
    + rewrite Hstamp. exec. subst res_fn. cbn. by rewrite <- !app_assoc.
    + cbn. by rewrite <- !app_assoc.
Qed.

End Forks.

(** ** More scenarios *)

Lemma silent_flows_never_prompt_witness :
  silent (self (full_flow three_records true ["A"] None).2) = true ∧
  ∃ added,
    trace (full_flow three_records true ["A"] None).2
    = trace (@init_state (scripted three_records [] true "") true) ++ added ∧
    Forall (fun ev => is_input ev = false) added.
Proof.
  apply (@silent_flows_never_prompt (scripted three_records [] true "")
           (scenario_params "aoi.geojson" ["A"] None)
           (@init_state (scripted three_records [] true "") true)
           (full_flow three_records true ["A"] None).1).
  - reflexivity.
  - left. vm_compute. reflexivity.
Defined.

Lemma search_only_only_searches_witness :
  let run := @search_only (scripted three_records [] true "")
               (scenario_params "aoi.geojson" ["A"] None)
               (@init_state (scripted three_records [] true "") true) in
  (∀ a, run.1 ≠ Done a) ∧
  ∃ added,
    trace run.2
    = trace (@init_state (scripted three_records [] true "") true) ++ added ∧
    Forall (fun ev => is_order ev = false ∧ is_lookup ev = false ∧
                      is_download ev = false) added.
Proof.
  intros run.
  apply (@search_only_only_searches (scripted three_records [] true "")
           (scenario_params "aoi.geojson" ["A"] None)
           (@init_state (scripted three_records [] true "") true)).
  vm_compute. reflexivity.
Defined.

Lemma order_csv_one_order_witness :
  let run maximum :=
    @order_csv (scripted [] [] true "") (fun _ => three_records)
      (scenario_params "eodms_ui.csv" [] maximum)
      (@init_state (scripted [] [] true "") true) in
  run (Some "1:1") = run None ∧
  ∃ added,
    trace (run None).2
    = trace (@init_state (scripted [] [] true "") true) ++
      EvOrder (Images.get_raw three_records) (Some "Medium") :: added ∧
    Forall (fun ev => is_order ev = false) added.
Proof.
  intros run.
  apply (@order_csv_one_order (scripted [] [] true "") (fun _ => three_records)
           (scenario_params "eodms_ui.csv" [] None) (Some "1:1")
           (MaxNone, MaxNone) (MaxInt 1, MaxInt 1)
           (@init_state (scripted [] [] true "") true)).
  - vm_compute. reflexivity.
  - vm_compute. reflexivity.
  - vm_compute. reflexivity.
Defined.

Lemma no_results_is_fatal_witness :
  let C := scripted [] [] true "" in
  let p := scenario_params "aoi.geojson" ["A"] None in
  let s' :=
    {| self := set_fn_str "20210105_054540"
                 (set_output None (set_silent true init_eod));
       heap := [] ++ [[]];
       trace := [] ++
         [EvMsg "Sorry, no results found for given AOI.";
          EvMsg "Exiting process.";
          EvSupport None;
          EvLog "warning" "Sorry, no results found for given AOI."] |} in
  @search_orderDownload C p (@init_state C true) = (Exited 1, s') ∧
  @download_aoi C p (@init_state C true) = (Exited 1, s') ∧
  @search_only C p (@init_state C true) = (Exited 1, s').
Proof.
  intros C p s'.
  eapply (@no_results_is_fatal C p (@init_state C true) (MaxNone, MaxNone)
            _ "a"%char "oi.geojson").
  - reflexivity.
  - reflexivity.
  - reflexivity.
  - reflexivity.
  - cbv. reflexivity.
  - intros cap. reflexivity.
Defined.

Lemma download_aoi_silent_exports_csv_witness :
  let C := scripted three_records [] true "" in
  @download_aoi C (scenario_params "aoi.geojson" ["A"] None)
    (@init_state C true)
  = (Exited 0,
     {| self := set_cur_res (Some 0%nat)
                  (set_fn_str "20210105_054540"
                     (set_output None (set_silent true init_eod)));
        heap := [] ++ [three_records];
        trace := [] ++
          [EvGetOrders (Images.get_raw three_records);
           EvGeoExport three_records None;
           EvCsvExport "results/20210105_054540_Results.csv" three_records;
           EvMsg "Results exported to 'results/20210105_054540_Results.csv'.";
           EvSupport None;
           EvLog "info" "No previous orders could be found."] |}).
Proof.
  intros C.
  eapply (@download_aoi_silent_exports_csv C
            (scenario_params "aoi.geojson" ["A"] None) (@init_state C true)
            (MaxNone, MaxNone) _ "a"%char "oi.geojson").
  - reflexivity.
  - reflexivity.
  - reflexivity.
  - reflexivity.
  - reflexivity.
  - cbv. reflexivity.
  - discriminate.
  - reflexivity.
Defined.

Lemma confirm_fork_witness :
  let stop := scripted three_records [] true "No" in
  let go := scripted three_records [] true "" in
  let prompt := "3 images found intersecting your AOI. Proceed with ordering? (y/n): " in
  @confirm_or_trim stop ["A"] MaxNone 0%nat (@searched_state stop three_records)
  = (Exited 0,
     {| self := self (@searched_state stop three_records);
        heap := [three_records];
        trace := [] ++
          [EvInput prompt;
           EvCsvExport "results/20210105_054540_Results.csv" three_records;
           EvMsg "Results exported to 'results/20210105_054540_Results.csv'.";
           EvSupport None;
           EvLog "info" "Process stopped by user."] |}) ∧
  @confirm_or_trim go ["A"] MaxNone 0%nat (@searched_state go three_records)
  = (Done tt,
     {| self := self (@searched_state go three_records);
        heap := [three_records];
        trace := [] ++ [EvInput prompt] |}).
Proof.
  intros stop go prompt. split.
  - apply (@confirm_fork stop ["A"] MaxNone 0%nat "20210105_054540"
             (@searched_state stop three_records));
      [reflexivity|left; reflexivity|reflexivity|reflexivity].
  - apply (@confirm_fork go ["A"] MaxNone 0%nat "20210105_054540"
             (@searched_state go three_records));
      [reflexivity|left; reflexivity|reflexivity|reflexivity].
Defined.

Lemma retrieve_orders_fork_witness :
  let yes := scripted three_records [] true "yes" in
  let msg := "No existing orders could be found for the given AOI. Would you like to order the images? (y/n): " in
  @retrieve_orders yes 0%nat (@searched_state yes three_records)
  = (Done (Images.get_raw three_records),
     {| self := self (@searched_state yes three_records);
        heap := [three_records];
        trace := [] ++
          [EvGetOrders (Images.get_raw three_records);
           EvInput msg;
           EvOrder (Images.get_raw three_records) None] |}).
Proof.
  intros yes msg.
  apply (@retrieve_orders_fork yes 0%nat "20210105_054540"
           (@searched_state yes three_records)); reflexivity.
Defined.

(** ** The searches of [query_entries] *)

Section Searches.

Context `{Session}.

Lemma coll_filters_later coll_id filters out :
  (∀ f, filters ≠ FromCaller f) ->
  Rapi.coll_filters coll_id filters = inr out -> out = NoFilters.
Proof.
  intros Hnot. unfold Rapi.coll_filters.
  destruct (Rapi.truthy filters); [|congruence].
  destruct coll_id as [c|]; [|congruence].
  destruct filters as [f| |f|].
  - by destruct (Hnot f).
  - congruence.
  - destruct (f !! c) as [[op vals]|]; congruence.
  - destruct (String.eqb c "Price"); congruence.
Qed.

Lemma coll_filters_sent coll_id filters out :
  Rapi.coll_filters coll_id filters = inr out -> ∀ f, out ≠ FromCaller f.
Proof.
  unfold Rapi.coll_filters.
  destruct (Rapi.truthy filters); [|by intros [= <-]].
  destruct coll_id as [c|]; [|by intros [= <-]].
  destruct filters as [f| |f|].
  - destruct (f !! c) as [coll_filts|]; [|by intros [= <-]].
    destruct (_parse_filters c coll_filts None) as [e|[o m]]; [done|].
    by intros [= <-].
  - by intros [= <-].
  - destruct (f !! c) as [[op vals]|]; [done|by intros [= <-]].
  - destruct (String.eqb c "Price"); [done|by intros [= <-]].
Qed.

Lemma query_loop_calls aoi dates max_images collections st :
  ∃ added,
    (Rapi.query_loop aoi dates max_images collections st).2
    = Rapi.calls st ++ added ∧
    (sc_coll_id <$> added) `prefix_of` (Rapi.get_fullCollId <$> collections) ∧
    Forall (fun c => ∀ f, sc_filters c ≠ FromCaller f) added ∧
    ((∀ f, Rapi.q_filters st ≠ FromCaller f) ->
     Forall (fun c => Rapi.unfiltered (sc_filters c)) added) ∧
    Forall (fun c => Rapi.unfiltered (sc_filters c)) (drop 1 added) ∧
    match (Rapi.query_loop aoi dates max_images collections st).1 with
    | inr res =>
        length added = length collections ∧
        res = Rapi.all_res st ++ concat (Rapi.search_of <$> added)
    | inl _ => True
    end.
Proof.
  revert st. induction collections as [|coll rest IH]; intros st; simpl.
  - exists []. rewrite !app_nil_r. repeat split; try done; by constructor.
  - destruct (Rapi.coll_filters (Rapi.get_fullCollId coll) (Rapi.q_filters st))
      as [e|out] eqn:Hout; simpl.
    + exists []. rewrite app_nil_r. repeat split; try done;
        [apply prefix_nil|by constructor..].
    + set (filters := if bool_decide (Rapi.get_fullCollId coll = Some "NAPL")
                      then PriceOnly else out).
      assert (∀ f, filters ≠ FromCaller f) as Hsent.
      { subst filters. case_bool_decide; [done|].
        by apply (coll_filters_sent _ _ _ Hout). }
      match goal with
      | |- context [Rapi.query_loop _ _ _ rest ?s1] =>
          destruct (IH s1) as (added & Hcalls & Hpre & Hnot & Hlater & _ & Hres)
      end.
      cbn [Rapi.calls Rapi.q_filters Rapi.all_res] in *.
      specialize (Hlater Hsent).
      eexists (_ :: added). rewrite Hcalls, <- app_assoc.
      split; [done|]. split; [by apply prefix_cons|].
      split; [by constructor|]. split; [|split; [done|]].
      * intros Hst. constructor; [|done]. cbn. subst filters.
        case_bool_decide; [by right|].
        left. by apply (coll_filters_later _ _ _ Hst Hout).
      * destruct (Rapi.query_loop _ _ _ rest _).1 as [e|res]; [done|].
        destruct Hres as [Hlen ->]. split; [simpl; by rewrite Hlen|].
        by rewrite <- app_assoc.
Qed.

(** The filters of a search over several collections reach the first
    search only. Each later search is sent with no filter, or with the
    fixed [Price] filter when its collection is NAPL, whatever the caller
    gave for that collection; and no search ever carries the entries of
    the caller as they were given. The searches follow the collections in
    order, up to the first exception; when the call returns there is one
    search for each collection, and their records are returned in order. *)
Theorem later_searches_unfiltered collections filters aoi dates max_images :
  let run := Rapi.query_entries collections filters aoi dates max_images in
  Forall (fun c => Rapi.unfiltered (sc_filters c)) (drop 1 run.2) ∧
  Forall (fun c => ∀ f, sc_filters c ≠ FromCaller f) run.2 ∧
  (sc_coll_id <$> run.2) `prefix_of` (Rapi.get_fullCollId <$> collections) ∧
  match run.1 with
  | inr res =>
      length run.2 = length collections ∧
      res = concat (Rapi.search_of <$> run.2)
  | inl _ => True
  end.
Proof.
  intros run. subst run. unfold Rapi.query_entries.
  match goal with
  | |- context [Rapi.query_loop _ _ _ _ ?s0] =>
      destruct (query_loop_calls aoi dates max_images collections s0)
        as (added & Hcalls & Hpre & Hnot & _ & Hdrop & Hres)
  end.
  cbn [Rapi.calls Rapi.all_res app] in *. rewrite Hcalls. done.
Qed.

End Searches.

(** ** The prompter *)

Lemma prefix_single c d s :
  String.prefix (String c "") (String d s) = Ascii.eqb d c.
Proof.
  cbv [String.prefix]. destruct (ascii_dec c d) as [->|Hne].
  - rewrite Ascii.eqb_refl. by destruct s.
  - symmetry. apply Ascii.eqb_neq. congruence.
Qed.

Lemma contains_single c s :
  Py.contains (String c "") s = negb (lacks c s).
Proof.
  unfold lacks. induction s as [|d s IH]; simpl; [done|].
  rewrite prefix_single, IH. by destruct (Ascii.eqb d c).
Qed.

Lemma lacks_contains c s :
  lacks c s = true <-> Py.contains (String c "") s = false.
Proof. rewrite contains_single. by destruct (lacks c s). Qed.

Lemma split_aux_lacks c s :
  lacks c (Py.split_aux (String c "") 0 s).1 = true ∧
  Forall (fun p => lacks c p = true) (Py.split_aux (String c "") 0 s).2.
Proof.
  unfold lacks. induction s as [|d s [IH1 IH2]]; simpl; [by split|].
  rewrite prefix_single. destruct (Ascii.eqb d c) eqn:Hd; simpl.
  - destruct (Py.split_aux (String c "") 0 s) as [p ps]; simpl in *.
    split; [done|by constructor].
  - destruct (Py.split_aux (String c "") 0 s) as [p ps]; simpl in *.
    by rewrite Hd, IH1.
Qed.

Lemma split_lacks c s :
  Forall (fun p => lacks c p = true) (Py.split (String c "") s).
Proof.
  pose proof (split_aux_lacks c s) as [H1 H2]. unfold Py.split.
  destruct (Py.split_aux (String c "") 0 s); simpl in *. by constructor.
Qed.

Lemma index_elem {A : Type} (l : list A) i x :
  PyList.index l i = inr x -> x ∈ l.
Proof.
  unfold PyList.index. destruct (_ <? 0)%Z; [done|].
  destruct (l !! _) as [y|] eqn:Hy; [|done].
  intros [= <-]. by eapply list_elem_of_lookup_2.
Qed.

Lemma map_exn_inr {A B : Type} (f : A -> exn + B) l ys :
  PyList.map_exn f l = inr ys -> Forall2 (fun x y => f x = inr y) l ys.
Proof.
  revert ys. induction l as [|x l IH]; simpl; intros ys.
  - intros [= <-]. constructor.
  - destruct (f x) as [e|y] eqn:Hx; [done|].
    destruct (PyList.map_exn f l) as [e|ys']; [done|].
    intros [= <-]. constructor; [done|by apply IH].
Qed.

Lemma strip_collection_lacks f x :
  strip_collection f = inr x -> lacks "." x = true.
Proof.
  unfold strip_collection. destruct (Py.contains "." f) eqn:Hf.
  - destruct (Py.split "." f !! 1%nat) as [y|] eqn:Hy; [|done].
    intros [= <-]. pose proof (split_lacks "." f) as Hall.
    by apply (Forall_lookup_1 _ _ _ _ Hall Hy).
  - intros [= <-]. by apply lacks_contains.
Qed.

Section NeverReturns.

Context `{Collaborators}.

Lemma pres_bind_never I {A B : Type} (m : M A) (f : A -> M B) :
  preserves I m -> never_returns m -> preserves I (m ≫= f).
Proof.
  intros Hm Hnever s o s' HI. rewrite run_bind.
  destruct (m s) as [[a|c|e] s1] eqn:E.
  - by destruct (Hnever s a s1).
  - intros [= <- <-]. eapply Hm; eauto.
  - intros [= <- <-]. eapply Hm; eauto.
Qed.

End NeverReturns.

Section Asking.

Context `{Collaborators} `{Session}.

Variable answer : nat -> string -> string.

Lemma returns_bind {A B : Type} (Q : A -> Prop) (P : B -> Prop)
  (m : M A) (f : A -> M B) :
  returns Q m -> (∀ a, Q a -> returns P (f a)) -> returns P (m ≫= f).
Proof.
  intros Hm Hf s b s' (a & s1 & H1 & H2)%bind_Done_inv.
  eapply Hf; [|exact H2]. eapply Hm, H1.
Qed.

Lemma returns_then {A B : Type} (P : B -> Prop) (m : M A) (f : A -> M B) :
  (∀ a, returns P (f a)) -> returns P (m ≫= f).
Proof. intros Hf. apply (returns_bind (fun _ => True)); [done|auto]. Qed.

Lemma returns_mret {A : Type} (P : A -> Prop) a : P a -> returns P (mret a).
Proof. by intros Ha s b s' [= <- _]. Qed.

Lemma returns_sys_exit {A : Type} (P : A -> Prop) code :
  returns P (sys_exit code).
Proof. by intros s b s'. Qed.

Lemma returns_raise {A : Type} (P : A -> Prop) e : returns P (raise e).
Proof. by intros s b s'. Qed.

Lemma returns_fail_with {A : Type} (P : A -> Prop) err_msg :
  returns P (fail_with err_msg).
Proof. by intros s b s'. Qed.

Lemma returns_lift {A : Type} (P : A -> Prop) (r : exn + A) :
  (∀ a, r = inr a -> P a) -> returns P (lift r).
Proof.
  intros Hr. destruct r as [e|a]; [apply returns_raise|].
  apply returns_mret. by apply Hr.
Qed.

Lemma ask_priority_returns priority :
  returns (fun r => r = None) (ask_priority answer priority).
Proof.
  unfold ask_priority. apply returns_then. intros [[|c p]|];
    try case_bool_decide; try apply returns_then; intros;
    by apply returns_mret.
Qed.

(** The priority of the order never comes out of the prompter: whatever
    was given on the command line or typed at the prompt, for every
    process, the parameters that go to the flow hold no priority. *)
Theorem priority_never_kept args coll_lst s k s' :
  ask_params answer args coll_lst s = (Done k, s') -> k_priority k = None.
Proof.
  revert s k s'. change (returns (fun k => k_priority k = None)
                           (ask_params answer args coll_lst)).
  unfold ask_params. apply returns_then. intros process.
  repeat match goal with
         | |- returns _ (if ?b then _ else _) => destruct b
         end;
    repeat first
      [ apply (returns_bind _ _ _ _ (ask_priority_returns _));
        intros ? ->
      | apply returns_sys_exit
      | apply returns_mret; reflexivity
      | apply returns_then; intros ? ].
Qed.

Lemma check_collections_Done cs s s' :
  check_collections cs s = (Done tt, s') ->
  Forall (fun c => Rapi.validate_collection c = true) cs.
Proof.
  induction cs as [|c cs IH]; simpl; [by constructor|].
  destruct (Rapi.validate_collection c) eqn:Hc; [|done].
  intros Hrun. constructor; [done|by apply IH].
Qed.

(** The collections [ask_collection] returns are all known to the
    account: each one is an identifier, a title or an alias of a
    collection, whatever the case of its letters. The ones picked by
    number at the prompt are entries of the list that was shown. *)
Theorem ask_collection_valid coll coll_lst s cs s' :
  ask_collection answer coll coll_lst s = (Done cs, s') ->
  Forall (fun c => Rapi.validate_collection c = true) cs ∧
  (coll = None -> Forall (fun c => c ∈ coll_lst) cs).
Proof.
  unfold ask_collection.
  intros (cs0 & s1 & Hpick & (u & s2 & Hcheck & [= -> _])%bind_Done_inv)
    %bind_Done_inv.
  destruct u. split; [by eapply check_collections_Done|].
  intros ->. clear Hcheck. revert s cs s1 Hpick.
  change (returns (fun cs => Forall (fun c => c ∈ coll_lst) cs)
            (pick_collections answer coll_lst)).
  unfold pick_collections.
  do 5 (apply returns_then; intros ?).
  apply (returns_bind (fun picked =>
           Forall (fun o => ∀ c, o = Some c -> c ∈ coll_lst) picked)).
  - apply returns_lift. intros picked Hp%map_exn_inr.
    induction Hp as [|i o rest os Hi _ IH]; constructor; [|done].
    intros c ->. unfold pick_collection in Hi.
    destruct (PyText.isdigit i); [|done].
    destruct (PyNum.int i) as [n|]; [|done].
    destruct (PyList.index coll_lst (n - 1)) as [e|c'] eqn:Hc; [done|].
    injection Hi as ->. by eapply index_elem.
  - intros picked Hp. apply returns_mret.
    induction Hp as [|[c|] os Ho _ IH]; simpl; [constructor| |done].
    constructor; [by apply Ho|done].
Qed.

Local Opaque get_filtMap operators.

Lemma lack_point_insert d k fs :
  lack_point d -> Forall (fun f => lacks "." f = true) fs ->
  lack_point (<[k := fs]> d).
Proof. intros Hd Hfs. by apply map_Forall_insert_2. Qed.

Lemma lack_point_lookup d k :
  lack_point d -> Forall (fun f => lacks "." f = true) (default [] (d !! k)).
Proof.
  intros Hd. destruct (d !! k) as [fs|] eqn:Hk; simpl; [|constructor].
  by apply (Hd k).
Qed.

Lemma validate_filters_returns filt_items coll_id :
  returns (fun r => ∀ x, r = Some x -> x = filt_items)
    (validate_filters filt_items coll_id).
Proof.
  unfold validate_filters.
  destruct (negb _).
  - do 2 (apply returns_then; intros ?). by apply returns_mret.
  - apply returns_then. intros coll_filts.
    destruct (List.find _ _).
    + do 2 (apply returns_then; intros ?). by apply returns_mret.
    + apply returns_mret. by intros x [= <-].
Qed.

Lemma ask_filter_loop_lacks collections d :
  lack_point d -> returns lack_point (ask_filter_loop answer collections d).
Proof.
  revert d. induction collections as [|coll rest IH]; intros d Hd;
    cbn [ask_filter_loop].
  - by apply returns_mret.
  - destruct (Rapi.get_collIdByName coll) as [coll_id|]; [|by apply IH].
    case_bool_decide; [|by apply IH].
    apply returns_then. intros filt_items.
    destruct (String.eqb filt_items "").
    + apply IH, lack_point_insert; [done|constructor].
    + apply returns_then. intros [[|c x]|]; try apply returns_sys_exit.
      apply (returns_bind (Forall (fun f => lacks "." f = true))).
      * apply returns_lift. intros items Hitems%map_exn_inr.
        induction Hitems as [|f y fs ys Hf _ IHf]; constructor; [|done].
        by eapply strip_collection_lacks.
      * intros items Hitems. by apply IH, lack_point_insert.
Qed.

Lemma given_filter_lacks coll f d :
  lack_point d -> returns lack_point (given_filter coll f d).
Proof.
  intros Hd. unfold given_filter.
  destruct (String.eqb f ""); [by apply returns_mret|].
  destruct (Py.contains "." f) eqn:Hf.
  - apply (returns_bind (fun ab => lacks "." ab.2 = true)).
    + apply returns_lift. intros [a b].
      pose proof (split_lacks "." f) as Hall.
      destruct (Py.split "." f) as [|a' [|b' [|c' l]]]; try done.
      intros [= -> ->]. by inversion Hall as [|? ? _ [|? ? Hb _]].
    + intros [coll_id filt_items] Hb.
      apply (returns_bind _ _ _ _ (validate_filters_returns _ _)).
      intros [[|c x]|] Hx; try apply returns_sys_exit.
      specialize (Hx _ eq_refl). apply returns_mret, lack_point_insert; [done|].
      apply Forall_app. split; [by apply lack_point_lookup|].
      constructor; [|constructor]. unfold lacks in *.
      do 2 apply all_chars_replace_keeps. by rewrite Hx.
  - apply returns_mret, lack_point_insert; [done|].
    apply Forall_app. split; [by apply lack_point_lookup|].
    constructor; [|constructor]. by apply lacks_contains.
Qed.

Lemma given_filters_lacks coll filt_lst d :
  lack_point d -> returns lack_point (given_filters coll filt_lst d).
Proof.
  revert d. induction filt_lst as [|f rest IH]; intros d Hd;
    cbn [given_filters].
  - by apply returns_mret.
  - apply (returns_bind _ _ _ _ (given_filter_lacks coll f d Hd)).
    intros d' Hd'. by apply IH.
Qed.

Lemma given_filters_loop_lacks filters collections d :
  lack_point d -> returns lack_point (given_filters_loop filters collections d).
Proof.
  revert d. induction collections as [|coll rest IH]; intros d Hd;
    cbn [given_filters_loop].
  - by apply returns_mret.
  - apply (returns_bind _ _ _ _ (given_filters_lacks coll _ d Hd)).
    intros d' Hd'. by apply IH.
Qed.

(** No filter comes out of [ask_filter] with a point in it, typed at the
    prompt or given on the command line: an entry with a point is cut at
    the point, and what stands before the point is taken for a collection
    (command line) or dropped (prompt). A value with a decimal point thus
    never reaches the search as it was written. *)
Theorem ask_filter_keeps_no_point filters collections s d s' :
  ask_filter answer filters collections s = (Done d, s') ->
  ∀ coll_id entries, d !! coll_id = Some entries ->
    Forall (fun f => Py.contains "." f = false) entries.
Proof.
  intros Hrun coll_id entries Hd.
  assert (lack_point d) as Hall.
  { clear Hd. revert s d s' Hrun.
    change (returns lack_point (ask_filter answer filters collections)).
    unfold ask_filter. destruct filters as [filters|].
    - by apply given_filters_loop_lacks.
    - apply returns_then. intros e. destruct (negb (silent e)).
      + by apply ask_filter_loop_lacks.
      + by apply returns_mret. }
  eapply Forall_impl; [by apply (Hall coll_id)|].
  intros f. by apply lacks_contains.
Qed.

Local Transparent get_filtMap operators.

End Asking.

(** ** The prompter in silent mode *)

Ltac never_tac :=
  unfold fail_with, print_support;
  repeat first [ apply never_returns_sys_exit
               | apply never_returns_bind; intros ? ].

Ltac quiet_step :=
  first
    [ apply pres_get_self_bind;
      let e := fresh "e" in
      let He := fresh "He" in
      intros e He; cbv beta in He; try (rewrite He; cbn [negb])
    | apply pres_bind_never; [|solve [never_tac]]
    | apply pres_bind; [|intros ?]
    | apply pres_mret | apply pres_raise | apply pres_sys_exit
    | apply pres_lift
    | apply pres_emit; reflexivity
    | match goal with
      | |- preserves _ (match ?x with _ => _ end) => destruct x
      end ].

Section Quiet.

Context `{Collaborators} `{Session}.

Variable answer : nat -> string -> string.

Variable base : list event.

Let quiet : state -> Prop :=
  since base (fun e => silent e = true) (fun ev => is_input ev = false).

Lemma quiet_fail_with {A : Type} err_msg :
  preserves quiet (@fail_with _ A err_msg).
Proof. unfold fail_with, print_support. repeat quiet_step. Qed.

Lemma quiet_validate_filters filt_items coll_id :
  preserves quiet (validate_filters filt_items coll_id).
Proof. unfold validate_filters, print_support. repeat quiet_step. Qed.

Lemma quiet_check_collections coll : preserves quiet (check_collections coll).
Proof.
  induction coll as [|c rest IH]; cbn [check_collections].
  - apply pres_mret.
  - destruct (Rapi.validate_collection c); [done|apply quiet_fail_with].
Qed.

Lemma quiet_given_filters coll filt_lst d :
  preserves quiet (given_filters coll filt_lst d).
Proof.
  revert d. induction filt_lst as [|f rest IH]; intros d; cbn [given_filters].
  - apply pres_mret.
  - apply pres_bind; [|intros ?; apply IH]. unfold given_filter.
    repeat first [apply quiet_validate_filters | quiet_step].
Qed.

Lemma quiet_given_filters_loop filters collections d :
  preserves quiet (given_filters_loop filters collections d).
Proof.
  revert d. induction collections as [|coll rest IH]; intros d;
    cbn [given_filters_loop].
  - apply pres_mret.
  - apply pres_bind; [apply quiet_given_filters|intros ?; apply IH].
Qed.

Lemma quiet_ask_aoi input : preserves quiet (ask_aoi answer input).
Proof.
  unfold ask_aoi, validate_file, print_support.
  repeat first [apply quiet_fail_with | quiet_step].
Qed.

Lemma quiet_ask_params args coll_lst :
  preserves quiet (ask_params answer args coll_lst).
Proof.
  unfold ask_params, ask_process, ask_aoi, ask_collection, pick_collections,
    ask_filter, ask_dates, ask_inputFile, ask_maximum, ask_output,
    ask_priority, validate_file, print_support.
  repeat first
    [ apply quiet_fail_with | apply quiet_check_collections
    | apply quiet_given_filters_loop | quiet_step ].
Qed.

End Quiet.

Section Silent.

Context `{Collaborators} `{Session}.

Variable answer : nat -> string -> string.

Lemma silent_process_run args s :
  silent (self s) = true ->
  match a_process args with
  | Some (String _ _ as process) => mret process
  | _ => ask_process answer
  end s = (Done (silent_process args), s).
Proof.
  intros Hsilent. unfold silent_process, ask_process.
  destruct (a_process args) as [[|c p]|]; try done; exec; by rewrite Hsilent.
Qed.

Lemma ask_aoi_missing input s :
  silent (self s) = true ->
  input = None ∨ input = Some "" ->
  ∃ s', ask_aoi answer input s = (Exited 1, s').
Proof.
  intros Hsilent [-> | ->]; unfold ask_aoi, fail_with; exec;
    rewrite Hsilent; by eexists.
Qed.

Lemma ask_inputFile_missing input msg s :
  silent (self s) = true ->
  input = None ∨ input = Some "" ->
  ∃ s', ask_inputFile answer input msg s = (Exited 1, s').
Proof.
  intros Hsilent [-> | ->]; unfold ask_inputFile, fail_with; exec;
    rewrite Hsilent; by eexists.
Qed.

Lemma ask_collection_missing coll_lst s :
  silent (self s) = true ->
  ∃ s', ask_collection answer None coll_lst s = (Exited 1, s').
Proof.
  intros Hsilent. unfold ask_collection, pick_collections, fail_with. exec.
  rewrite Hsilent. by eexists.
Qed.

Lemma ends_well_bind {A B : Type} (m : M A) (f : A -> M B) :
  ends_well m -> (∀ a, ends_well (f a)) -> ends_well (m ≫= f).
Proof.
  intros Hm Hf s o s'. rewrite run_bind.
  destruct (m s) as [[a|c|e] s1] eqn:E.
  - apply Hf.
  - intros [= <- <-]. destruct (Hm _ _ _ E) as [[= ->]|[a [=]]]. by left.
  - intros [= <- <-]. by destruct (Hm _ _ _ E) as [[=]|[a [=]]].
Qed.

Lemma ends_well_Done {A : Type} (m : M A) :
  (∀ s, ∃ a s', m s = (Done a, s')) -> ends_well m.
Proof.
  intros Hm s o s' Hrun. destruct (Hm s) as (a & s1 & Ha).
  rewrite Ha in Hrun. injection Hrun as <- _. right. by eexists.
Qed.

Lemma ends_well_exit {A : Type} : ends_well (@sys_exit _ A 1).
Proof. intros s o s' [= <- _]. by left. Qed.

Lemma ends_well_ask_aoi input : ends_well (ask_aoi answer input).
Proof.
  unfold ask_aoi, get_input, fail_with, validate_file, print_support.
  repeat first
    [ apply ends_well_exit
    | apply ends_well_Done; intros ?; by eexists _, _
    | apply ends_well_bind; [|intros ?]
    | match goal with
      | |- ends_well (match ?x with _ => _ end) => destruct x
      end ].
Qed.

(** After the credentials, in silent mode, the questions of [prompt]
    (lines 2474-2609) ask nothing, for any process and any command line:
    however they end, no [input] was called, and the object stays silent.
    What is missing and cannot be asked for ends the run with status 1:
    the input file of any process, and the collections of the processes
    that search. *)
Theorem silent_prompter_never_asks args coll_lst s o s' :
  silent (self s) = true ->
  ask_params answer args coll_lst s = (o, s') ->
  (silent (self s') = true ∧
   ∃ added, trace s' = trace s ++ added ∧
            Forall (fun ev => is_input ev = false) added) ∧
  (a_input args = None ∨ a_input args = Some "" -> o = Exited 1) ∧
  (a_collections args = None ->
   silent_process args ∈ ["full"; "download_aoi"; "search_only"] ->
   o = Exited 1).
Proof.
  intros Hsilent Hrun. split.
  { exact (pres_from _ (fun e => silent e = true)
             (fun ev => is_input ev = false) _ _ _
             (quiet_ask_params answer (trace s) args coll_lst) Hsilent Hrun). }
  unfold ask_params in Hrun. rewrite run_bind in Hrun.
  rewrite (silent_process_run args s Hsilent) in Hrun.
  set (process := silent_process args) in *.
  assert (∀ e, silent (self (emit e s).2) = true) as Hemit by done.
  split.
  - intros Hmissing.
    destruct (String.eqb process "full");
      [|destruct (String.eqb process "order_csv");
        [|destruct (String.eqb process "download_aoi" ||
                    String.eqb process "search_only");
          [|destruct (String.eqb process "download_only")]]];
      rewrite run_bind in Hrun; cbn [emit] in Hrun;
      try (rewrite run_bind in Hrun;
           match type of Hrun with
           | context [ask_aoi answer ?i ?s1] =>
               destruct (ask_aoi_missing i s1 Hsilent Hmissing) as [s2 Hs2]
           | context [ask_inputFile answer ?i ?m ?s1] =>
               destruct (ask_inputFile_missing i m s1 Hsilent Hmissing)
                 as [s2 Hs2]
           end;
           rewrite Hs2 in Hrun; by injection Hrun as <- _).
    unfold print_support in Hrun. by injection Hrun as <- _.
  - intros Hcoll Hproc.
    assert (∀ s1 (rest : string -> list string -> M asked_params),
              silent (self s1) = true ->
              (ask_aoi answer (a_input args) ≫= fun input_fn =>
               ask_collection answer (a_collections args) coll_lst ≫=
               rest input_fn) s1 = (o, s') ->
              o = Exited 1) as Hbranch.
    { intros s1 rest Hs1. rewrite run_bind.
      destruct (ask_aoi answer (a_input args) s1) as [out s2] eqn:Haoi.
      pose proof (pres_from _ (fun e => silent e = true)
                    (fun ev => is_input ev = false)
                    _ _ _ (quiet_ask_aoi answer (trace s1) (a_input args))
                    Hs1 Haoi) as [Hs2 _].
      destruct (ends_well_ask_aoi _ _ _ _ Haoi) as [-> | [fn ->]].
      - by intros [= <- _].
      - rewrite run_bind, Hcoll.
        destruct (ask_collection_missing coll_lst s2 Hs2) as [s3 ->].
        by intros [= <- _]. }
    apply list_elem_of_In in Hproc. simpl in Hproc.
    destruct Hproc as [Hp|[Hp|[Hp|[]]]]; rewrite <- Hp in Hrun;
      cbn [String.eqb Ascii.eqb Bool.eqb orb] in Hrun;
      rewrite run_bind in Hrun; cbn [emit] in Hrun;
      refine (Hbranch _ _ _ Hrun); done.
Qed.

End Silent.

(** ** The choice of the process *)

Section Process.

Context `{Collaborators} `{Session}.

Variable answer : nat -> string -> string.

(** The number typed at the question of [ask_process]. From 1 to 4 it
    picks the process of that rank; 0 and any number above 4 end the run
    with status 1; a negative number is taken as an index from the end of
    the list, one place further: -1, -2 and -3 pick [download_only],
    [order_csv] and [full], and anything below raises [IndexError]. The
    process [download_aoi] cannot be picked. *)
Theorem ask_process_choice text n s :
  silent (self s) = false ->
  answer (length (List.filter is_input (trace s))) process_prompt = text ->
  text ≠ "" ->
  PyNum.int text = Some n ->
  let err_msg := "Invalid value entered for the 'process' parameter." in
  let asked tr :=
    {| self := self s; heap := heap s;
       trace := trace s ++ EvInput process_prompt :: tr |} in
  ask_process answer s
  = if ((n =? 0) || (4 <? n))%Z then
      (Exited 1, asked [EvSupport (Some err_msg); EvLog "error" err_msg])
    else if (0 <? n)%Z then
      (Done (nth (Z.to_nat (n - 1)) choices ""), asked [])
    else if (-4 <? n)%Z then
      (Done (nth (Z.to_nat (n + 3)) choices ""), asked [])
    else (Raised IndexError, asked []).
Proof.
  intros Hsilent Hanswer Htext Hint err_msg asked.
  apply String.eqb_neq in Htext.
  unfold ask_process, ask, validate_int, check_limit, fail_with. exec.
  rewrite Hsilent, Hanswer, Htext, Hint. exec.
  destruct (Z.eqb_spec n 0) as [->|Hn0].
  { cbn [falsy orb]. subst asked. cbn. by rewrite <- !app_assoc. }
  assert (falsy (IntVal n) = false) as -> by (by destruct n).
  exec. change (Z.of_nat (length choices)) with 4%Z.
  destruct (Z.ltb_spec 4 n) as [Hgt|Hle]; cbn [orb].
  { exec. subst asked. cbn. by rewrite <- !app_assoc. }
  unfold PyList.index. change (Z.of_nat (length choices)) with 4%Z.
  destruct (Z.ltb_spec 0 n) as [Hpos|Hneg].
  - assert (n = 1 ∨ n = 2 ∨ n = 3 ∨ n = 4)%Z as Hn by lia.
    destruct Hn as [-> | [-> | [-> | ->] ] ]; reflexivity.
  - destruct (Z.ltb_spec (-4) n) as [Hin|Hout].
    + assert (n = -1 ∨ n = -2 ∨ n = -3)%Z as Hn by lia.
      destruct Hn as [-> | [-> | ->] ]; reflexivity.
    + destruct (Z.ltb_spec (n - 1) 0) as [_|?]; [|lia].
      destruct (Z.ltb_spec (n - 1 + 4) 0) as [_|?]; [|lia].
      reflexivity.
Qed.

End Process.

(** ** Numbers as texts *)

Ltac digit_step :=
  unfold PyNum.digits_value at 1; fold PyNum.digits_value;
  match goal with
  | |- context [PyNum.is_digit ?c] =>
      change (PyNum.is_digit c) with true; cbv iota
  end;
  match goal with
  | |- context [Z.of_nat ?k] =>
      let v := eval vm_compute in (Z.of_nat k) in
      change (Z.of_nat k) with v
  end.

Lemma digits_of_uint_acc d acc :
  PyNum.digits_value (Z.pos acc) true (NilEmpty.string_of_uint d)
  = Some (Z.pos (Pos.of_uint_acc d acc)).
Proof.
  revert acc.
  induction d; intros acc; cbn [NilEmpty.string_of_uint Pos.of_uint_acc];
    [reflexivity|..];
    (etrans; [|apply IHd]); digit_step; f_equal; lia.
Qed.

Lemma digits_of_uint d b :
  b = true ∨ d ≠ Decimal.Nil ->
  PyNum.digits_value 0 b (NilEmpty.string_of_uint d)
  = Some (Z.of_N (Pos.of_uint d)).
Proof.
  revert b.
  induction d; intros b Hb; cbn [NilEmpty.string_of_uint Pos.of_uint].
  - destruct Hb as [->|?]; done.
  - digit_step. apply IHd. by left.
  - digit_step. apply digits_of_uint_acc.
  - digit_step. apply digits_of_uint_acc.
  - digit_step. apply digits_of_uint_acc.
  - digit_step. apply digits_of_uint_acc.
  - digit_step. apply digits_of_uint_acc.
  - digit_step. apply digits_of_uint_acc.
  - digit_step. apply digits_of_uint_acc.
  - digit_step. apply digits_of_uint_acc.
  - digit_step. apply digits_of_uint_acc.
Qed.

(** The characters of a decimal numeral. *)
Lemma uint_digits d :
  Py.all_chars PyNum.is_digit (NilEmpty.string_of_uint d) = true.
Proof. induction d; cbn [NilEmpty.string_of_uint Py.all_chars]; done. Qed.

Lemma all_chars_impl (P Q : ascii -> bool) s :
  (∀ c, P c = true -> Q c = true) ->
  Py.all_chars P s = true -> Py.all_chars Q s = true.
Proof.
  intros HPQ. induction s as [|c s IH]; simpl; [done|].
  intros [Hc Hs]%andb_true_iff. by rewrite (HPQ c Hc), IH.
Qed.

Lemma digit_facts c :
  PyNum.is_digit c = true ->
  Py.is_space c = false ∧ Ascii.eqb c ":" = false ∧ Ascii.eqb c "+" = false ∧
  Ascii.eqb c "-" = false.
Proof. destruct c as [[] [] [] [] [] [] [] []]; cbv; try done. Qed.

Lemma lstrip_no_space c s :
  Py.is_space c = false -> Py.lstrip (String c s) = String c s.
Proof. intros Hc. simpl. by rewrite Hc. Qed.

Lemma rstrip_no_space s :
  Py.all_chars (fun c => negb (Py.is_space c)) s = true -> Py.rstrip s = s.
Proof.
  induction s as [|c s IH]; simpl; [done|].
  intros [Hc Hs]%andb_true_iff. rewrite (IH Hs).
  apply negb_true_iff in Hc. rewrite Hc. by destruct s.
Qed.

Lemma strip_no_space s :
  Py.all_chars (fun c => negb (Py.is_space c)) s = true -> Py.strip s = s.
Proof.
  intros Hs. unfold Py.strip. destruct s as [|c s]; [done|].
  pose proof Hs as [Hc _]%andb_true_iff. apply negb_true_iff in Hc.
  rewrite lstrip_no_space by done. by apply rstrip_no_space.
Qed.

Lemma pos_numeral p :
  ∃ c r, NilEmpty.string_of_uint (Pos.to_uint p) = String c r ∧
         PyNum.is_digit c = true ∧ Py.all_chars PyNum.is_digit r = true.
Proof.
  pose proof (uint_digits (Pos.to_uint p)) as Hd.
  pose proof (DecimalPos.Unsigned.to_uint_nonnil p) as Hnil.
  destruct (Pos.to_uint p); try done;
    cbn [NilEmpty.string_of_uint] in *; eauto.
Qed.

Lemma nilzero_pos p :
  NilZero.string_of_uint (Pos.to_uint p)
  = NilEmpty.string_of_uint (Pos.to_uint p).
Proof.
  pose proof (DecimalPos.Unsigned.to_uint_nonnil p) as Hnil.
  unfold NilZero.string_of_uint. by destruct (Pos.to_uint p).
Qed.

Lemma int_of_pos_numeral p :
  PyNum.digits_value 0 false (NilEmpty.string_of_uint (Pos.to_uint p))
  = Some (Z.pos p).
Proof.
  rewrite digits_of_uint.
  - by rewrite DecimalPos.Unsigned.of_to.
  - right. apply DecimalPos.Unsigned.to_uint_nonnil.
Qed.

(** [int(str(n))] is [n]. *)
Lemma int_str n : PyNum.int (PyNum.str n) = Some n.
Proof.
  unfold PyNum.int, PyNum.str. destruct n as [|p|p]; [reflexivity|..];
    cbn [Z.to_int NilZero.string_of_int]; rewrite nilzero_pos;
    destruct (pos_numeral p) as (c & r & Hs & Hc & Hr);
    pose proof (int_of_pos_numeral p) as Hval; rewrite Hs in *;
    destruct (digit_facts c Hc) as (Hsp & _ & Hplus & Hminus).
  - rewrite strip_no_space.
    + destruct (Ascii.eqb_spec c "+") as [->|?]; [done|].
      destruct (Ascii.eqb_spec c "-") as [->|?]; [done|].
      destruct c as [[] [] [] [] [] [] [] []]; try done.
    + cbn [Py.all_chars]. rewrite Hsp. cbn [negb andb].
      eapply all_chars_impl; [|exact Hr]. intros d Hd.
      by destruct (digit_facts d Hd) as (-> & _).
  - rewrite strip_no_space.
    + by rewrite Hval.
    + cbn [Py.all_chars]. rewrite Hsp.
      change (negb (Py.is_space "-")) with true. cbn [negb andb].
      eapply all_chars_impl; [|exact Hr]. intros d Hd.
      by destruct (digit_facts d Hd) as (-> & _).
Qed.

(** The text of a number holds no [:] and is not empty. *)
Lemma str_lacks_colon n : Py.contains ":" (PyNum.str n) = false.
Proof.
  apply lacks_contains. unfold lacks, PyNum.str.
  destruct n as [|p|p]; [reflexivity|..];
    cbn [Z.to_int NilZero.string_of_int]; rewrite nilzero_pos;
    cbn [Py.all_chars];
    (eapply all_chars_impl; [|apply uint_digits]); intros d Hd;
    by destruct (digit_facts d Hd) as (_ & -> & _).
Qed.

Lemma str_not_empty n : ∃ c r, PyNum.str n = String c r.
Proof.
  unfold PyNum.str. destruct n as [|p|p]; [by eexists _, _|..];
    cbn [Z.to_int NilZero.string_of_int]; rewrite nilzero_pos;
    destruct (pos_numeral p) as (c & r & -> & _); by eexists _, _.
Qed.

(** ** The two numbers of [ask_maximum] *)

Section Maximum.

Context `{Collaborators} `{Session}.

Variable answer : nat -> string -> string.

Lemma inputs_snoc (tr : list event) prompt :
  length (List.filter is_input (tr ++ [EvInput prompt]))
  = S (length (List.filter is_input tr)).
Proof. rewrite List.filter_app, length_app. simpl. lia. Qed.

(** A limit of images per order typed alone at the prompt, with the
    total left blank, does not limit the orders: [ask_maximum] returns
    the number by itself, which [parse_max] reads as the total number of
    images, and no limit per order is set. *)
Theorem lone_order_limit_caps_images maximum process text n s :
  silent (self s) = false ->
  maximum = None ∨ maximum = Some "" ->
  process ≠ "order_csv" ->
  let asked := length (List.filter is_input (trace s)) in
  let total_q := "Enter the total number of images you'd like to order (leave blank for no limit): " in
  let limit_q := "If you'd like a limit of images per order, enter a value (EODMS sets a maximum limit of 100): " in
  answer asked total_q = "" ->
  answer (S asked) limit_q = text ->
  PyNum.int text = Some n ->
  n ≠ 0%Z ->
  (n <= 100)%Z ->
  ask_maximum answer maximum process s
  = (Done (Some (PyNum.str n)),
     {| self := self s; heap := heap s;
        trace := trace s ++ [EvInput total_q; EvInput limit_q] |}) ∧
  parse_max (Some (PyNum.str n)) = inr (MaxInt n, MaxNone).
Proof.
  intros Hsilent Hmax Hproc asked total_q limit_q Htotal Hlimit Hint Hn0 Hle.
  assert ((text =? "") = false) as Htext.
  { destruct text; [done|reflexivity]. }
  apply String.eqb_neq in Hproc.
  destruct (str_not_empty n) as (c & r & Hstr).
  split.
  - assert (falsy (IntVal n) = false) as Hfalsy by (by destruct n).
    assert ((100 <? n)%Z = false) as Hlt by lia.
    destruct Hmax as [-> | ->];
      unfold ask_maximum, ask_number, get_input, ask, validate_int,
        check_limit;
      exec; rewrite Hsilent; exec; rewrite Hproc; exec;
      cbv [String.append]; cbn [andb];
      fold total_q; fold asked; rewrite Htotal; exec;
      change ("" =? "") with true; exec;
      fold limit_q; rewrite inputs_snoc; fold asked;
      rewrite Hlimit, Htext; exec; rewrite Hint; exec;
      rewrite Hlt; exec; rewrite Hfalsy; exec; cbn [str_of PyList.filter_none omap];
      rewrite Hstr; cbn [PyStr.join]; by rewrite <- !app_assoc.
  - unfold parse_max, to_max. rewrite str_lacks_colon, Hstr.
    change (String c r =? "") with false. by rewrite <- Hstr, int_str.
Qed.

End Maximum.

(** ** The validator and the parser of the filters *)

Lemma prefix_nil s : String.prefix "" s = true.
Proof. by destruct s. Qed.

Lemma prefix_cons c x d s :
  String.prefix (String c x) (String d s)
  = Ascii.eqb c d && String.prefix x s.
Proof.
  cbv [String.prefix]. fold String.prefix.
  destruct (ascii_dec c d) as [->|Hne].
  - by rewrite Ascii.eqb_refl.
  - by apply Ascii.eqb_neq in Hne as ->.
Qed.

Lemma prefix_app x a b :
  String.prefix x a = true -> String.prefix x (a +:+ b) = true.
Proof.
  revert a. induction x as [|c x IH]; intros a; [intros _; apply prefix_nil|].
  destruct a as [|d a]; [done|]. cbn [String.append].
  change (String d a +:+ b) with (String d (a +:+ b)).
  rewrite !prefix_cons. intros [-> Hx]%andb_true_iff. by rewrite IH.
Qed.

Lemma prefix_self x : String.prefix x x = true.
Proof.
  induction x as [|c x IH]; [done|].
  by rewrite prefix_cons, Ascii.eqb_refl, IH.
Qed.

Lemma contains_prefix x s : String.prefix x s = true -> Py.contains x s = true.
Proof. destruct s; simpl; [done|]. by intros ->. Qed.

Lemma contains_app_r x a b :
  Py.contains x b = true -> Py.contains x (a +:+ b) = true.
Proof.
  intros Hb. induction a as [|c a IH]; [done|].
  change (String c a +:+ b) with (String c (a +:+ b)). simpl.
  by rewrite IH, orb_true_r.
Qed.

Lemma contains_app_l x a b :
  Py.contains x a = true -> Py.contains x (a +:+ b) = true.
Proof.
  induction a as [|c a IH].
  - simpl. destruct x; [|done]. intros _. apply contains_prefix, prefix_nil.
  - change (String c a +:+ b) with (String c (a +:+ b)). simpl.
    intros [Hp|Hc]%orb_true_iff.
    + change (String c (a +:+ b)) with (String c a +:+ b).
      by rewrite prefix_app.
    + by rewrite IH, orb_true_r.
Qed.

Lemma contains_middle x a b : Py.contains x (a +:+ x +:+ b) = true.
Proof. apply contains_app_r, contains_app_l, contains_prefix, prefix_self. Qed.

Lemma append_assoc (a b c : string) : (a +:+ b) +:+ c = a +:+ (b +:+ c).
Proof.
  induction a as [|d a IH]; [done|].
  change (String d a +:+ b) with (String d (a +:+ b)).
  change (String d (a +:+ b) +:+ c) with (String d ((a +:+ b) +:+ c)).
  by rewrite IH.
Qed.

Lemma append_nil_r (a : string) : a +:+ "" = a.
Proof.
  induction a as [|d a IH]; [done|].
  change (String d a +:+ "") with (String d (a +:+ "")). by rewrite IH.
Qed.

Lemma lstrip_decomp s : ∃ a, s = a +:+ Py.lstrip s.
Proof.
  induction s as [|c s [a IH]]; [by exists ""|]. simpl.
  destruct (Py.is_space c).
  - exists (String c a). change (String c a +:+ Py.lstrip s)
      with (String c (a +:+ Py.lstrip s)). by rewrite <- IH.
  - by exists "".
Qed.

Lemma rstrip_decomp s : ∃ b, s = Py.rstrip s +:+ b.
Proof.
  induction s as [|c s [b IH]]; [by exists ""|]. simpl.
  destruct (Py.rstrip s) as [|d r] eqn:Hr.
  - destruct (Py.is_space c).
    + exists (String c s). done.
    + exists s. reflexivity.
  - exists b. change (String c (String d r) +:+ b)
      with (String c (String d r +:+ b)). by rewrite <- IH.
Qed.

Lemma strip_decomp s : ∃ a b, s = a +:+ Py.strip s +:+ b.
Proof.
  destruct (lstrip_decomp s) as [a Ha].
  destruct (rstrip_decomp (Py.lstrip s)) as [b Hb].
  exists a, b. unfold Py.strip. by rewrite <- Hb.
Qed.

Lemma split_aux_first sep s : ∃ r, s = (Py.split_aux sep 0 s).1 +:+ r.
Proof.
  induction s as [|c s [r IH]]; [by exists ""|]. simpl.
  destruct (String.prefix sep (String c s)); simpl.
  - by eexists.
  - destruct (Py.split_aux sep 0 s) as [p ps]; simpl in *.
    exists r. change (String c p +:+ r) with (String c (p +:+ r)).
    by rewrite <- IH.
Qed.

Lemma split_first sep s part0 :
  Py.split sep s !! 0%nat = Some part0 -> ∃ r, s = part0 +:+ r.
Proof.
  unfold Py.split. destruct (split_aux_first sep s) as [r Hr].
  destruct (Py.split_aux sep 0 s) as [p ps]. intros [= <-]. by exists r.
Qed.

Lemma upper_app a b : Py.upper (a +:+ b) = Py.upper a +:+ Py.upper b.
Proof.
  unfold Py.upper. induction a as [|c a IH]; [done|].
  change (String c a +:+ b) with (String c (a +:+ b)). simpl.
  by rewrite IH.
Qed.

Lemma split_aux_piece c x y :
  lacks c x = true ->
  Py.split_aux (String c "") 0 (x +:+ String c y)
  = (x, let (p, ps) := Py.split_aux (String c "") 0 y in p :: ps).
Proof.
  unfold lacks. induction x as [|d x IH].
  - intros _. change ("" +:+ String c y) with (String c y). simpl.
    by rewrite prefix_single, Ascii.eqb_refl.
  - intros [Hd Hx]%andb_true_iff. apply negb_true_iff in Hd.
    change (String d x +:+ String c y) with (String d (x +:+ String c y)).
    simpl. by rewrite prefix_single, Hd, (IH Hx).
Qed.

Lemma split_join c entries :
  entries ≠ [] ->
  Forall (fun f => lacks c f = true) entries ->
  Py.split (String c "") (PyStr.join (String c "") entries) = entries.
Proof.
  intros Hne Hall. unfold Py.split.
  induction Hall as [|x rest Hx Hrest IH]; [done|].
  destruct rest as [|y rest].
  - simpl. rewrite split_aux_absent; [done|]. by apply lacks_contains.
  - change (PyStr.join (String c "") (x :: y :: rest))
      with (x +:+ String c (PyStr.join (String c "") (y :: rest))).
    rewrite split_aux_piece by done.
    specialize (IH ltac:(done)).
    destruct (Py.split_aux _ 0 (PyStr.join _ (y :: rest))) as [p ps].
    by rewrite IH.
Qed.

Local Opaque get_filtMap operators.

(** What an entry that the parser translates holds: an operator of the
    vocabulary, and a name of a filter of the collection. *)
Lemma entry_binding_holds coll_id f b :
  entry_binding coll_id f = Some b ->
  existsb (fun x => Py.contains x (Py.upper f)) operators = true ∧
  ∃ cf key, get_filtMap !! coll_id = Some cf ∧ is_Some (cf !! key) ∧
            Py.contains key (Py.upper f) = true.
Proof.
  unfold entry_binding. rewrite detect_operator_last.
  destruct (last _) as [o|] eqn:Hlast; [|done]. simpl.
  destruct (Py.split o (Py.upper f) !! 0%nat) as [part0|] eqn:H0; [|done].
  simpl. destruct (get_filtMap !! coll_id) as [cf|]; [|done]. simpl.
  destruct (cf !! Py.strip part0) as [fld|] eqn:Hkey; [|done].
  intros _. apply last_filter_elem in Hlast as [Hin Hop]. split.
  - apply existsb_exists. exists o. by rewrite <- list_elem_of_In.
  - exists cf, (Py.strip part0). split; [done|]. split; [by eexists|].
    destruct (split_first _ _ _ H0) as [r ->].
    destruct (strip_decomp part0) as (a & b' & Hp).
    remember (Py.strip part0) as key. rewrite Hp.
    rewrite !append_assoc. apply contains_middle.
Qed.

Section Accepts.

Context `{Collaborators}.

(** The validator accepts what the parser translates: a list of entries
    joined by commas, none of which holds a comma and each of which
    [_parse_filters] would turn into a binding for the collection, passes
    [validate_filters] as it is, with no message. *)
Theorem validate_filters_accepts_translated coll_id entries s :
  entries ≠ [] ->
  Forall (fun f => Py.contains "," f = false ∧
                   is_Some (entry_binding coll_id f)) entries ->
  validate_filters (PyStr.join "," entries) coll_id s
  = (Done (Some (PyStr.join "," entries)), s).
Proof.
  intros Hne Hall. unfold validate_filters.
  destruct entries as [|e1 rest]; [done|].
  pose proof (Forall_inv Hall) as [_ [b1 Hb1]].
  destruct (entry_binding_holds _ _ _ Hb1) as (Hop & cf & _ & Hcf & _).
  assert (existsb (fun x => Py.contains x
                     (Py.upper (PyStr.join "," (e1 :: rest)))) operators
          = true) as ->.
  { apply existsb_exists in Hop as (o & Hin & Ho).
    apply existsb_exists. exists o. split; [done|].
    destruct rest as [|e2 rest]; [done|].
    change (PyStr.join "," (e1 :: e2 :: rest))
      with (e1 +:+ "," +:+ PyStr.join "," (e2 :: rest)).
    rewrite upper_app. by apply contains_app_l. }
  cbn [negb]. rewrite Hcf. exec.
  rewrite split_join; [|done|].
  - destruct (List.find _ _) as [f|] eqn:Hfind; [|done].
    apply List.find_some in Hfind as [Hf Hnone].
    apply list_elem_of_In in Hf.
    destruct (proj1 (Forall_forall _ _) Hall f Hf) as [_ [b Hb]].
    destruct (entry_binding_holds _ _ _ Hb)
      as (_ & cf' & key & Hcf' & Hkey & Hc).
    assert (cf' = cf) as -> by congruence.
    assert (existsb (fun x => Py.contains x (Py.upper f)) (map_to_list cf).*1
            = true) as Hex; [|by rewrite Hex in Hnone].
    apply existsb_exists. exists key. split; [|done].
    destruct Hkey as [fld Hfld]. apply list_elem_of_In, list_elem_of_fmap.
    exists (key, fld). split; [done|]. by apply elem_of_map_to_list.
  - eapply Forall_impl; [exact Hall|]. intros f [Hc _]. by apply lacks_contains.
Qed.

End Accepts.

Local Transparent get_filtMap operators.

(** ** Texts cut and joined *)

Lemma join_cons sep x y l :
  PyStr.join sep (x :: y :: l) = x +:+ sep +:+ PyStr.join sep (y :: l).
Proof. reflexivity. Qed.

Lemma join_split_aux c s :
  PyStr.join (String c "")
    ((Py.split_aux (String c "") 0 s).1 :: (Py.split_aux (String c "") 0 s).2)
  = s.
Proof.
  induction s as [|d s IH]; [done|]. cbn [Py.split_aux].
  rewrite prefix_single.
  change (String.length (String c "") - 1) with 0.
  destruct (Ascii.eqb_spec d c) as [->|Hne];
    destruct (Py.split_aux (String c "") 0 s) as [p ps]; cbn [fst snd] in *.
  - rewrite join_cons, IH. reflexivity.
  - destruct ps as [|q ps].
    + cbn [PyStr.join] in *. by rewrite IH.
    + rewrite join_cons in *. rewrite <- IH. reflexivity.
Qed.

(** Joining the pieces of a text with the separator that cut it gives
    the text back. *)
Lemma join_split c s :
  PyStr.join (String c "") (Py.split (String c "") s) = s.
Proof.
  pose proof (join_split_aux c s) as Hs. unfold Py.split.
  by destruct (Py.split_aux (String c "") 0 s).
Qed.

Lemma split_length c s :
  length (Py.split (String c "") s) = S (PyStr.count c s).
Proof.
  unfold Py.split.
  assert (length (Py.split_aux (String c "") 0 s).2 = PyStr.count c s) as Hs.
  { induction s as [|d s IH]; [done|]. simpl. rewrite prefix_single.
    destruct (Ascii.eqb d c); simpl;
      destruct (Py.split_aux (String c "") 0 s) as [p ps]; simpl in *; lia. }
  destruct (Py.split_aux (String c "") 0 s); simpl in *. lia.
Qed.

Lemma length_append (a b : string) :
  String.length (a +:+ b) = String.length a + String.length b.
Proof.
  induction a as [|c a IH]; [done|].
  change (String c a +:+ b) with (String c (a +:+ b)). simpl. by rewrite IH.
Qed.

Lemma length_take_drop n s :
  String.length (PyStr.take n s) + String.length (PyStr.drop n s)
  = String.length s.
Proof.
  revert s. induction n as [|n IH]; intros [|c s]; simpl; try done.
  by rewrite IH.
Qed.

Lemma drop_drop n m s :
  PyStr.drop m (PyStr.drop n s) = PyStr.drop (n + m) s.
Proof.
  revert s. induction n as [|n IH]; intros s; [done|].
  destruct s as [|c s]; [by destruct m|]. simpl. apply IH.
Qed.

Lemma length_lower s : String.length (Py.lower s) = String.length s.
Proof.
  unfold Py.lower. induction s as [|c s IH]; simpl; [done|]. by rewrite IH.
Qed.

Lemma lacks_count c s : lacks c s = true <-> PyStr.count c s = 0.
Proof.
  unfold lacks. induction s as [|d s IH]; simpl; [done|].
  destruct (Ascii.eqb d c); simpl; [split; [done|lia]|]. by rewrite IH.
Qed.

(** ** [convert_date] *)

(** [convert_date] raises exactly when the date holds two or more
    letters t, in either case, and what it raises is the [ValueError] of
    the unpacking of line 458. A date without the letter gets twelve
    characters more (two hyphens and the time of midnight), whatever its
    length; a date with one gets five more. *)
Theorem convert_date_outcome in_date :
  let ts := PyStr.count "t" (Py.lower in_date) in
  match convert_date in_date with
  | inl e => e = ValueError ∧ 2 <= ts
  | inr out =>
      ts <= 1 ∧
      String.length out
      = String.length in_date + (if (ts =? 0)%nat then 12 else 5)
  end.
Proof.
  intros ts. unfold convert_date. rewrite contains_single.
  destruct (lacks "t" (Py.lower in_date)) eqn:Hl; cbn [negb].
  - apply lacks_count in Hl. subst ts. rewrite Hl. split; [lia|].
    rewrite !length_append. cbn [String.length Nat.eqb].
    pose proof (length_take_drop 4 in_date).
    pose proof (length_take_drop 2 (PyStr.drop 4 in_date)).
    pose proof (drop_drop 4 2 in_date) as Hd. cbn [Nat.add] in Hd.
    rewrite <- Hd.
    lia.
  - assert (ts ≠ 0) as Hts.
    { intros Hz%lacks_count. congruence. }
    pose proof (split_length "t" (Py.lower in_date)) as Hlen.
    pose proof (join_split "t" (Py.lower in_date)) as Hjoin.
    fold ts in Hlen.
    destruct (Py.split "t" (Py.lower in_date)) as [|date [|tme [|x l]]];
      simpl in Hlen; try (split; [done|lia]).
    split; [lia|]. destruct ts as [|[|?]]; try lia. cbn [Nat.eqb].
    rewrite <- (length_lower in_date), <- Hjoin.
    cbn [PyStr.join]. rewrite !length_append. cbn [String.length].
    pose proof (length_take_drop 4 date).
    pose proof (length_take_drop 2 (PyStr.drop 4 date)).
    pose proof (drop_drop 4 2 date) as Hd. cbn [Nat.add] in Hd.
    rewrite <- Hd.
    pose proof (length_take_drop 2 tme).
    pose proof (length_take_drop 2 (PyStr.drop 2 tme)).
    pose proof (drop_drop 2 2 tme) as Ht. cbn [Nat.add] in Ht.
    rewrite <- Ht.
    lia.
Qed.

(** ** [export_records] *)



(** ** The scenarios of the prompter *)

(** The command line gives the priority [High]; the parameters of the
    flow hold none. *)
Lemma priority_never_kept_witness :
  k_priority
    {| k_process := "full"; k_input := Some "aoi.geojson";
       k_collections := Some (CollList ["RCMImageProducts"]);
       k_filters := Some ∅; k_dates := None; k_output := None;
       k_maximum := None; k_priority := None |}
  = None.
Proof.
  pose (C := scripted [] [] true "").
  apply (@priority_never_kept C two_collections (typed []) (full_args None)
           ["RCM Image Products"; "RADARSAT-1 Open Data Products"]
           (@init_state C true) _
           {| self := set_silent true init_eod; heap := [];
              trace := [EvLog "info" "Searching, ordering and downloading images using an AOI."] |}).
  vm_compute. reflexivity.
Defined.



(** A silent run of the full process with an AOI and no collection: no
    question is asked, and the run ends with status 1. *)
Lemma silent_prompter_never_asks_witness :
  let C := scripted [] [] true "" in
  let args := {| a_collections := None; a_dates := None;
                 a_input := Some "aoi.geojson"; a_filters := None;
                 a_priority := None; a_maximum := None;
                 a_process := Some "full"; a_output := None |} in
  let run := @ask_params C two_collections (typed []) args
               ["RCM Image Products"; "RADARSAT-1 Open Data Products"]
               (@init_state C true) in
  (silent (self run.2) = true ∧
   ∃ added, trace run.2 = trace (@init_state C true) ++ added ∧
            Forall (fun ev => is_input ev = false) added) ∧
  run.1 = Exited 1.
Proof.
  intros C args run.
  destruct (@silent_prompter_never_asks C two_collections (typed []) args
              ["RCM Image Products"; "RADARSAT-1 Open Data Products"]
              (@init_state C true) run.1 run.2)
    as (Hquiet & _ & Hcoll).
  - reflexivity.
  - apply surjective_pairing.
  - split; [exact Hquiet|]. apply Hcoll; [reflexivity|]. left.
Defined.

(** The user picks the second and the first collection of the list. *)
Lemma ask_collection_valid_witness :
  let coll_lst := ["RCM Image Products"; "RADARSAT-1 Open Data Products"] in
  let picked := ["RADARSAT-1 Open Data Products"; "RCM Image Products"] in
  Forall (fun c => @Rapi.validate_collection two_collections c = true) picked ∧
  (@None string = None -> Forall (fun c => c ∈ coll_lst) picked).
Proof.
  intros coll_lst picked.
  pose (C := scripted [] [] true "").
  apply (@ask_collection_valid C two_collections (typed ["2,1"]) None coll_lst
           (@init_state C false) picked
           {| self := init_eod; heap := [];
              trace := [EvInput "Enter the number of a collection from the list above (for multiple collections, enter each number separated with a comma): "] |}).
  vm_compute. reflexivity.
Defined.

(** The user types a value with a decimal point: what stands before the
    point is dropped, and the entry kept is ["5"]. *)
Lemma ask_filter_keeps_no_point_witness :
  Forall (fun f => Py.contains "." f = false) ["5"; "BEAM_MNEMONIC=16M11"].
Proof.
  pose (C := scripted [] [] true "").
  refine (@ask_filter_keeps_no_point C two_collections
            (typed ["INCIDENCE_ANGLE>=20.5,BEAM_MNEMONIC=16M11"]) None
            ["RCMImageProducts"] (@init_state C false)
            {[ Some "RCMImageProducts" := ["5"; "BEAM_MNEMONIC=16M11"] ]}
            {| self := init_eod; heap := [];
               trace := [EvInput ("Enter the filters you would like to apply to the query (in the format of <filter_id>=<value>|<value>|...; separate each filter property with a comma):" +:+ PyText.newline)] |}
            _ (Some "RCMImageProducts") _ _).
  - vm_compute. reflexivity.
  - vm_compute. reflexivity.
Defined.

(** The user types [-1]: the process is [download_only]. *)
Lemma ask_process_choice_witness :
  let C := scripted [] [] true "" in
  @ask_process C (typed ["-1"]) (@init_state C false)
  = (Done "download_only",
     {| self := init_eod; heap := [];
        trace := [] ++ [EvInput process_prompt] |}).
Proof.
  intros C.
  refine (@ask_process_choice C (typed ["-1"]) "-1" (-1)
            (@init_state C false) _ _ _ _).
  - reflexivity.
  - reflexivity.
  - discriminate.
  - reflexivity.
Defined.

(** The user leaves the total blank and types 50 as the limit of an
    order. *)
Lemma lone_order_limit_caps_images_witness :
  let C := scripted [] [] true "" in
  @ask_maximum C (typed [""; "50"]) None "full" (@init_state C false)
  = (Done (Some (PyNum.str 50)),
     {| self := init_eod; heap := [];
        trace := [] ++
          [EvInput "Enter the total number of images you'd like to order (leave blank for no limit): ";
           EvInput "If you'd like a limit of images per order, enter a value (EODMS sets a maximum limit of 100): "] |}) ∧
  parse_max (Some (PyNum.str 50)) = inr (MaxInt 50, MaxNone).
Proof.
  intros C.
  refine (@lone_order_limit_caps_images C (typed [""; "50"]) None "full" "50"
            50 (@init_state C false) _ _ _ _ _ _ _ _).
  - reflexivity.
  - by left.
  - discriminate.
  - reflexivity.
  - reflexivity.
  - reflexivity.
  - lia.
  - lia.
Defined.

Lemma validate_filters_accepts_translated_witness :
  let C := scripted [] [] true "" in
  @validate_filters C "INCIDENCE_ANGLE>=20,BEAM_MNEMONIC=16M11"
    "RCMImageProducts" (@init_state C false)
  = (Done (Some "INCIDENCE_ANGLE>=20,BEAM_MNEMONIC=16M11"),
     @init_state C false).
Proof.
  intros C.
  apply (@validate_filters_accepts_translated C "RCMImageProducts"
           ["INCIDENCE_ANGLE>=20"; "BEAM_MNEMONIC=16M11"]
           (@init_state C false)).
  - discriminate.
  - repeat constructor; eexists; vm_compute; reflexivity.
Defined.


(** Two collections with filters for both: the search of the second one
    carries none. *)
Lemma second_search_unfiltered :
  @Rapi.query_entries two_collections ["RCMImageProducts"; "Radarsat1"]
    (Some {[ "RCMImageProducts" := ["INCIDENCE_ANGLE>=20"];
             "Radarsat1" := ["INCIDENCE_ANGLE<40"] ]})
    "aoi.geojson" DatesEmpty MaxNone
  = (inr ["RCMImageProducts"; "Radarsat1"],
     [ {| sc_coll_id := Some "RCMImageProducts";
          sc_filters := FromParser {[ "Incidence Angle" := (">=", ["20"]) ]};
          sc_aoi := "aoi.geojson"; sc_dates := DatesEmpty;
          sc_max := MaxNone |};
       {| sc_coll_id := Some "Radarsat1"; sc_filters := NoFilters;
          sc_aoi := "aoi.geojson"; sc_dates := DatesEmpty;
          sc_max := MaxNone |} ]).
Proof. vm_compute. reflexivity. Qed.

(** ** The dates of the prompter *)

Section AskedDates.

Context `{Collaborators} `{Session}.

Variable answer : nat -> string -> string.

(** The dates that come out of [ask_dates] always parse: a text it
    returns, typed at the prompt or given on the command line, is one on
    which [_parse_dates] does not raise, so the flow that parses it again
    gets a value. Dates that do not parse end the run in the prompter. *)
Theorem asked_dates_parse dates s r s' :
  ask_dates answer dates s = (Done r, s') ->
  ∃ value, parse_dates_param (DatesText r) = inr value.
Proof.
  revert s r s'.
  change (returns (fun r => ∃ value, parse_dates_param (DatesText r) = inr value)
            (ask_dates answer dates)).
  unfold ask_dates.
  apply returns_then. intros [[|c d]|].
  - apply returns_mret. by eexists.
  - unfold validate_dates, parse_dates_param.
    destruct (_parse_dates dateparser_parse now (Some (String c d)))
      as [e|value] eqn:Hparse.
    + apply returns_fail_with.
    + apply returns_mret. by eexists.
  - apply returns_mret. by eexists.
Qed.

End AskedDates.

Lemma asked_dates_parse_witness :
  ∃ value,
    @parse_dates_param (scripted [] [] true "")
      (DatesText (Some "20200501-20210105T054540")) = inr value.
Proof.
  pose (C := scripted [] [] true "").
  refine (@asked_dates_parse C (typed [])
            (Some "20200501-20210105T054540") (@init_state C true)
            (Some "20200501-20210105T054540") (@init_state C true) _).
  vm_compute. reflexivity.
Defined.
